(** * sepa.js: a shallow embedding of the checksum engine, the validation
    engine, the entity model, the normalization pass and the XML rendering
    engine of [lib/sepa.ts], with the properties of its specification. *)

From Stdlib Require Import String Ascii DecimalString.
From Stdlib Require Import ZArith List Bool Lia.
Import ListNotations.
Local Open Scope Z_scope.

(** ** The JavaScript values the library manipulates *)

Module JS.

(** A JavaScript string is a sequence of UTF-16 code units; [charCodeAt]
    reads one of them. *)
Definition jsstring := list Z.

(** String literals of the source, as code units. *)
Definition str (s : string) : jsstring :=
  map (fun a => Z.of_N (N_of_ascii a)) (list_ascii_of_string s).
Arguments str s%_string.

Fixpoint jsstring_eqb (a b : jsstring) : bool :=
  match a, b with
  | [], [] => true
  | x :: a', y :: b' => (x =? y) && jsstring_eqb a' b'
  | _, _ => false
  end.

(** [String.prototype.substr(start, length)]; [len = None] is the call
    with one argument. *)
Definition substr (s : jsstring) (start : Z) (len : option Z) : jsstring :=
  let size := Z.of_nat (length s) in
  let intStart :=
    if start <? 0 then Z.max (size + start) 0 else Z.min start size in
  let intLength :=
    match len with
    | None => size
    | Some l => Z.min (Z.max l 0) size
    end in
  let intEnd := Z.min (intStart + intLength) size in
  firstn (Z.to_nat (intEnd - intStart)) (skipn (Z.to_nat intStart) s).

(** [Number.prototype.toString()] on an integer. *)
Definition int_toString (n : Z) : jsstring :=
  str (NilZero.string_of_int (Z.to_int n)).

(** The white space and line terminators that [trim] and [parseInt]
    strip. *)
Definition is_whitespace (c : Z) : bool :=
  ((9 <=? c) && (c <=? 13)) || (c =? 32) || (c =? 160) || (c =? 5760)
  || ((8192 <=? c) && (c <=? 8202)) || (c =? 8232) || (c =? 8233)
  || (c =? 8239) || (c =? 8287) || (c =? 12288) || (c =? 65279).

Fixpoint trimStart (s : jsstring) : jsstring :=
  match s with
  | c :: rest => if is_whitespace c then trimStart rest else s
  | [] => []
  end.

Definition trim (s : jsstring) : jsstring :=
  rev (trimStart (rev (trimStart s))).

Definition is_digit (c : Z) : bool := (48 <=? c) && (c <=? 57).

(** The longest prefix of decimal digits, read as a number; [None] when
    there is no digit. *)
Fixpoint parse_digits (acc : option Z) (s : jsstring) : option Z :=
  match s with
  | c :: rest =>
      if is_digit c
      then parse_digits (Some (10 * match acc with Some a => a | None => 0 end
                               + (c - 48))) rest
      else acc
  | [] => acc
  end.

(** [parseInt(s, 10)]; [None] is NaN. *)
Definition parseInt (s : jsstring) : option Z :=
  match trimStart s with
  | 45 :: rest => option_map Z.opp (parse_digits None rest)
  | 43 :: rest => parse_digits None rest
  | rest => parse_digits None rest
  end.

(** Exceptions. *)
Inductive exn : Type :=
| Error (message : jsstring)
| InvalidSupplierError (supplierName : jsstring)
                       (invalidParams : list jsstring) (message : jsstring)
| TypeError
| RangeError.

Inductive result (A : Type) : Type :=
| Ok (a : A)
| Throw (e : exn).
Arguments Ok {A} a.
Arguments Throw {A} e.

Definition bind {A B} (m : result A) (k : A -> result B) : result B :=
  match m with
  | Ok a => k a
  | Throw e => Throw e
  end.

Definition succeeds {A} (m : result A) : bool :=
  match m with Ok _ => true | Throw _ => false end.

End JS.
Import JS.

Notation "x <- m ;; k" := (bind m (fun x => k))
  (at level 61, m at next level, right associativity).
Notation "m ;; k" := (bind m (fun _ => k))
  (at level 61, right associativity).

(** ** Checksum engine *)

(** One iteration of the loop of [_replaceChars]. *)
Definition _replaceChars_step (res : jsstring) (cc : Z) : jsstring :=
  if (65 <=? cc) && (cc <=? 90) then res ++ int_toString (cc - 55)
  else if (97 <=? cc) && (cc <=? 122) then res ++ int_toString (cc - 87)
  else if (48 <=? cc) && (cc <=? 57) then res ++ [cc]
  else res.

Definition _replaceChars (s : jsstring) : jsstring :=
  fold_left _replaceChars_step s [].

(** What the loop appends for one character. *)
Definition replace_unit (cc : Z) : jsstring := _replaceChars_step [] cc.

Definition all_digits (s : jsstring) : Prop :=
  Forall (fun c => is_digit c = true) s.

(** One iteration of the loop of [_txtMod97]; [None] is NaN, which
    propagates through the arithmetic. *)
Definition _txtMod97_step (res : option Z) (c : Z) : option Z :=
  match res, parseInt [c] with
  | Some r, Some d => Some (Z.rem (r * 10 + d) 97)
  | _, _ => None
  end.

Definition _txtMod97 (s : jsstring) : option Z :=
  fold_left _txtMod97_step s (Some 0).

Definition num_is (n : option Z) (k : Z) : bool :=
  match n with Some v => v =? k | None => false end.

Definition validateIBAN (iban : jsstring) : bool :=
  let ibrev := substr iban 4 None ++ substr iban 0 (Some 4) in
  num_is (_txtMod97 (_replaceChars ibrev)) 1.

(** ['0' + (98 - mod)] with [mod] possibly NaN. *)
Definition check_digits (mod_ : option Z) : jsstring :=
  substr (str "0" ++ match mod_ with
                     | Some m => int_toString (98 - m)
                     | None => str "NaN"
                     end) (-2) (Some 2).

Definition checksumIBAN (iban : jsstring) : jsstring :=
  let ibrev := substr iban 4 None ++ substr iban 0 (Some 2) ++ str "00" in
  let mod_ := _txtMod97 (_replaceChars ibrev) in
  substr iban 0 (Some 2) ++ check_digits mod_ ++ substr iban 4 None.

Definition validateCreditorID (cid : jsstring) : bool :=
  let cidrev := substr cid 7 None ++ substr cid 0 (Some 4) in
  num_is (_txtMod97 (_replaceChars cidrev)) 1.

Definition checksumCreditorID (cid : jsstring) : jsstring :=
  let cidrev := substr cid 7 None ++ substr cid 0 (Some 2) ++ str "00" in
  let mod_ := _txtMod97 (_replaceChars cidrev) in
  substr cid 0 (Some 2) ++ check_digits mod_ ++ substr cid 4 None.

(** ASCII upper-casing of the letters a-z. *)
Definition upper_unit (c : Z) : Z :=
  if (97 <=? c) && (c <=? 122) then c - 32 else c.

Definition toUpperCase (s : jsstring) : jsstring := map upper_unit s.

(** ** Values, numbers and dates of the host language *)

(** The values that reach [assert_length], [assert_fixed], the global
    switch and the text of an XML node. *)
Inductive value : Type :=
| VUndefined
| VNull
| VBool (b : bool)
| VInt (n : Z)
| VStr (s : jsstring).

Definition truthy (v : value) : bool :=
  match v with
  | VUndefined | VNull => false
  | VBool b => b
  | VInt n => negb (n =? 0)
  | VStr s => negb (jsstring_eqb s [])
  end.

(** String conversion, as done by [+] with a string operand. *)
Definition to_string (v : value) : jsstring :=
  match v with
  | VUndefined => str "undefined"
  | VNull => str "null"
  | VBool true => str "true"
  | VBool false => str "false"
  | VInt n => int_toString n
  | VStr s => s
  end.

(** Strict equality [===]. *)
Definition strict_eqb (a b : value) : bool :=
  match a, b with
  | VUndefined, VUndefined | VNull, VNull => true
  | VBool x, VBool y => Bool.eqb x y
  | VInt x, VInt y => x =? y
  | VStr x, VStr y => jsstring_eqb x y
  | _, _ => false
  end.

(** The [length] property: a string has one, a number or a boolean reads
    [undefined] (here [None]). On [null] and [undefined] the read throws;
    [assert_length] tests the value for truth before it reads. *)
Definition value_length (v : value) : option Z :=
  match v with
  | VStr s => Some (Z.of_nat (length s))
  | _ => None
  end.

(** A field of type string that may hold [null]. *)
Definition of_nullable (s : option jsstring) : value :=
  match s with Some x => VStr x | None => VNull end.

Definition nonempty (s : jsstring) : bool := negb (jsstring_eqb s []).

Definition nullable_truthy (s : option jsstring) : bool :=
  truthy (of_nullable s).

(** The double quote character. *)
Definition quote : jsstring := [34].

(** [Array.prototype.join]. *)
Fixpoint join (sep : jsstring) (l : list value) : jsstring :=
  match l with
  | [] => []
  | [v] => to_string v
  | v :: rest => to_string v ++ sep ++ join sep rest
  end.

(** [a.indexOf(b)] on strings, [-1] when [b] does not occur. *)
Fixpoint is_prefix (p s : jsstring) : bool :=
  match p, s with
  | [], _ => true
  | x :: p', y :: s' => (x =? y) && is_prefix p' s'
  | _ :: _, [] => false
  end.

Fixpoint indexOf_from (needle s : jsstring) (i : Z) : Z :=
  if is_prefix needle s then i
  else match s with
       | [] => -1
       | _ :: s' => indexOf_from needle s' (i + 1)
       end.

Definition indexOf (s needle : jsstring) : Z := indexOf_from needle s 0.

(** [s.split('.')]. *)
Fixpoint split_dot_aux (cur : jsstring) (s : jsstring) : list jsstring :=
  match s with
  | [] => [cur]
  | c :: rest =>
      if c =? 46 then cur :: split_dot_aux [] rest
      else split_dot_aux (cur ++ [c]) rest
  end.

Definition split_dot (s : jsstring) : list jsstring := split_dot_aux [] s.

(** Hexadecimal digits, for [parseInt] without a radix. *)
Definition hex_value (c : Z) : option Z :=
  if (48 <=? c) && (c <=? 57) then Some (c - 48)
  else if (65 <=? c) && (c <=? 70) then Some (c - 55)
  else if (97 <=? c) && (c <=? 102) then Some (c - 87)
  else None.

Fixpoint parse_hex (acc : option Z) (s : jsstring) : option Z :=
  match s with
  | c :: rest =>
      match hex_value c with
      | Some d =>
          parse_hex (Some (16 * match acc with Some a => a | None => 0 end + d))
                    rest
      | None => acc
      end
  | [] => acc
  end.

Definition parse_unsigned (s : jsstring) : option Z :=
  match s with
  | 48 :: 120 :: rest | 48 :: 88 :: rest => parse_hex None rest
  | _ => parse_digits None s
  end.

(** [parseInt(s)] with no radix: decimal, or hexadecimal after [0x]. *)
Definition parseInt_auto (s : jsstring) : option Z :=
  match trimStart s with
  | 45 :: rest => option_map Z.opp (parse_unsigned rest)
  | 43 :: rest => parse_unsigned rest
  | rest => parse_unsigned rest
  end.

(** A [Date] object holds a time value in milliseconds, or NaN. *)
Record Date : Type := mkDate { getTime : option Z }.

(** What the library uses of the arithmetic and the formatting of the host:
    the type of numbers (IEEE doubles in the host) with [+], [<], [==],
    [toString] and [toFixed(2)], the two amount bounds of
    [SepaTransaction.validate], and [Date.prototype.toISOString] on a valid
    time value. *)
Class Runtime : Type := {
  number : Type;
  num_of_int : Z -> number;
  NaN : number;
  num_add : number -> number -> number;
  num_lt : number -> number -> bool;
  num_eq : number -> number -> bool;
  num_toString : number -> jsstring;
  toFixed2 : number -> jsstring;
  amount_min : number;
  amount_max : number;
  time_toISOString : Z -> jsstring
}.

Definition num_gt {R : Runtime} (a b : number) : bool := num_lt b a.

Definition num_of_parse {R : Runtime} (p : option Z) : number :=
  match p with Some z => num_of_int z | None => NaN end.

(** [dt.toISOString()]: a TypeError on [null] or [undefined], a RangeError
    on an invalid date. *)
Definition toISOString {R : Runtime} (dt : option Date) : result jsstring :=
  match dt with
  | None => Throw TypeError
  | Some d =>
      match getTime d with
      | Some t => Ok (time_toISOString t)
      | None => Throw RangeError
      end
  end.

(** ** Process-wide configuration *)

Record Globals : Type := mkGlobals {
  ID_SEPARATOR : jsstring;
  VALIDATIONS_ENABLED : bool
}.

Definition initial_globals : Globals :=
  {| ID_SEPARATOR := str "."; VALIDATIONS_ENABLED := true |}.

Definition setIDSeparator (seperator : jsstring) (g : Globals) : Globals :=
  {| ID_SEPARATOR := seperator;
     VALIDATIONS_ENABLED := VALIDATIONS_ENABLED g |}.

Definition enableValidations (enabled : value) (g : Globals) : Globals :=
  {| ID_SEPARATOR := ID_SEPARATOR g;
     VALIDATIONS_ENABLED := truthy enabled |}.

Definition DEFAULT_PAIN_FORMAT : jsstring := str "pain.008.001.02".
Definition DEFAULT_XML_VERSION : jsstring := str "1.0".
Definition DEFAULT_XML_ENCODING : jsstring := str "UTF-8".
Definition XSI_NAMESPACE : jsstring :=
  str "http://www.w3.org/2001/XMLSchema-instance".
Definition XSI_NS : jsstring := str "urn:iso:std:iso:20022:tech:xsd:".

Definition SEPATypes : list (jsstring * jsstring) :=
  [ (str "pain.001.001.02", str "pain.001.001.02");
    (str "pain.001.003.02", str "pain.001.003.02");
    (str "pain.001.001.03", str "CstmrCdtTrfInitn");
    (str "pain.001.003.03", str "CstmrCdtTrfInitn");
    (str "pain.008.001.01", str "pain.008.001.01");
    (str "pain.008.003.01", str "pain.008.003.01");
    (str "pain.008.001.02", str "CstmrDrctDbtInitn");
    (str "pain.008.003.02", str "CstmrDrctDbtInitn") ].

Fixpoint lookup (table : list (jsstring * jsstring)) (key : jsstring)
  : option jsstring :=
  match table with
  | [] => None
  | (k, v) :: rest => if jsstring_eqb k key then Some v else lookup rest key
  end.

(** The schema version; [None] is NaN. *)
Definition getPainXMLVersion (painFormat : jsstring) : option Z :=
  let inc := if indexOf painFormat (str "pain.008") =? 0 then 1 else 0 in
  option_map (fun v => v + inc) (parseInt (substr painFormat (-2) None)).

(** [PaymentInfoTypes] and [TransactionTypes]: the two values that the
    constructors assign to [method] and to [_type], with their strings. *)
Inductive PaymentInfoTypes : Type := DirectDebit | Transfer.

Definition method_string (m : PaymentInfoTypes) : jsstring :=
  match m with DirectDebit => str "DD" | Transfer => str "TRF" end.

Inductive TransactionTypes : Type := DrctDbtTxInf | CdtTrfTxInf.

Definition type_string (ty : TransactionTypes) : jsstring :=
  match ty with
  | DrctDbtTxInf => str "DrctDbtTxInf"
  | CdtTrfTxInf => str "CdtTrfTxInf"
  end.

(** ** Validation engine *)

Definition assert (cond : bool) (msg : jsstring) : result unit :=
  if negb cond then Throw (Error msg) else Ok tt.

Definition assert_fixed (val : value) (choices : list value)
  (member : jsstring) : result unit :=
  if negb (existsb (strict_eqb val) choices)
  then Throw (Error (member ++ str " must have any value of: "
                       ++ join (str " ") choices
                       ++ str "(found: " ++ to_string val ++ str ")"))
  else Ok tt.

Definition bound_to_string (b : option Z) : jsstring :=
  match b with Some z => int_toString z | None => str "null" end.

(** [str.length < min], where an [undefined] length compares false. *)
Definition length_lt (v : value) (bound : Z) : bool :=
  match value_length v with Some l => l <? bound | None => false end.

Definition length_gt (v : value) (bound : Z) : bool :=
  match value_length v with Some l => bound <? l | None => false end.

Definition assert_length (str_ : value) (min max : option Z)
  (member : jsstring) : result unit :=
  if match min with
     | Some m => truthy str_ && length_lt str_ m
     | None => false
     end
     || match max with
        | Some m => truthy str_ && length_gt str_ m
        | None => false
        end
  then Throw (Error (member ++ str " has invalid string length, expected "
                       ++ bound_to_string min ++ str " < " ++ to_string str_
                       ++ str " < " ++ bound_to_string max))
  else Ok tt.

Definition assert_range {R : Runtime} (num min max : number)
  (member : jsstring) : result unit :=
  if num_lt num min || num_gt num max
  then Throw (Error (member ++ str " does not match range "
                       ++ num_toString min ++ str " < " ++ num_toString num
                       ++ str " < " ++ num_toString max))
  else Ok tt.

Definition assert_iban (s member : jsstring) : result unit :=
  if negb (validateIBAN s)
  then Throw (Error (member ++ str " has invalid IBAN " ++ quote ++ s ++ quote))
  else Ok tt.

Definition assert_name (s member : jsstring) : result unit :=
  if negb (nonempty s) || negb (0 <? Z.of_nat (length (trim s)))
  then Throw (Error (member ++ str " has invalid name: " ++ quote ++ s ++ quote))
  else Ok tt.

Definition assert_cid (s member : jsstring) : result unit :=
  if negb (validateCreditorID s)
  then Throw (Error (member ++ str " is invalid " ++ quote ++ s ++ quote))
  else Ok tt.

Definition date_to_string (dt : option Date) : jsstring :=
  match dt with None => str "null" | Some _ => str "Invalid Date" end.

Definition assert_date (dt : option Date) (member : jsstring) : result unit :=
  match dt with
  | Some {| getTime := Some _ |} => Ok tt
  | _ => Throw (Error (member ++ str " has invalid date " ++ date_to_string dt))
  end.

(** The character class [[A-Za-z0-9]|[+|?|/|\-|:|(|)|.|,|'| ]] of the first
    identifier pattern, and the same without the space for the second. *)
Definition in_sepa_set2 (c : Z) : bool :=
  ((65 <=? c) && (c <=? 90)) || ((97 <=? c) && (c <=? 122))
  || ((48 <=? c) && (c <=? 57))
  || existsb (Z.eqb c) [43; 124; 63; 47; 45; 58; 40; 41; 46; 44; 39].

Definition in_sepa_set1 (c : Z) : bool := in_sepa_set2 c || (c =? 32).

Fixpoint take_while (p : Z -> bool) (s : jsstring) : jsstring :=
  match s with
  | c :: rest => if p c then c :: take_while p rest else []
  | [] => []
  end.

(** [str.match(/(C){1,35}/)] for a character class [C]: the pattern has no
    anchor, so the search tries every start index and returns the first
    run of one to 35 characters of the class; [None] is [null]. *)
Fixpoint match_class_run (cls : Z -> bool) (s : jsstring) : option jsstring :=
  match s with
  | [] => None
  | c :: rest =>
      if cls c then Some (firstn 35 (take_while cls s))
      else match_class_run cls rest
  end.

Definition is_null {A} (o : option A) : bool :=
  match o with None => true | Some _ => false end.

Definition assert_sepa_id_set1 (s member : jsstring) : result unit :=
  if nonempty s && is_null (match_class_run in_sepa_set1 s)
  then Throw (Error (member ++ str " doesn't match sepa id charset type 1 (found: "
                       ++ quote ++ s ++ quote ++ str ")"))
  else Ok tt.

Definition assert_sepa_id_set2 (s member : jsstring) : result unit :=
  if nonempty s && is_null (match_class_run in_sepa_set2 s)
  then Throw (Error (member ++ str " doesn't match sepa id charset type 2 (found: "
                       ++ quote ++ s ++ quote ++ str ")"))
  else Ok tt.

(** The argument object of [assert_debitor]. *)
Record Debitor : Type := mkDebitor {
  name : jsstring;
  street : option jsstring;
  city : option jsstring;
  country : option jsstring;
  iban : jsstring;
  bic : jsstring;
  pullFrom : jsstring
}.

Definition too_long (s : option jsstring) (max : Z) : bool :=
  match s with
  | Some x => nonempty x && (max <? Z.of_nat (length x))
  | None => false
  end.

(** The third [try] block of [assert_debitor]. *)
Definition assert_iban_bic (d : Debitor) (message : jsstring) : result unit :=
  assert_iban (iban d) (pullFrom d ++ str "IBAN") ;;
  assert_fixed (VInt (Z.of_nat (length (bic d)))) [VInt 0; VInt 8; VInt 11]
               (pullFrom d ++ str "BIC") ;;
  let countryMatches :=
    (Z.of_nat (length (bic d)) =? 0)
    || jsstring_eqb (substr (bic d) 4 (Some 2)) (substr (iban d) 0 (Some 2)) in
  assert countryMatches message.

Definition invalid_name_message (d : Debitor) : jsstring :=
  pullFrom d ++ str " has invalid name: " ++ quote ++ name d ++ quote.

Definition country_mismatch_message (d : Debitor) : jsstring :=
  str "country mismatch in BIC/IBAN for " ++ pullFrom d ++ str " called "
  ++ name d ++ str " with BIC: " ++ bic d ++ str " and IBAN: " ++ iban d.

(** [assert_debitor]: the pair threaded through the checks is
    [(invalidFields, message)]. *)
Definition assert_debitor (d : Debitor) : result unit :=
  let st0 : list jsstring * jsstring := ([], []) in
  let st1 :=
    if too_long (Some (name d)) 70
    then (fst st0 ++ [str "name"], str "debitor name is too long.")
    else st0 in
  let st2 :=
    if too_long (street d) 70
    then (fst st1 ++ [str "street"], str "debitor street is too long.")
    else st1 in
  let st3 :=
    if too_long (city d) 70
    then (fst st2 ++ [str "city"], str "debitor city is too long.")
    else st2 in
  let st4 :=
    if too_long (country d) 2
    then (fst st3 ++ [str "country"], str "debitor country is too long.")
    else st3 in
  let st5 :=
    match assert_name (name d) (pullFrom d) with
    | Ok _ => st4
    | Throw _ => (fst st4 ++ [pullFrom d ++ str "Name"], invalid_name_message d)
    end in
  let st6 :=
    match assert_name (name d) (pullFrom d) with
    | Ok _ => st5
    | Throw _ => (fst st5 ++ [pullFrom d ++ str "Name"], invalid_name_message d)
    end in
  let st7 :=
    match assert_iban_bic d (snd st6) with
    | Ok _ => st6
    | Throw _ => (fst st6 ++ [str "IBAN/BIC"], country_mismatch_message d)
    end in
  if 0 <? Z.of_nat (length (fst st7))
  then Throw (InvalidSupplierError (name d) (fst st7) (snd st7))
  else Ok tt.

(** ** XML trees *)

(** The DOM is an external service; of an element the library sets the tag
    name, attributes, the text content and the children, all in the
    namespace of the document. *)
#[local] Set Warnings "-register-all".
Inductive Element : Type :=
| mkElement (tagName : jsstring) (attributes : list (jsstring * jsstring))
            (textContent : option value) (childNodes : list Element).

Definition tagName (e : Element) : jsstring :=
  match e with mkElement t _ _ _ => t end.
Definition attributes (e : Element) : list (jsstring * jsstring) :=
  match e with mkElement _ a _ _ => a end.
Definition textContent (e : Element) : option value :=
  match e with mkElement _ _ t _ => t end.
Definition childNodes (e : Element) : list Element :=
  match e with mkElement _ _ _ c => c end.

Definition createElement (qname : jsstring) : Element :=
  mkElement qname [] None [].

Definition appendChild (parent child : Element) : Element :=
  mkElement (tagName parent) (attributes parent) (textContent parent)
            (childNodes parent ++ [child]).

Definition setTextContent (val : value) (node : Element) : Element :=
  mkElement (tagName node) (attributes node) (Some val) (childNodes node).

Definition setAttribute (key val : jsstring) (node : Element) : Element :=
  mkElement (tagName node) (attributes node ++ [(key, val)])
            (textContent node) (childNodes node).

Record XMLDocument : Type := mkXMLDocument {
  namespaceURI : jsstring;
  xmlVersion : jsstring;
  xmlEncoding : jsstring;
  documentElement : Element
}.

(** The loop of the helper: the elements [names] nested in one another
    under [node]; [body] is what happens to the innermost one, which the
    helper returns to its caller. *)
Fixpoint build_chain (names : list jsstring) (body : Element -> Element)
  (node : Element) : Element :=
  match names with
  | [] => body node
  | qname :: rest =>
      appendChild node (build_chain rest body (createElement qname))
  end.

(** [createXMLHelper(doc, required, withVal)(node, ...names, last)], as a
    function from the parent [node] to the parent with the new chain
    below it. [last] is the final argument, read as the value when
    [withVal]; [k] is what the caller does afterwards with the node the
    helper returns. *)
Definition createXMLHelper (required withVal : bool) (node : Element)
  (names : list jsstring) (last : value) (k : Element -> Element) : Element :=
  let val := if withVal then last else VBool false in
  if required || truthy val || strict_eqb val (VInt 0)
  then build_chain names
         (fun inner => k (if withVal then setTextContent val inner else inner))
         node
  else node.

(** The three helpers of the render methods. *)
Definition r_ (node : Element) (names : list jsstring) (val : value) : Element :=
  createXMLHelper true true node names val (fun e => e).
Definition o_ (node : Element) (names : list jsstring) (val : value) : Element :=
  createXMLHelper false true node names val (fun e => e).
Definition n_ (node : Element) (names : list jsstring)
  (k : Element -> Element) : Element :=
  createXMLHelper true false node names VUndefined k.

Definition has_child (qname : jsstring) (e : Element) : bool :=
  existsb (fun c => jsstring_eqb (tagName c) qname) (childNodes e).

(** The elements of a tree, the root first. *)
Fixpoint descendants (e : Element) : list Element :=
  match e with
  | mkElement _ _ _ cs => e :: flat_map descendants cs
  end.

Definition bool_toString (b : bool) : jsstring := to_string (VBool b).

(** ** Entity model

    The entities are records, handled by value: an operation that assigns
    to a field of [this] or of its argument returns the record with the
    new field, and [addPaymentInfo] and [addTransaction] store the child as
    they leave it. Their [instanceof] test on the argument is the type of
    the argument here. *)

Module SepaTransaction.

Record t {R : Runtime} : Type := mk {
  _painFormat : jsstring;
  _type : TransactionTypes;
  id : jsstring;
  end2endId : jsstring;
  currency : jsstring;
  amount : number;
  ammendment : jsstring;
  purposeCode : option jsstring;
  mandateId : jsstring;
  mandateSignatureDate : option Date;
  debtorName : jsstring;
  debtorStreet : option jsstring;
  debtorCity : option jsstring;
  debtorCountry : option jsstring;
  debtorIBAN : jsstring;
  debtorBIC : jsstring;
  remittanceInfo : jsstring;
  creditorName : jsstring;
  creditorStreet : option jsstring;
  creditorCity : option jsstring;
  creditorCountry : option jsstring;
  creditorIBAN : jsstring;
  creditorBIC : jsstring;
  overrideReference : option jsstring
}.

(** [new SepaTransaction(painFormat)]. *)
Definition new {R : Runtime} (painFormat : jsstring) : t :=
  {| _painFormat := painFormat;
     _type := if indexOf painFormat (str "pain.001") =? 0
              then CdtTrfTxInf else DrctDbtTxInf;
     id := []; end2endId := []; currency := str "EUR";
     amount := num_of_int 0; ammendment := []; purposeCode := None;
     mandateId := []; mandateSignatureDate := None;
     debtorName := []; debtorStreet := None; debtorCity := None;
     debtorCountry := None; debtorIBAN := []; debtorBIC := [];
     remittanceInfo := [];
     creditorName := []; creditorStreet := None; creditorCity := None;
     creditorCountry := None; creditorIBAN := []; creditorBIC := [];
     overrideReference := None |}.

Definition set_id {R : Runtime} (x : t) (v : jsstring) : t :=
  {| _painFormat := _painFormat x; _type := _type x; id := v;
     end2endId := end2endId x; currency := currency x; amount := amount x;
     ammendment := ammendment x; purposeCode := purposeCode x;
     mandateId := mandateId x;
     mandateSignatureDate := mandateSignatureDate x;
     debtorName := debtorName x; debtorStreet := debtorStreet x;
     debtorCity := debtorCity x; debtorCountry := debtorCountry x;
     debtorIBAN := debtorIBAN x; debtorBIC := debtorBIC x;
     remittanceInfo := remittanceInfo x;
     creditorName := creditorName x; creditorStreet := creditorStreet x;
     creditorCity := creditorCity x; creditorCountry := creditorCountry x;
     creditorIBAN := creditorIBAN x; creditorBIC := creditorBIC x;
     overrideReference := overrideReference x |}.

(** [this._type === TransactionTypes.Transfer]; its negation is
    [this._type === TransactionTypes.DirectDebit]. *)
Definition is_transfer {R : Runtime} (x : t) : bool :=
  match _type x with CdtTrfTxInf => true | DrctDbtTxInf => false end.

(** [pullFrom] and the fields [this[pullFrom + '...']]. *)
Definition pull_from {R : Runtime} (x : t) : jsstring :=
  if is_transfer x then str "creditor" else str "debtor".
Definition pullName {R : Runtime} (x : t) : jsstring :=
  if is_transfer x then creditorName x else debtorName x.
Definition pullStreet {R : Runtime} (x : t) : option jsstring :=
  if is_transfer x then creditorStreet x else debtorStreet x.
Definition pullCity {R : Runtime} (x : t) : option jsstring :=
  if is_transfer x then creditorCity x else debtorCity x.
Definition pullCountry {R : Runtime} (x : t) : option jsstring :=
  if is_transfer x then creditorCountry x else debtorCountry x.
Definition pullIBAN {R : Runtime} (x : t) : jsstring :=
  if is_transfer x then creditorIBAN x else debtorIBAN x.
Definition pullBIC {R : Runtime} (x : t) : jsstring :=
  if is_transfer x then creditorBIC x else debtorBIC x.

(** The check of the fractional digits of the amount. *)
Definition assert_fraction {R : Runtime} (x : t) : result unit :=
  if negb (num_eq (num_of_parse (parseInt_auto (num_toString (amount x))))
                  (amount x))
  then match nth_error (split_dot (num_toString (amount x))) 1 with
       | Some frac =>
           assert (Z.of_nat (length frac) <=? 2)
                  (str "amount has too many fractional digits")
       | None => Throw TypeError
       end
  else Ok tt.

Definition validate {R : Runtime} (x : t) : result unit :=
  assert_sepa_id_set1 (end2endId x) (str "end2endId") ;;
  assert_range (amount x) amount_min amount_max (str "amount") ;;
  assert_fraction x ;;
  assert_length (of_nullable (purposeCode x)) (Some 1) (Some 4)
                (str "purposeCode") ;;
  assert_sepa_id_set2 (mandateId x) (str "mandateId") ;;
  assert_date (mandateSignatureDate x) (str "mandateSignatureDate") ;;
  assert_debitor {| name := pullName x; street := pullStreet x;
                    city := pullCity x; country := pullCountry x;
                    iban := pullIBAN x; bic := pullBIC x;
                    pullFrom := pull_from x |} ;;
  assert_length (VStr (remittanceInfo x)) None (Some 140)
                (str "remittanceInfo").

Definition toXML {R : Runtime} (g : Globals) (x : t) : result Element :=
  (if VALIDATIONS_ENABLED g then validate x else Ok tt) ;;
  let recieverNodeName :=
    if is_transfer x then str "Cdtr" else str "Dbtr" in
  let txInf := createElement (type_string (_type x)) in
  let txInf :=
    n_ txInf [str "PmtId"] (fun paymentId =>
      let paymentId := r_ paymentId [str "InstrId"] (VStr (id x)) in
      r_ paymentId [str "EndToEndId"] (VStr (end2endId x))) in
  txInf <-
    (if negb (is_transfer x)
     then
       let txInf :=
         createXMLHelper true true txInf [str "InstdAmt"]
           (VStr (toFixed2 (amount x))) (setAttribute (str "Ccy") (currency x)) in
       signed <- toISOString (mandateSignatureDate x) ;;
       Ok (n_ txInf [str "DrctDbtTx"; str "MndtRltdInf"] (fun mandate =>
             let mandate := r_ mandate [str "MndtId"] (VStr (mandateId x)) in
             let mandate :=
               r_ mandate [str "DtOfSgntr"] (VStr (substr signed 0 (Some 10))) in
             if nonempty (ammendment x)
             then
               let mandate := r_ mandate [str "AmdmntInd"] (VStr (str "true")) in
               r_ mandate [str "AmdmnInfDtls"] (VStr (ammendment x))
             else r_ mandate [str "AmdmntInd"] (VStr (str "false"))))
     else
       Ok (createXMLHelper true true txInf [str "Amt"; str "InstdAmt"]
             (VStr (toFixed2 (amount x)))
             (setAttribute (str "Ccy") (currency x)))) ;;
  let txInf :=
    if nonempty (pullBIC x)
    then r_ txInf [recieverNodeName ++ str "Agt"; str "FinInstnId"; str "BIC"]
            (VStr (pullBIC x))
    else r_ txInf [recieverNodeName ++ str "Agt"; str "FinInstnId";
                   str "Othr"; str "Id"] (VStr (str "NOTPROVIDED")) in
  let txInf :=
    n_ txInf [recieverNodeName] (fun reciever =>
      let reciever := r_ reciever [str "Nm"] (VStr (pullName x)) in
      if nullable_truthy (pullStreet x) && nullable_truthy (pullCity x)
         && nullable_truthy (pullCountry x)
      then
        n_ reciever [str "PstlAdr"] (fun pstl =>
          let pstl := r_ pstl [str "Ctry"] (of_nullable (debtorCountry x)) in
          let pstl := r_ pstl [str "AdrLine"] (of_nullable (debtorStreet x)) in
          r_ pstl [str "AdrLine"] (of_nullable (debtorCity x)))
      else reciever) in
  let txInf :=
    r_ txInf [recieverNodeName ++ str "Acct"; str "Id"; str "IBAN"]
       (VStr (pullIBAN x)) in
  let txInf :=
    r_ txInf [str "RmtInf"; str "Ustrd"] (VStr (remittanceInfo x)) in
  let txInf :=
    o_ txInf [str "Purp"; str "Cd"] (of_nullable (purposeCode x)) in
  Ok txInf.

End SepaTransaction.

Module SepaPaymentInfo.

Record t {R : Runtime} : Type := mk {
  _painFormat : jsstring;
  _payments : list SepaTransaction.t;
  id : jsstring;
  method : PaymentInfoTypes;
  batchBooking : bool;
  grouping : jsstring;
  controlSum : number;
  localInstrumentation : jsstring;
  sequenceType : jsstring;
  collectionDate : option Date;
  requestedExecutionDate : option Date;
  creditorId : jsstring;
  creditorName : jsstring;
  creditorStreet : option jsstring;
  creditorCity : option jsstring;
  creditorCountry : option jsstring;
  creditorIBAN : jsstring;
  creditorBIC : jsstring;
  creditorMemberId : jsstring;
  debtorId : jsstring;
  debtorName : jsstring;
  debtorStreet : option jsstring;
  debtorCity : option jsstring;
  debtorCountry : option jsstring;
  debtorIBAN : jsstring;
  debtorBIC : jsstring;
  debtorMemberId : jsstring;
  instructionPriority : jsstring;
  categoryPurpose : jsstring;
  overrideReference : jsstring
}.

(** [new SepaPaymentInfo(painFormat)]. *)
Definition new {R : Runtime} (painFormat : jsstring) : t :=
  {| _painFormat := painFormat; _payments := []; id := [];
     method := if indexOf painFormat (str "pain.001") =? 0
               then Transfer else DirectDebit;
     batchBooking := false; grouping := str "MIXD";
     controlSum := num_of_int 0;
     localInstrumentation := str "CORE"; sequenceType := str "FRST";
     collectionDate := None; requestedExecutionDate := None;
     creditorId := []; creditorName := []; creditorStreet := None;
     creditorCity := None; creditorCountry := None; creditorIBAN := [];
     creditorBIC := []; creditorMemberId := [];
     debtorId := []; debtorName := []; debtorStreet := None;
     debtorCity := None; debtorCountry := None; debtorIBAN := [];
     debtorBIC := []; debtorMemberId := [];
     instructionPriority := str "NORM"; categoryPurpose := [];
     overrideReference := [] |}.

(** The assignments [this.id = ...], [this.controlSum = ...] and the
    update of [this._payments]. *)
Definition update {R : Runtime} (x : t) (id' : jsstring)
  (payments' : list SepaTransaction.t) (controlSum' : number) : t :=
  {| _painFormat := _painFormat x; _payments := payments'; id := id';
     method := method x; batchBooking := batchBooking x;
     grouping := grouping x; controlSum := controlSum';
     localInstrumentation := localInstrumentation x;
     sequenceType := sequenceType x; collectionDate := collectionDate x;
     requestedExecutionDate := requestedExecutionDate x;
     creditorId := creditorId x; creditorName := creditorName x;
     creditorStreet := creditorStreet x; creditorCity := creditorCity x;
     creditorCountry := creditorCountry x; creditorIBAN := creditorIBAN x;
     creditorBIC := creditorBIC x; creditorMemberId := creditorMemberId x;
     debtorId := debtorId x; debtorName := debtorName x;
     debtorStreet := debtorStreet x; debtorCity := debtorCity x;
     debtorCountry := debtorCountry x; debtorIBAN := debtorIBAN x;
     debtorBIC := debtorBIC x; debtorMemberId := debtorMemberId x;
     instructionPriority := instructionPriority x;
     categoryPurpose := categoryPurpose x;
     overrideReference := overrideReference x |}.

(** The getter [transactionCount]. *)
Definition transactionCount {R : Runtime} (x : t) : Z :=
  Z.of_nat (length (_payments x)).

Definition normalize {R : Runtime} (x : t) : t :=
  let controlSum' :=
    fold_left (fun acc pmt => num_add acc (SepaTransaction.amount pmt))
              (_payments x) (num_of_int 0) in
  update x (id x) (_payments x) controlSum'.

(** [addTransaction(pmt)]; the transaction that is stored carries the id
    assigned here. *)
Definition addTransaction {R : Runtime} (g : Globals) (x : t)
  (pmt : SepaTransaction.t) : t :=
  let id' :=
    if nullable_truthy (SepaTransaction.overrideReference pmt)
    then to_string (of_nullable (SepaTransaction.overrideReference pmt))
    else if nonempty (SepaTransaction.id pmt)
    then id x ++ ID_SEPARATOR g ++ SepaTransaction.id pmt
    else id x ++ ID_SEPARATOR g
         ++ int_toString (Z.of_nat (length (_payments x))) in
  update x (id x) (_payments x ++ [SepaTransaction.set_id pmt id'])
         (controlSum x).

Definition createTransaction {R : Runtime} (x : t) : SepaTransaction.t :=
  SepaTransaction.new (_painFormat x).

(** [this.method === PaymentInfoTypes.DirectDebit]. *)
Definition is_direct_debit {R : Runtime} (x : t) : bool :=
  match method x with DirectDebit => true | Transfer => false end.

(** [pullFrom] and the fields [this[pullFrom + '...']]. *)
Definition pull_from {R : Runtime} (x : t) : jsstring :=
  if is_direct_debit x then str "creditor" else str "debtor".
Definition pullId {R : Runtime} (x : t) : jsstring :=
  if is_direct_debit x then creditorId x else debtorId x.
Definition pullName {R : Runtime} (x : t) : jsstring :=
  if is_direct_debit x then creditorName x else debtorName x.
Definition pullStreet {R : Runtime} (x : t) : option jsstring :=
  if is_direct_debit x then creditorStreet x else debtorStreet x.
Definition pullCity {R : Runtime} (x : t) : option jsstring :=
  if is_direct_debit x then creditorCity x else debtorCity x.
Definition pullCountry {R : Runtime} (x : t) : option jsstring :=
  if is_direct_debit x then creditorCountry x else debtorCountry x.
Definition pullIBAN {R : Runtime} (x : t) : jsstring :=
  if is_direct_debit x then creditorIBAN x else debtorIBAN x.
Definition pullBIC {R : Runtime} (x : t) : jsstring :=
  if is_direct_debit x then creditorBIC x else debtorBIC x.
Definition pullMemberId {R : Runtime} (x : t) : jsstring :=
  if is_direct_debit x then creditorMemberId x else debtorMemberId x.

Definition validate {R : Runtime} (x : t) : result unit :=
  assert_fixed (VStr (localInstrumentation x))
    [VStr (str "CORE"); VStr (str "COR1"); VStr (str "B2B")]
    (str "localInstrumentation") ;;
  assert_fixed (VStr (sequenceType x))
    [VStr (str "FRST"); VStr (str "RCUR"); VStr (str "OOFF");
     VStr (str "FNAL")]
    (str "sequenceType") ;;
  (if is_direct_debit x
   then assert_date (collectionDate x) (str "collectionDate")
   else assert_date (requestedExecutionDate x)
                    (str "requestedExecutionDate")) ;;
  assert_cid (pullId x) (pull_from x ++ str "Id") ;;
  assert_debitor {| name := pullName x; street := pullStreet x;
                    city := pullCity x; country := pullCountry x;
                    iban := pullIBAN x; bic := pullBIC x;
                    pullFrom := pull_from x |} ;;
  assert_length (VInt (Z.of_nat (length (_payments x)))) (Some 1) None
                (str "_payments").

(** The loop that appends the rendering of each transaction. *)
Fixpoint append_transactions {R : Runtime} (g : Globals) (pmtInf : Element)
  (payments : list SepaTransaction.t) : result Element :=
  match payments with
  | [] => Ok pmtInf
  | pmt :: rest =>
      txInf <- SepaTransaction.toXML g pmt ;;
      append_transactions g (appendChild pmtInf txInf) rest
  end.

Definition toXML {R : Runtime} (g : Globals) (x : t) : result Element :=
  (if VALIDATIONS_ENABLED g then validate x else Ok tt) ;;
  let pmtInf := createElement (str "PmtInf") in
  let pmtInf := r_ pmtInf [str "PmtInfId"] (VStr (id x)) in
  let pmtInf := r_ pmtInf [str "PmtMtd"] (VStr (method_string (method x))) in
  let pmtInf :=
    if num_is (getPainXMLVersion (_painFormat x)) 3
    then
      let pmtInf :=
        r_ pmtInf [str "BtchBookg"] (VStr (bool_toString (batchBooking x))) in
      let pmtInf := r_ pmtInf [str "NbOfTxs"] (VInt (transactionCount x)) in
      r_ pmtInf [str "CtrlSum"] (VStr (toFixed2 (controlSum x)))
    else pmtInf in
  let pmtInf :=
    n_ pmtInf [str "PmtTpInf"] (fun pmtTpInf =>
      let pmtTpInf :=
        r_ pmtTpInf [str "InstrPrty"] (VStr (instructionPriority x)) in
      let pmtTpInf :=
        r_ pmtTpInf [str "SvcLvl"; str "Cd"] (VStr (str "SEPA")) in
      let pmtTpInf :=
        if nonempty (categoryPurpose x)
        then r_ pmtTpInf [str "CtgyPurp"; str "Cd"] (VStr (categoryPurpose x))
        else pmtTpInf in
      if is_direct_debit x
      then
        let pmtTpInf :=
          r_ pmtTpInf [str "LclInstrm"; str "Cd"]
             (VStr (localInstrumentation x)) in
        r_ pmtTpInf [str "SeqTp"] (VStr (sequenceType x))
      else pmtTpInf) in
  pmtInf <-
    (if is_direct_debit x
     then
       dt <- toISOString (collectionDate x) ;;
       Ok (r_ pmtInf [str "ReqdColltnDt"] (VStr (substr dt 0 (Some 10))))
     else
       dt <- toISOString (requestedExecutionDate x) ;;
       Ok (r_ pmtInf [str "ReqdExctnDt"] (VStr (substr dt 0 (Some 10))))) ;;
  let emitterNodeName :=
    if is_direct_debit x then str "Cdtr" else str "Dbtr" in
  let pmtInf :=
    n_ pmtInf [emitterNodeName] (fun emitter =>
      let emitter := r_ emitter [str "Nm"] (VStr (pullName x)) in
      if nullable_truthy (pullStreet x) && nullable_truthy (pullCity x)
         && nullable_truthy (pullCountry x)
      then
        n_ emitter [str "PstlAdr"] (fun pstl =>
          let pstl := r_ pstl [str "Ctry"] (of_nullable (pullCountry x)) in
          let pstl := r_ pstl [str "AdrLine"] (of_nullable (pullStreet x)) in
          r_ pstl [str "AdrLine"] (of_nullable (pullCity x)))
      else emitter) in
  let pmtInf :=
    r_ pmtInf [emitterNodeName ++ str "Acct"; str "Id"; str "IBAN"]
       (VStr (pullIBAN x)) in
  let pmtInf :=
    if nonempty (pullBIC x)
    then
      n_ pmtInf [emitterNodeName ++ str "Agt"; str "FinInstnId"]
         (fun finInstnId =>
            let finInstnId := r_ finInstnId [str "BIC"] (VStr (pullBIC x)) in
            if nonempty (pullMemberId x)
            then r_ finInstnId [str "ClrSysMmbId"; str "MmbId"]
                    (VStr (pullMemberId x))
            else finInstnId)
    else
      r_ pmtInf [emitterNodeName ++ str "Agt"; str "FinInstnId"; str "Othr";
                 str "Id"] (VStr (str "NOTPROVIDED")) in
  let pmtInf := r_ pmtInf [str "ChrgBr"] (VStr (str "SLEV")) in
  let pmtInf :=
    if is_direct_debit x
    then
      n_ pmtInf [str "CdtrSchmeId"; str "Id"; str "PrvtId"; str "Othr"]
         (fun creditorScheme =>
            let creditorScheme :=
              r_ creditorScheme [str "Id"] (VStr (creditorId x)) in
            r_ creditorScheme [str "SchmeNm"; str "Prtry"] (VStr (str "SEPA")))
    else pmtInf in
  append_transactions g pmtInf (_payments x).

End SepaPaymentInfo.

Module SepaGroupHeader.

Record t {R : Runtime} : Type := mk {
  _painFormat : jsstring;
  id : jsstring;
  created : option Date;
  transactionCount : Z;
  initiatorName : jsstring;
  cifNumber : jsstring;
  cucNumber : jsstring;
  controlSum : number;
  batchBooking : bool;
  grouping : jsstring
}.

(** [new SepaGroupHeader(painFormat)]; [created] starts [undefined]. *)
Definition new {R : Runtime} (painFormat : jsstring) : t :=
  {| _painFormat := painFormat; id := []; created := None;
     transactionCount := 0; initiatorName := []; cifNumber := [];
     cucNumber := []; controlSum := num_of_int 0; batchBooking := false;
     grouping := str "MIXD" |}.

(** The two assignments of [SepaDocument.normalize]. *)
Definition set_totals {R : Runtime} (x : t) (controlSum' : number)
  (transactionCount' : Z) : t :=
  {| _painFormat := _painFormat x; id := id x; created := created x;
     transactionCount := transactionCount'; initiatorName := initiatorName x;
     cifNumber := cifNumber x; cucNumber := cucNumber x;
     controlSum := controlSum'; batchBooking := batchBooking x;
     grouping := grouping x |}.

Definition toXML {R : Runtime} (x : t) : result Element :=
  let grpHdr := createElement (str "GrpHdr") in
  let painVersion := getPainXMLVersion (_painFormat x) in
  let grpHdr := r_ grpHdr [str "MsgId"] (VStr (id x)) in
  creDtTm <- toISOString (created x) ;;
  let grpHdr := r_ grpHdr [str "CreDtTm"] (VStr creDtTm) in
  let grpHdr :=
    if num_is painVersion 2
    then r_ grpHdr [str "BtchBookg"] (VStr (bool_toString (batchBooking x)))
    else grpHdr in
  let grpHdr := r_ grpHdr [str "NbOfTxs"] (VInt (transactionCount x)) in
  let grpHdr := r_ grpHdr [str "CtrlSum"] (VStr (toFixed2 (controlSum x))) in
  let grpHdr :=
    if num_is painVersion 2
    then r_ grpHdr [str "Grpg"] (VStr (grouping x))
    else grpHdr in
  let grpHdr :=
    n_ grpHdr [str "InitgPty"] (fun initgPty =>
      let initgPty := r_ initgPty [str "Nm"] (VStr (initiatorName x)) in
      let initgPty :=
        if nonempty (cifNumber x)
        then r_ initgPty [str "Id"; str "OrgId"; str "Othr"; str "Id"]
                (VStr (cifNumber x))
        else initgPty in
      if nonempty (cucNumber x)
      then
        n_ initgPty [str "Id"; str "OrgId"; str "Othr"] (fun other =>
          let other := r_ other [str "Id"] (VStr (cucNumber x)) in
          r_ other [str "Issr"] (VStr (str "CBI")))
      else initgPty) in
  Ok grpHdr.

End SepaGroupHeader.

Module SepaDocument.

Record t {R : Runtime} : Type := mk {
  _painFormat : jsstring;
  _type : option jsstring;
  _paymentInfo : list SepaPaymentInfo.t;
  _xmlVersion : jsstring;
  _xmlEncoding : jsstring;
  grpHdr : SepaGroupHeader.t
}.

(** [new SepaDocument(painFormat)]; the argument may be left out. *)
Definition new {R : Runtime} (painFormat : option jsstring) : t :=
  let fmt := if nullable_truthy painFormat
             then to_string (of_nullable painFormat)
             else DEFAULT_PAIN_FORMAT in
  {| _painFormat := fmt; _type := lookup SEPATypes fmt; _paymentInfo := [];
     _xmlVersion := DEFAULT_XML_VERSION; _xmlEncoding := DEFAULT_XML_ENCODING;
     grpHdr := SepaGroupHeader.new fmt |}.

Definition update {R : Runtime} (x : t)
  (paymentInfo' : list SepaPaymentInfo.t) (grpHdr' : SepaGroupHeader.t) : t :=
  {| _painFormat := _painFormat x; _type := _type x;
     _paymentInfo := paymentInfo'; _xmlVersion := _xmlVersion x;
     _xmlEncoding := _xmlEncoding x; grpHdr := grpHdr' |}.

(** [addPaymentInfo(pi)]; the block that is stored carries the id assigned
    here. *)
Definition addPaymentInfo {R : Runtime} (g : Globals) (x : t)
  (pi : SepaPaymentInfo.t) : t :=
  let id' :=
    if nonempty (SepaPaymentInfo.overrideReference pi)
    then SepaPaymentInfo.overrideReference pi
    else if nonempty (SepaPaymentInfo.id pi)
    then SepaGroupHeader.id (grpHdr x) ++ ID_SEPARATOR g
         ++ SepaPaymentInfo.id pi
    else SepaGroupHeader.id (grpHdr x) ++ ID_SEPARATOR g
         ++ int_toString (Z.of_nat (length (_paymentInfo x))) in
  update x
    (_paymentInfo x
     ++ [SepaPaymentInfo.update pi id' (SepaPaymentInfo._payments pi)
                                (SepaPaymentInfo.controlSum pi)])
    (grpHdr x).

Definition createPaymentInfo {R : Runtime} (x : t) : SepaPaymentInfo.t :=
  SepaPaymentInfo.new (_painFormat x).

(** One iteration of the loop of [normalize]: the state is the blocks
    normalized so far with the two running totals. *)
Definition normalize_step {R : Runtime}
  (st : list SepaPaymentInfo.t * number * Z) (pi : SepaPaymentInfo.t)
  : list SepaPaymentInfo.t * number * Z :=
  let '(done, controlSum, txCount) := st in
  let pi' := SepaPaymentInfo.normalize pi in
  (done ++ [pi'],
   num_add controlSum (SepaPaymentInfo.controlSum pi'),
   txCount + SepaPaymentInfo.transactionCount pi').

Definition normalize {R : Runtime} (x : t) : t :=
  let '(paymentInfo', controlSum, txCount) :=
    fold_left normalize_step (_paymentInfo x) ([], num_of_int 0, 0) in
  update x paymentInfo' (SepaGroupHeader.set_totals (grpHdr x) controlSum txCount).

Fixpoint append_payment_infos {R : Runtime} (g : Globals)
  (rootElement : Element) (blocks : list SepaPaymentInfo.t) : result Element :=
  match blocks with
  | [] => Ok rootElement
  | pi :: rest =>
      pmtInf <- SepaPaymentInfo.toXML g pi ;;
      append_payment_infos g (appendChild rootElement pmtInf) rest
  end.

(** [toXML()]: the document as [normalize] leaves it, and the DOM document
    or the exception. *)
Definition toXML {R : Runtime} (g : Globals) (x : t)
  : t * result XMLDocument :=
  let x := normalize x in
  let docNS := XSI_NS ++ _painFormat x in
  let body := createElement (str "Document") in
  let body := setAttribute (str "xmlns:xsi") XSI_NAMESPACE body in
  let body :=
    setAttribute (str "xsi:schemaLocation")
      (XSI_NS ++ _painFormat x ++ str " " ++ _painFormat x ++ str ".xsd")
      body in
  (x,
   match _type x with
   | None =>
       (* [createElementNS] of xmldom on an [undefined] name *)
       Throw TypeError
   | Some type_ =>
       let rootElement := createElement type_ in
       grpHdrNode <- SepaGroupHeader.toXML (grpHdr x) ;;
       let rootElement := appendChild rootElement grpHdrNode in
       rootElement <- append_payment_infos g rootElement (_paymentInfo x) ;;
       Ok {| namespaceURI := docNS; xmlVersion := _xmlVersion x;
             xmlEncoding := _xmlEncoding x;
             documentElement := appendChild body rootElement |}
   end).

End SepaDocument.

(** ** A reference runtime

    Amounts held exactly as whole numbers of hundredths ([None] is NaN) and
    the proleptic Gregorian calendar of [toISOString]. The theorems below
    hold for every [Runtime]; this one runs the examples. *)

Module Decimal.

Definition of_int (z : Z) : option Z := Some (100 * z).

Definition add (a b : option Z) : option Z :=
  match a, b with Some x, Some y => Some (x + y) | _, _ => None end.

Definition lt (a b : option Z) : bool :=
  match a, b with Some x, Some y => x <? y | _, _ => false end.

Definition eq (a b : option Z) : bool :=
  match a, b with Some x, Some y => x =? y | _, _ => false end.

Definition pad (width : nat) (n : Z) : jsstring :=
  repeat 48 (width - length (int_toString n)) ++ int_toString n.

Definition sign (c : Z) : jsstring := if c <? 0 then str "-" else [].

Definition toFixed2 (a : option Z) : jsstring :=
  match a with
  | None => str "NaN"
  | Some c =>
      sign c ++ int_toString (Z.abs c / 100) ++ str "."
      ++ pad 2 (Z.abs c mod 100)
  end.

Definition toString (a : option Z) : jsstring :=
  match a with
  | None => str "NaN"
  | Some c =>
      let f := Z.abs c mod 100 in
      sign c ++ int_toString (Z.abs c / 100)
      ++ (if f =? 0 then []
          else str "." ++ (if f mod 10 =? 0 then int_toString (f / 10)
                           else pad 2 f))
  end.

Definition civil_from_days (days : Z) : Z * Z * Z :=
  let z := days + 719468 in
  let era := z / 146097 in
  let doe := z - era * 146097 in
  let yoe := (doe - doe / 1460 + doe / 36524 - doe / 146096) / 365 in
  let doy := doe - (365 * yoe + yoe / 4 - yoe / 100) in
  let mp := (5 * doy + 2) / 153 in
  let d := doy - (153 * mp + 2) / 5 + 1 in
  let m := if mp <? 10 then mp + 3 else mp - 9 in
  (if m <=? 2 then yoe + era * 400 + 1 else yoe + era * 400, m, d).

Definition year_toString (y : Z) : jsstring :=
  if (0 <=? y) && (y <=? 9999) then pad 4 y
  else (if y <? 0 then str "-" else str "+") ++ pad 6 (Z.abs y).

Definition time_toISOString (t : Z) : jsstring :=
  let ms := t mod 86400000 in
  let '(y, m, d) := civil_from_days (t / 86400000) in
  year_toString y ++ str "-" ++ pad 2 m ++ str "-" ++ pad 2 d ++ str "T"
  ++ pad 2 (ms / 3600000) ++ str ":" ++ pad 2 (ms / 60000 mod 60) ++ str ":"
  ++ pad 2 (ms / 1000 mod 60) ++ str "." ++ pad 3 (ms mod 1000) ++ str "Z".

#[export] Instance runtime : Runtime :=
  Build_Runtime (option Z) of_int None add lt eq toString toFixed2
                (Some 1) (Some 99999999999) time_toISOString.

End Decimal.

(** ** Sample entities *)

Module Sample.
Import Decimal.

(** 2014-06-01T00:00:00.000Z *)
Definition day : option Date := Some {| getTime := Some 1401580800000 |}.

(** A direct-debit transaction with the given end-to-end id, mandate id,
    amount in hundredths, bank identifier and override reference; the
    other fields that [validate] reads are well-formed. *)
Definition transaction (end2endId_ mandateId_ : jsstring) (amount_ : Z)
  (bic_ : jsstring) (overrideReference_ : option jsstring)
  : SepaTransaction.t :=
  {| SepaTransaction._painFormat := DEFAULT_PAIN_FORMAT;
     SepaTransaction._type := DrctDbtTxInf;
     SepaTransaction.id := [];
     SepaTransaction.end2endId := end2endId_;
     SepaTransaction.currency := str "EUR";
     SepaTransaction.amount := Some amount_;
     SepaTransaction.ammendment := [];
     SepaTransaction.purposeCode := None;
     SepaTransaction.mandateId := mandateId_;
     SepaTransaction.mandateSignatureDate := day;
     SepaTransaction.debtorName := str "Payer";
     SepaTransaction.debtorStreet := None;
     SepaTransaction.debtorCity := None;
     SepaTransaction.debtorCountry := None;
     SepaTransaction.debtorIBAN := str "DE87123456781234567890";
     SepaTransaction.debtorBIC := bic_;
     SepaTransaction.remittanceInfo := str "invoice";
     SepaTransaction.creditorName := [];
     SepaTransaction.creditorStreet := None;
     SepaTransaction.creditorCity := None;
     SepaTransaction.creditorCountry := None;
     SepaTransaction.creditorIBAN := [];
     SepaTransaction.creditorBIC := [];
     SepaTransaction.overrideReference := overrideReference_ |}.

Definition debit (amount_ : Z) : SepaTransaction.t :=
  transaction (str "E2E") (str "M1") amount_ (str "ABCDDEFFXXX") None.

(** A direct-debit block with the given format, bank identifier and
    override reference, with every other field that [validate] reads
    well-formed, and no transaction yet. *)
Definition block_with (painFormat bic_ overrideReference_ : jsstring)
  : SepaPaymentInfo.t :=
  {| SepaPaymentInfo._painFormat := painFormat;
     SepaPaymentInfo._payments := [];
     SepaPaymentInfo.id := [];
     SepaPaymentInfo.method := DirectDebit;
     SepaPaymentInfo.batchBooking := false;
     SepaPaymentInfo.grouping := str "MIXD";
     SepaPaymentInfo.controlSum := Some 0;
     SepaPaymentInfo.localInstrumentation := str "CORE";
     SepaPaymentInfo.sequenceType := str "FRST";
     SepaPaymentInfo.collectionDate := day;
     SepaPaymentInfo.requestedExecutionDate := None;
     SepaPaymentInfo.creditorId := str "DE98ZZZ09999999999";
     SepaPaymentInfo.creditorName := str "Collector";
     SepaPaymentInfo.creditorStreet := None;
     SepaPaymentInfo.creditorCity := None;
     SepaPaymentInfo.creditorCountry := None;
     SepaPaymentInfo.creditorIBAN := str "DE87123456781234567890";
     SepaPaymentInfo.creditorBIC := bic_;
     SepaPaymentInfo.creditorMemberId := [];
     SepaPaymentInfo.debtorId := [];
     SepaPaymentInfo.debtorName := [];
     SepaPaymentInfo.debtorStreet := None;
     SepaPaymentInfo.debtorCity := None;
     SepaPaymentInfo.debtorCountry := None;
     SepaPaymentInfo.debtorIBAN := [];
     SepaPaymentInfo.debtorBIC := [];
     SepaPaymentInfo.debtorMemberId := [];
     SepaPaymentInfo.instructionPriority := str "NORM";
     SepaPaymentInfo.categoryPurpose := [];
     SepaPaymentInfo.overrideReference := overrideReference_ |}.

Definition block (painFormat : jsstring) : SepaPaymentInfo.t :=
  block_with painFormat (str "ABCDDEFFXXX") [].

Definition header (painFormat id_ : jsstring) : SepaGroupHeader.t :=
  {| SepaGroupHeader._painFormat := painFormat;
     SepaGroupHeader.id := id_;
     SepaGroupHeader.created := day;
     SepaGroupHeader.transactionCount := 0;
     SepaGroupHeader.initiatorName := str "Collector";
     SepaGroupHeader.cifNumber := [];
     SepaGroupHeader.cucNumber := [];
     SepaGroupHeader.controlSum := Some 0;
     SepaGroupHeader.batchBooking := false;
     SepaGroupHeader.grouping := str "MIXD" |}.

(** [new Document(painFormat)] with the group header filled in. *)
Definition document (painFormat id_ : jsstring) : SepaDocument.t :=
  let x := SepaDocument.new (Some painFormat) in
  SepaDocument.update x [] (header (SepaDocument._painFormat x) id_).

End Sample.

(** ** The counterparty rules, as the specification words them

    Name, street and city of at most 70 characters, a country of at most 2,
    a name that is not empty, a valid IBAN, and a bank identifier of
    length 0, 8 or 11 whose country code, when there is an identifier, is
    the country prefix of the IBAN. *)

Definition longer_than (max : nat) (field : option jsstring) : bool :=
  match field with
  | Some s => Nat.ltb max (length s)
  | None => false
  end.

Definition name_is_empty (d : Debitor) : bool :=
  match trim (name d) with [] => true | _ :: _ => false end.

Definition bank_identifier_invalid (d : Debitor) : bool :=
  negb (validateIBAN (iban d))
  || negb (existsb (Nat.eqb (length (bic d))) [0; 8; 11]%nat)
  || (negb (Nat.eqb (length (bic d)) 0)
      && negb (jsstring_eqb (substr (bic d) 4 (Some 2))
                            (substr (iban d) 0 (Some 2)))).

(** The violated rules in the order of the checks, each with the name
    under which the field is reported and its message. *)
Definition violations (d : Debitor) : list (jsstring * jsstring) :=
  (if longer_than 70 (Some (name d))
   then [(str "name", str "debitor name is too long.")] else [])
  ++ (if longer_than 70 (street d)
      then [(str "street", str "debitor street is too long.")] else [])
  ++ (if longer_than 70 (city d)
      then [(str "city", str "debitor city is too long.")] else [])
  ++ (if longer_than 2 (country d)
      then [(str "country", str "debitor country is too long.")] else [])
  ++ (if name_is_empty d
      then [(pullFrom d ++ str "Name", invalid_name_message d)] else [])
  ++ (if bank_identifier_invalid d
      then [(str "IBAN/BIC", country_mismatch_message d)] else []).

Definition first_violation_message (d : Debitor) : jsstring :=
  snd (hd ([], []) (violations d)).

Definition last_violation_message (d : Debitor) : jsstring :=
  snd (last (violations d) ([], [])).

(** A counterparty whose name and street both exceed 70 characters. *)
Definition long_name_and_street : Debitor :=
  {| name := repeat 78 71; street := Some (repeat 83 71); city := None;
     country := None; iban := str "DE87123456781234567890"; bic := [];
     pullFrom := str "creditor" |}.

(** ** Reading a rendered tree *)

Definition child_tags (e : Element) : list jsstring :=
  map tagName (childNodes e).

(** The [GrpHdr] node and the [PmtInf] nodes of a rendered document: the
    children of the root business element, which is the only child of
    [Document]. *)
Definition rendered_levels (xml : XMLDocument)
  : option (Element * list Element) :=
  match childNodes (documentElement xml) with
  | [rootElement] =>
      match childNodes rootElement with
      | grpHdrNode :: pmtInfNodes => Some (grpHdrNode, pmtInfNodes)
      | [] => None
      end
  | _ => None
  end.

(** An element without children that carries a text. *)
Definition leaf (qname : jsstring) (attrs : list (jsstring * jsstring))
  (text : value) : Element :=
  mkElement qname attrs (Some text) [].

(** [e] occurs in the tree below [node]. *)
Definition occurs_in (e node : Element) : Prop :=
  In e (flat_map descendants (childNodes node)).

(** The nodes that depend on the schema version. *)
Definition gated_nodes : list jsstring :=
  [str "BtchBookg"; str "Grpg"; str "NbOfTxs"; str "CtrlSum"].

(** The header and the blocks carry the format of their document, as they
    do when made by the constructor and by [createPaymentInfo]. *)
Definition uniform_format {R : Runtime} (x : SepaDocument.t) : Prop :=
  SepaGroupHeader._painFormat (SepaDocument.grpHdr x)
  = SepaDocument._painFormat x
  /\ Forall (fun pi => SepaPaymentInfo._painFormat pi
                       = SepaDocument._painFormat x)
            (SepaDocument._paymentInfo x).

Definition at_header_only (q : jsstring) (grpHdrNode : Element)
  (pmtInfNodes : list Element) : Prop :=
  has_child q grpHdrNode = true
  /\ Forall (fun p => has_child q p = false) pmtInfNodes.

Definition at_blocks_only (q : jsstring) (grpHdrNode : Element)
  (pmtInfNodes : list Element) : Prop :=
  has_child q grpHdrNode = false
  /\ Forall (fun p => has_child q p = true) pmtInfNodes.

Definition at_both_levels (q : jsstring) (grpHdrNode : Element)
  (pmtInfNodes : list Element) : Prop :=
  has_child q grpHdrNode = true
  /\ Forall (fun p => has_child q p = true) pmtInfNodes.

Definition at_neither_level (q : jsstring) (grpHdrNode : Element)
  (pmtInfNodes : list Element) : Prop :=
  has_child q grpHdrNode = false
  /\ Forall (fun p => has_child q p = false) pmtInfNodes.

(** The version gating in the words of the specification: the four nodes
    under the group header only for version 2, under the payment-info
    blocks only for version 3. *)
Definition version_gating_as_worded {R : Runtime} (g : Globals)
  (x : SepaDocument.t) : Prop :=
  forall xml grpHdrNode pmtInfNodes,
    snd (SepaDocument.toXML g x) = Ok xml ->
    rendered_levels xml = Some (grpHdrNode, pmtInfNodes) ->
    (getPainXMLVersion (SepaDocument._painFormat x) = Some 2 ->
     forall q, In q gated_nodes -> at_header_only q grpHdrNode pmtInfNodes)
    /\ (getPainXMLVersion (SepaDocument._painFormat x) = Some 3 ->
        forall q, In q gated_nodes -> at_blocks_only q grpHdrNode pmtInfNodes).

(** A document of the given format with one block of one transaction, all
    of whose fields are well-formed. *)
Definition filled_document (painFormat : jsstring) : SepaDocument.t :=
  SepaDocument.addPaymentInfo initial_globals
    (Sample.document painFormat (str "MSG1"))
    (SepaPaymentInfo.addTransaction initial_globals (Sample.block painFormat)
       (Sample.debit 1000)).

Definition rendering_of (r : result XMLDocument) : XMLDocument :=
  match r with
  | Ok xml => xml
  | Throw _ => mkXMLDocument [] [] [] (createElement [])
  end.

(** The rendering of [filled_document] in the default format (version 3)
    and in a version 2 format. *)
Definition filled_document_xml : XMLDocument :=
  Eval vm_compute in
    rendering_of (snd (SepaDocument.toXML initial_globals
                         (filled_document DEFAULT_PAIN_FORMAT))).

Definition filled_document_v2_xml : XMLDocument :=
  Eval vm_compute in
    rendering_of (snd (SepaDocument.toXML initial_globals
                         (filled_document (str "pain.008.001.01")))).

(** What the format of a group header decides of its rendering: [NbOfTxs]
    and [CtrlSum] are always there, [BtchBookg] and [Grpg] exactly when
    the format resolves to version 2. *)
Definition gated_by_header {R : Runtime} (hdr : SepaGroupHeader.t)
  (grpHdrNode : Element) : Prop :=
  has_child (str "NbOfTxs") grpHdrNode = true
  /\ has_child (str "CtrlSum") grpHdrNode = true
  /\ has_child (str "BtchBookg") grpHdrNode
     = num_is (getPainXMLVersion (SepaGroupHeader._painFormat hdr)) 2
  /\ has_child (str "Grpg") grpHdrNode
     = num_is (getPainXMLVersion (SepaGroupHeader._painFormat hdr)) 2.

(** What the format of a block decides of its rendering: [Grpg] is never
    there, [BtchBookg], [NbOfTxs] and [CtrlSum] exactly when the format
    resolves to version 3. *)
Definition gated_by_block {R : Runtime} (pi : SepaPaymentInfo.t)
  (pmtInfNode : Element) : Prop :=
  has_child (str "Grpg") pmtInfNode = false
  /\ has_child (str "BtchBookg") pmtInfNode
     = num_is (getPainXMLVersion (SepaPaymentInfo._painFormat pi)) 3
  /\ has_child (str "NbOfTxs") pmtInfNode
     = num_is (getPainXMLVersion (SepaPaymentInfo._painFormat pi)) 3
  /\ has_child (str "CtrlSum") pmtInfNode
     = num_is (getPainXMLVersion (SepaPaymentInfo._painFormat pi)) 3.

(** A document of a version 2 format to which a block of a version 3
    format was attached: [addPaymentInfo] takes a block of any format. *)
Definition mixed_document : SepaDocument.t :=
  SepaDocument.addPaymentInfo initial_globals
    (Sample.document (str "pain.008.001.01") (str "MSG1"))
    (SepaPaymentInfo.addTransaction initial_globals
       (Sample.block (str "pain.008.001.02")) (Sample.debit 1000)).

Definition mixed_document_xml : XMLDocument :=
  Eval vm_compute in
    rendering_of (snd (SepaDocument.toXML initial_globals mixed_document)).

(** A date on which [toISOString] returns: an object with a time value. *)
Definition valid_date (dt : option Date) : bool :=
  match dt with
  | Some {| getTime := Some _ |} => true
  | _ => false
  end.

(** A transaction whose rendering formats a valid date: a direct debit
    has a valid mandate signature date. *)
Definition renderable {R : Runtime} (pmt : SepaTransaction.t) : Prop :=
  SepaTransaction.is_transfer pmt = false ->
  valid_date (SepaTransaction.mandateSignatureDate pmt) = true.

(** A transaction of amount 0.00 whose bank identifier names France while
    its IBAN is German, and an empty block with the same identifier. *)
Definition malformed_transaction : SepaTransaction.t :=
  Sample.transaction (str "E2E") (str "M1") 0 (str "ABCDFRFFXXX") None.

Definition malformed_block : SepaPaymentInfo.t :=
  Sample.block_with DEFAULT_PAIN_FORMAT (str "ABCDFRFFXXX") [].

(** ** Further code of the library, and the notions its properties use *)

(** The number that a string of decimal digits writes. *)
Definition decimal_value (s : jsstring) : Z :=
  fold_left (fun acc c => 10 * acc + (c - 48)) s 0.

(** The characters that [_replaceChars] keeps. *)
Definition is_alnum (c : Z) : bool :=
  ((65 <=? c) && (c <=? 90)) || ((97 <=? c) && (c <=? 122))
  || ((48 <=? c) && (c <=? 57)).

(** [String.prototype.substring(start, end)] with non-negative
    arguments given as numbers. *)
Definition substring (s : jsstring) (start end_ : Z) : jsstring :=
  let len := Z.of_nat (length s) in
  let finalStart := Z.min (Z.max start 0) len in
  let finalEnd := Z.min (Z.max end_ 0) len in
  let from := Z.min finalStart finalEnd in
  let to := Z.max finalStart finalEnd in
  firstn (Z.to_nat (to - from)) (skipn (Z.to_nat from) s).

Definition extractABICodeFromIBAN (iban : jsstring) : jsstring :=
  substring iban 5 10.

(** The counterparty that [SepaPaymentInfo.validate] checks. *)
Definition block_counterparty {R : Runtime} (x : SepaPaymentInfo.t) : Debitor :=
  {| name := SepaPaymentInfo.pullName x;
     street := SepaPaymentInfo.pullStreet x;
     city := SepaPaymentInfo.pullCity x;
     country := SepaPaymentInfo.pullCountry x;
     iban := SepaPaymentInfo.pullIBAN x;
     bic := SepaPaymentInfo.pullBIC x;
     pullFrom := SepaPaymentInfo.pull_from x |}.

(** The counterparty that [SepaTransaction.validate] checks. *)
Definition transaction_counterparty {R : Runtime} (x : SepaTransaction.t) : Debitor :=
  {| name := SepaTransaction.pullName x;
     street := SepaTransaction.pullStreet x;
     city := SepaTransaction.pullCity x;
     country := SepaTransaction.pullCountry x;
     iban := SepaTransaction.pullIBAN x;
     bic := SepaTransaction.pullBIC x;
     pullFrom := SepaTransaction.pull_from x |}.

(** The sum that [SepaPaymentInfo.normalize] computes. *)
Definition sum_of_amounts {R : Runtime} (payments : list SepaTransaction.t) : number :=
  fold_left (fun acc pmt => num_add acc (SepaTransaction.amount pmt))
            payments (num_of_int 0).

(** The ids of the payments of a block. *)
Definition payment_ids {R : Runtime} (x : SepaPaymentInfo.t) : list jsstring :=
  map SepaTransaction.id (SepaPaymentInfo._payments x).

Definition unnamed {R : Runtime} (pmt : SepaTransaction.t) : Prop :=
  SepaTransaction.id pmt = []
  /\ nullable_truthy (SepaTransaction.overrideReference pmt) = false.

(** The children of a rendered transaction. *)
Definition transaction_children {R : Runtime} (x : SepaTransaction.t) : list jsstring :=
  if SepaTransaction.is_transfer x
  then [str "PmtId"; str "Amt"; str "CdtrAgt"; str "Cdtr"; str "CdtrAcct";
        str "RmtInf"]
       ++ (if nullable_truthy (SepaTransaction.purposeCode x)
           then [str "Purp"] else [])
  else [str "PmtId"; str "InstdAmt"; str "DrctDbtTx"; str "DbtrAgt";
        str "Dbtr"; str "DbtrAcct"; str "RmtInf"]
       ++ (if nullable_truthy (SepaTransaction.purposeCode x)
           then [str "Purp"] else []).

(** The party of a rendered block: its name, then its postal address when
    street, city and country are all non-empty. *)
Definition party_node {R : Runtime} (x : SepaPaymentInfo.t) : Element :=
  mkElement (if SepaPaymentInfo.is_direct_debit x then str "Cdtr"
             else str "Dbtr") [] None
    (leaf (str "Nm") [] (VStr (SepaPaymentInfo.pullName x))
     :: if nullable_truthy (SepaPaymentInfo.pullStreet x)
           && nullable_truthy (SepaPaymentInfo.pullCity x)
           && nullable_truthy (SepaPaymentInfo.pullCountry x)
        then [mkElement (str "PstlAdr") [] None
                [leaf (str "Ctry") []
                      (of_nullable (SepaPaymentInfo.pullCountry x));
                 leaf (str "AdrLine") []
                      (of_nullable (SepaPaymentInfo.pullStreet x));
                 leaf (str "AdrLine") []
                      (of_nullable (SepaPaymentInfo.pullCity x))]]
        else []).

(** The agent of a rendered block: the bank identifier, followed by the
    clearing member id when there is one, or the placeholder. *)
Definition agent_node {R : Runtime} (x : SepaPaymentInfo.t) : Element :=
  mkElement ((if SepaPaymentInfo.is_direct_debit x then str "Cdtr"
              else str "Dbtr") ++ str "Agt") [] None
    [mkElement (str "FinInstnId") [] None
       (if nonempty (SepaPaymentInfo.pullBIC x)
        then leaf (str "BIC") [] (VStr (SepaPaymentInfo.pullBIC x))
             :: (if nonempty (SepaPaymentInfo.pullMemberId x)
                 then [mkElement (str "ClrSysMmbId") [] None
                         [leaf (str "MmbId") []
                               (VStr (SepaPaymentInfo.pullMemberId x))]]
                 else [])
        else [mkElement (str "Othr") [] None
                [leaf (str "Id") [] (VStr (str "NOTPROVIDED"))]])].

Module Transfers.
Import Decimal.

(** A credit transfer whose creditor has a postal address and whose debtor
    has none. *)
Definition addressed_transfer : SepaTransaction.t :=
  {| SepaTransaction._painFormat := str "pain.001.001.03";
     SepaTransaction._type := CdtTrfTxInf;
     SepaTransaction.id := [];
     SepaTransaction.end2endId := str "E2E";
     SepaTransaction.currency := str "EUR";
     SepaTransaction.amount := Some 1000;
     SepaTransaction.ammendment := [];
     SepaTransaction.purposeCode := None;
     SepaTransaction.mandateId := [];
     SepaTransaction.mandateSignatureDate := Sample.day;
     SepaTransaction.debtorName := [];
     SepaTransaction.debtorStreet := None;
     SepaTransaction.debtorCity := None;
     SepaTransaction.debtorCountry := None;
     SepaTransaction.debtorIBAN := [];
     SepaTransaction.debtorBIC := [];
     SepaTransaction.remittanceInfo := str "invoice";
     SepaTransaction.creditorName := str "Payee";
     SepaTransaction.creditorStreet := Some (str "1 Main Street");
     SepaTransaction.creditorCity := Some (str "Berlin");
     SepaTransaction.creditorCountry := Some (str "DE");
     SepaTransaction.creditorIBAN := str "DE87123456781234567890";
     SepaTransaction.creditorBIC := [];
     SepaTransaction.overrideReference := None |}.

End Transfers.

(* DEFS-END *)
(* ================================================================== *)
(** * Properties *)

Example checksumIBAN_vector :
  checksumIBAN (str "DE00123456781234567890") = str "DE87123456781234567890".
Proof. vm_compute. reflexivity. Qed.

Example checksumCreditorID_vector :
  checksumCreditorID (str "DE00ZZZ09999999999") = str "DE98ZZZ09999999999".
Proof. vm_compute. reflexivity. Qed.

Example validateIBAN_vector :
  validateIBAN (str "DE87123456781234567890") = true
  /\ validateIBAN (str "DE00123456781234567890") = false
  /\ validateCreditorID (str "DE98ZZZ09999999999") = true
  /\ int_toString 0 = str "0" /\ int_toString (-12) = str "-12"
  /\ parseInt (str "02") = Some 2 /\ parseInt (str " -7x") = Some (-7)
  /\ parseInt (str "x") = None.
Proof. vm_compute. repeat split; reflexivity. Qed.

(** ** Strings *)

Lemma jsstring_eqb_eq (a b : jsstring) : jsstring_eqb a b = true <-> a = b.
Proof.
  revert b. induction a as [| x a IH]; intros [| y b]; cbn [jsstring_eqb];
    try (split; [discriminate | congruence]); [tauto |].
  rewrite andb_true_iff, Z.eqb_eq, IH. split.
  - now intros [-> ->].
  - intros E. injection E as -> ->. tauto.
Qed.

Lemma jsstring_eqb_refl (a : jsstring) : jsstring_eqb a a = true.
Proof. now apply jsstring_eqb_eq. Qed.

Lemma substr_tail (s : jsstring) (k : Z) :
  0 <= k -> substr s k None = skipn (Z.to_nat k) s.
Proof.
  intros Hk. unfold substr.
  assert (Hlt : (k <? 0) = false) by (apply Z.ltb_ge; lia).
  rewrite Hlt.
  destruct (Z_le_gt_dec k (Z.of_nat (length s))) as [Hle | Hgt].
  - rewrite (Z.min_l k) by lia. rewrite Z.min_r by lia.
    apply firstn_all2. rewrite length_skipn. lia.
  - rewrite (Z.min_r k) by lia. rewrite Z.min_r by lia.
    rewrite Z.sub_diag. simpl.
    symmetry. apply skipn_all2. lia.
Qed.

Lemma substr_head (s : jsstring) (k : Z) :
  0 <= k -> substr s 0 (Some k) = firstn (Z.to_nat k) s.
Proof.
  intros Hk. unfold substr. change (0 <? 0) with false.
  cbv iota. rewrite (Z.min_l 0) by lia. simpl skipn.
  rewrite (Z.max_l k) by lia.
  destruct (Z_le_gt_dec k (Z.of_nat (length s))) as [Hle | Hgt].
  - rewrite (Z.min_l k) by lia. rewrite Z.min_l by lia.
    f_equal. lia.
  - rewrite (Z.min_r k) by lia. rewrite Z.min_r by lia.
    rewrite Z.sub_0_r, Nat2Z.id.
    rewrite firstn_all. symmetry. apply firstn_all2. lia.
Qed.

(** ** Checksum engine: letter replacement and mod 97 *)

Lemma in_range_enum (lo : nat) (len : nat) (n : Z) :
  Z.of_nat lo <= n < Z.of_nat (lo + len) ->
  In n (map Z.of_nat (seq lo len)).
Proof.
  intros H. apply in_map_iff. exists (Z.to_nat n). split.
  - lia.
  - apply in_seq. lia.
Qed.

Lemma two_digit_toString (n : Z) :
  10 <= n <= 98 -> int_toString n = [48 + n / 10; 48 + n mod 10].
Proof.
  intros H.
  assert (E : forallb (fun k => jsstring_eqb (int_toString k)
                                  [48 + k / 10; 48 + k mod 10])
                (map Z.of_nat (seq 10 89)) = true)
    by (vm_compute; reflexivity).
  rewrite forallb_forall in E.
  specialize (E n (in_range_enum 10 89 n ltac:(lia))).
  now apply jsstring_eqb_eq.
Qed.

Lemma is_digit_range (c : Z) : is_digit c = true <-> 48 <= c <= 57.
Proof. unfold is_digit. rewrite andb_true_iff, !Z.leb_le. tauto. Qed.

Lemma replace_unit_digits (cc : Z) : all_digits (replace_unit cc).
Proof.
  unfold replace_unit, _replaceChars_step, all_digits.
  destruct ((65 <=? cc) && (cc <=? 90)) eqn:Hup.
  - apply andb_true_iff in Hup. rewrite !Z.leb_le in Hup.
    simpl app. rewrite two_digit_toString by lia.
    repeat constructor; apply is_digit_range.
    + Z.div_mod_to_equations; lia.
    + Z.div_mod_to_equations; lia.
  - destruct ((97 <=? cc) && (cc <=? 122)) eqn:Hlo.
    + apply andb_true_iff in Hlo. rewrite !Z.leb_le in Hlo.
      simpl app. rewrite two_digit_toString by lia.
      repeat constructor; apply is_digit_range.
      * Z.div_mod_to_equations; lia.
      * Z.div_mod_to_equations; lia.
    + destruct ((48 <=? cc) && (cc <=? 57)) eqn:Hd.
      * repeat constructor. exact Hd.
      * constructor.
Qed.

Lemma replace_unit_of_digit (c : Z) :
  is_digit c = true -> replace_unit c = [c].
Proof.
  intros H. pose proof (proj1 (is_digit_range c) H) as R.
  unfold replace_unit, _replaceChars_step.
  replace ((65 <=? c) && (c <=? 90)) with false
    by (symmetry; apply andb_false_iff; left; apply Z.leb_gt; lia).
  replace ((97 <=? c) && (c <=? 122)) with false
    by (symmetry; apply andb_false_iff; left; apply Z.leb_gt; lia).
  unfold is_digit in H. rewrite H. reflexivity.
Qed.

Lemma _replaceChars_step_app (res : jsstring) (cc : Z) :
  _replaceChars_step res cc = res ++ replace_unit cc.
Proof.
  unfold replace_unit, _replaceChars_step.
  repeat match goal with |- context [if ?b then _ else _] => destruct b end;
    simpl; now rewrite ?app_nil_r.
Qed.

Lemma _replaceChars_fold (s res : jsstring) :
  fold_left _replaceChars_step s res = res ++ flat_map replace_unit s.
Proof.
  revert res. induction s as [| c s IH]; intros res; simpl.
  - now rewrite app_nil_r.
  - rewrite IH, _replaceChars_step_app. now rewrite <- app_assoc.
Qed.

Lemma _replaceChars_flat_map (s : jsstring) :
  _replaceChars s = flat_map replace_unit s.
Proof. unfold _replaceChars. now rewrite _replaceChars_fold. Qed.

Lemma _replaceChars_app (a b : jsstring) :
  _replaceChars (a ++ b) = _replaceChars a ++ _replaceChars b.
Proof. rewrite !_replaceChars_flat_map. apply flat_map_app. Qed.

Lemma _replaceChars_digits (s : jsstring) : all_digits (_replaceChars s).
Proof.
  rewrite _replaceChars_flat_map. induction s as [| c s IH]; simpl.
  - constructor.
  - apply Forall_app. split; [apply replace_unit_digits | exact IH].
Qed.

Lemma _replaceChars_of_digits (s : jsstring) :
  all_digits s -> _replaceChars s = s.
Proof.
  rewrite _replaceChars_flat_map. induction 1 as [| c s Hc _ IH]; simpl.
  - reflexivity.
  - rewrite replace_unit_of_digit by exact Hc. simpl. now rewrite IH.
Qed.

Lemma parseInt_digit (c : Z) :
  is_digit c = true -> parseInt [c] = Some (c - 48).
Proof.
  intros H. apply is_digit_range in H.
  assert (E : In c (map Z.of_nat (seq 48 10))) by (apply in_range_enum; lia).
  simpl in E. intuition (subst; reflexivity).
Qed.

Lemma _txtMod97_step_digit (r c : Z) :
  is_digit c = true ->
  _txtMod97_step (Some r) c = Some (Z.rem (r * 10 + (c - 48)) 97).
Proof.
  intros H. unfold _txtMod97_step. rewrite parseInt_digit by exact H.
  reflexivity.
Qed.

Lemma _txtMod97_fold_digits (s : jsstring) :
  all_digits s ->
  forall r, 0 <= r < 97 ->
  exists r', fold_left _txtMod97_step s (Some r) = Some r' /\ 0 <= r' < 97.
Proof.
  induction 1 as [| c s Hc _ IH]; intros r Hr; cbn [fold_left].
  - now exists r.
  - rewrite _txtMod97_step_digit by exact Hc.
    apply IH. apply is_digit_range in Hc.
    rewrite Z.rem_mod_nonneg by lia.
    apply Z.mod_pos_bound. lia.
Qed.

Lemma _txtMod97_digits (s : jsstring) :
  all_digits s -> exists r, _txtMod97 s = Some r /\ 0 <= r < 97.
Proof. intros H. apply _txtMod97_fold_digits; [exact H | lia]. Qed.

Lemma _txtMod97_app (a b : jsstring) :
  _txtMod97 (a ++ b) = fold_left _txtMod97_step b (_txtMod97 a).
Proof. apply fold_left_app. Qed.

(** Appending the check digits computed from the residue of [x00] brings
    the residue to 1, whatever the residue [b] of the prefix. *)
Lemma check_digits_close (b : Z) :
  0 <= b < 97 ->
  fold_left _txtMod97_step
    (check_digits (fold_left _txtMod97_step (str "00") (Some b))) (Some b)
  = Some 1.
Proof.
  intros H.
  assert (E : forallb
                (fun k => num_is
                   (fold_left _txtMod97_step
                      (check_digits
                         (fold_left _txtMod97_step (str "00") (Some k)))
                      (Some k)) 1)
                (map Z.of_nat (seq 0 97)) = true)
    by (vm_compute; reflexivity).
  rewrite forallb_forall in E.
  specialize (E b (in_range_enum 0 97 b ltac:(lia))).
  destruct (fold_left _ (check_digits _) _) as [v |]; simpl in E.
  - apply Z.eqb_eq in E. now subst.
  - discriminate.
Qed.

Lemma check_digits_shape (m : Z) :
  0 <= m < 97 ->
  length (check_digits (Some m)) = 2%nat /\ all_digits (check_digits (Some m)).
Proof.
  intros H.
  assert (E : forallb
                (fun k => Nat.eqb (length (check_digits (Some k))) 2
                          && forallb is_digit (check_digits (Some k)))
                (map Z.of_nat (seq 0 97)) = true)
    by (vm_compute; reflexivity).
  rewrite forallb_forall in E.
  specialize (E m (in_range_enum 0 97 m ltac:(lia))).
  apply andb_true_iff in E. destruct E as [E1 E2].
  split.
  - now apply Nat.eqb_eq.
  - apply Forall_forall. now apply forallb_forall.
Qed.

Lemma mod97_residue (x : jsstring) :
  exists m, _txtMod97 (_replaceChars (x ++ str "00")) = Some m /\ 0 <= m < 97.
Proof. apply _txtMod97_digits, _replaceChars_digits. Qed.

Lemma mod97_closed (x : jsstring) :
  num_is (_txtMod97 (_replaceChars
            (x ++ check_digits (_txtMod97 (_replaceChars (x ++ str "00"))))))
         1 = true.
Proof.
  destruct (mod97_residue x) as [m [Hm Rm]].
  destruct (_txtMod97_digits _ (_replaceChars_digits x)) as [b [Hb Rb]].
  destruct (check_digits_shape m Rm) as [_ Hcd].
  rewrite Hm.
  rewrite _replaceChars_app, (_replaceChars_of_digits _ Hcd).
  rewrite _txtMod97_app, Hb.
  rewrite _replaceChars_app, _txtMod97_app, Hb in Hm.
  change (_replaceChars (str "00")) with (str "00") in Hm.
  rewrite <- Hm, check_digits_close by exact Rb.
  reflexivity.
Qed.

Lemma rotate_spliced_4 (s cc : jsstring) :
  length cc = 2%nat ->
  skipn 4 (firstn 2 s ++ cc ++ skipn 4 s)
    ++ firstn 4 (firstn 2 s ++ cc ++ skipn 4 s)
  = (skipn 4 s ++ firstn 2 s) ++ cc.
Proof.
  intros H.
  destruct cc as [| x [| y [| z cc]]]; try discriminate.
  destruct s as [| a [| b [| c [| d s]]]]; simpl; try reflexivity.
  now rewrite <- app_assoc.
Qed.

Lemma rotate_spliced_7 (s cc : jsstring) :
  length cc = 2%nat ->
  skipn 7 (firstn 2 s ++ cc ++ skipn 4 s)
    ++ firstn 4 (firstn 2 s ++ cc ++ skipn 4 s)
  = (skipn 7 s ++ firstn 2 s) ++ cc.
Proof.
  intros H.
  destruct cc as [| x [| y [| z cc]]]; try discriminate.
  destruct s as [| a [| b [| c [| d s]]]]; simpl; try reflexivity.
  now rewrite <- app_assoc.
Qed.

(** C1. Checksum round-trip: [validateIBAN (checksumIBAN iban)] is true and
    [validateCreditorID (checksumCreditorID cid)] is true; the code computes
    the check digits from characters 1-2 and 5.. (resp. 8..) only, so this
    holds for every input string, in particular for every well-formed
    identifier carrying the placeholder 00. *)
Theorem checksum_round_trip (s : jsstring) :
  validateIBAN (checksumIBAN s) = true
  /\ validateCreditorID (checksumCreditorID s) = true.
Proof.
  split.
  - unfold validateIBAN, checksumIBAN.
    rewrite !substr_tail, !substr_head by lia.
    change (Z.to_nat 4) with 4%nat. change (Z.to_nat 2) with 2%nat.
    rewrite (app_assoc (skipn 4 s) (firstn 2 s) (str "00")).
    destruct (mod97_residue (skipn 4 s ++ firstn 2 s)) as [m [Hm Rm]].
    rewrite rotate_spliced_4
      by (rewrite Hm; apply (check_digits_shape m Rm)).
    apply mod97_closed.
  - unfold validateCreditorID, checksumCreditorID.
    rewrite !substr_tail, !substr_head by lia.
    change (Z.to_nat 4) with 4%nat. change (Z.to_nat 2) with 2%nat.
    change (Z.to_nat 7) with 7%nat.
    rewrite (app_assoc (skipn 7 s) (firstn 2 s) (str "00")).
    destruct (mod97_residue (skipn 7 s ++ firstn 2 s)) as [m [Hm Rm]].
    rewrite rotate_spliced_7
      by (rewrite Hm; apply (check_digits_shape m Rm)).
    apply mod97_closed.
Qed.

(** ** Checksum engine: frame and case *)

Lemma checksumIBAN_spliced (iban : jsstring) :
  exists x y,
    checksumIBAN iban = firstn 2 iban ++ [x; y] ++ skipn 4 iban.
Proof.
  unfold checksumIBAN.
  rewrite !substr_tail, !substr_head by lia.
  change (Z.to_nat 4) with 4%nat. change (Z.to_nat 2) with 2%nat.
  rewrite (app_assoc (skipn 4 iban) (firstn 2 iban) (str "00")).
  destruct (mod97_residue (skipn 4 iban ++ firstn 2 iban)) as [m [Hm Rm]].
  rewrite Hm. destruct (check_digits_shape m Rm) as [Hlen _].
  destruct (check_digits (Some m)) as [| x [| y [| z cc]]]; try discriminate.
  now exists x, y.
Qed.

(** C8. Checksum determinism and frame: [checksumIBAN] is a function of its
    argument alone, and on an IBAN (a string that has the four leading
    characters: country code and check digits) the result has the length of
    the input and the same character at every index other than 2 and 3
    (positions 3-4). *)
Theorem checksumIBAN_frame (iban : jsstring) :
  (4 <= length iban)%nat ->
  (forall iban', iban' = iban -> checksumIBAN iban' = checksumIBAN iban)
  /\ length (checksumIBAN iban) = length iban
  /\ forall i : nat, i <> 2%nat -> i <> 3%nat ->
       nth_error (checksumIBAN iban) i = nth_error iban i.
Proof.
  intros Hlen. split; [intros ? ->; reflexivity |].
  destruct (checksumIBAN_spliced iban) as [x [y E]]. rewrite E.
  destruct iban as [| a [| b [| c [| d rest]]]]; simpl in Hlen; try lia.
  simpl. split; [reflexivity |].
  intros i H2 H3.
  destruct i as [| [| [| [| i]]]]; try reflexivity; contradiction.
Qed.

Lemma checksumIBAN_frame_witness :
  length (checksumIBAN (str "DE00123456781234567890")) = 22%nat
  /\ nth_error (checksumIBAN (str "DE00123456781234567890")) 4 = Some 49.
Proof.
  destruct (checksumIBAN_frame (str "DE00123456781234567890")) as [_ [L F]].
  - simpl. lia.
  - split.
    + rewrite L. reflexivity.
    + rewrite F by lia. reflexivity.
Defined.

(** On a string too short to hold a country code the check digits are
    appended right after what there is. *)
Example checksumIBAN_short :
  checksumIBAN (str "A") = str "A68" /\ checksumIBAN [] = str "98".
Proof. vm_compute. split; reflexivity. Qed.

Lemma substr_map (f : Z -> Z) (s : jsstring) (start : Z) (len : option Z) :
  substr (map f s) start len = map f (substr s start len).
Proof.
  unfold substr. rewrite length_map, skipn_map, firstn_map. reflexivity.
Qed.

Lemma replace_unit_upper (c : Z) : replace_unit (upper_unit c) = replace_unit c.
Proof.
  unfold upper_unit.
  destruct ((97 <=? c) && (c <=? 122)) eqn:Hlo; [| reflexivity].
  unfold replace_unit, _replaceChars_step. rewrite Hlo.
  apply andb_true_iff in Hlo. rewrite !Z.leb_le in Hlo.
  replace ((65 <=? c - 32) && (c - 32 <=? 90)) with true
    by (symmetry; apply andb_true_iff; rewrite !Z.leb_le; lia).
  replace ((65 <=? c) && (c <=? 90)) with false
    by (symmetry; apply andb_false_iff; right; apply Z.leb_gt; lia).
  simpl. f_equal. lia.
Qed.

Lemma _replaceChars_toUpperCase (s : jsstring) :
  _replaceChars (toUpperCase s) = _replaceChars s.
Proof.
  rewrite !_replaceChars_flat_map. unfold toUpperCase.
  induction s as [| c s IH]; simpl.
  - reflexivity.
  - now rewrite replace_unit_upper, IH.
Qed.

(** C10. Case-insensitivity of the checksum engine: the letter replacement
    gives a..z the values 10..35 of A..Z, and [validateIBAN] returns the
    same on a string and on the string with its letters a-z upper-cased. *)
Theorem validateIBAN_case_insensitive (s : jsstring) :
  validateIBAN (toUpperCase s) = validateIBAN s
  /\ _replaceChars (toUpperCase s) = _replaceChars s
  /\ map replace_unit (str "abcdefghijklmnopqrstuvwxyz")
     = map int_toString (map Z.of_nat (seq 10 26))
  /\ map replace_unit (str "ABCDEFGHIJKLMNOPQRSTUVWXYZ")
     = map int_toString (map Z.of_nat (seq 10 26)).
Proof.
  split; [| split; [apply _replaceChars_toUpperCase
                   | split; vm_compute; reflexivity]].
  unfold validateIBAN, toUpperCase.
  rewrite !substr_map, <- map_app.
  fold (toUpperCase (substr s 4 None ++ substr s 0 (Some 4))).
  now rewrite _replaceChars_toUpperCase.
Qed.

(** ** Normalization pass *)

Section Normalization.
Context {R : Runtime}.

Lemma payment_info_normalize_idempotent (pi : SepaPaymentInfo.t) :
  SepaPaymentInfo.normalize (SepaPaymentInfo.normalize pi)
  = SepaPaymentInfo.normalize pi.
Proof. reflexivity. Qed.

(** The loop of [SepaDocument.normalize], unrolled: every block is
    normalized, and the two totals are folds over the normalized blocks. *)
Lemma normalize_loop (l done : list SepaPaymentInfo.t) (sum : number)
  (count : Z) :
  fold_left SepaDocument.normalize_step l (done, sum, count)
  = (done ++ map SepaPaymentInfo.normalize l,
     fold_left (fun acc pi =>
                  num_add acc (SepaPaymentInfo.controlSum
                                 (SepaPaymentInfo.normalize pi))) l sum,
     fold_left (fun acc pi =>
                  acc + SepaPaymentInfo.transactionCount
                          (SepaPaymentInfo.normalize pi)) l count).
Proof.
  revert done sum count.
  induction l as [| pi l IH]; intros done sum count; cbn [fold_left map].
  - now rewrite app_nil_r.
  - unfold SepaDocument.normalize_step at 2. rewrite IH.
    now rewrite <- app_assoc.
Qed.

Lemma fold_left_map_normalize {A} (f : A -> SepaPaymentInfo.t -> A)
  (l : list SepaPaymentInfo.t) (a : A) :
  fold_left (fun acc pi => f acc (SepaPaymentInfo.normalize pi))
            (map SepaPaymentInfo.normalize l) a
  = fold_left (fun acc pi => f acc (SepaPaymentInfo.normalize pi)) l a.
Proof.
  revert a. induction l as [| pi l IH]; intros a; cbn [fold_left map].
  - reflexivity.
  - rewrite payment_info_normalize_idempotent. apply IH.
Qed.

Lemma document_normalize_unfold (x : SepaDocument.t) :
  SepaDocument.normalize x
  = SepaDocument.update x
      (map SepaPaymentInfo.normalize (SepaDocument._paymentInfo x))
      (SepaGroupHeader.set_totals (SepaDocument.grpHdr x)
         (fold_left (fun acc pi =>
                       num_add acc (SepaPaymentInfo.controlSum
                                      (SepaPaymentInfo.normalize pi)))
                    (SepaDocument._paymentInfo x) (num_of_int 0))
         (fold_left (fun acc pi =>
                       acc + SepaPaymentInfo.transactionCount
                               (SepaPaymentInfo.normalize pi))
                    (SepaDocument._paymentInfo x) 0)).
Proof.
  unfold SepaDocument.normalize. now rewrite normalize_loop.
Qed.

(** C4. Normalization idempotence: normalizing a document twice in a row
    leaves the document that normalizing it once leaves, so the control sum
    and the transaction count of every block and of the group header are
    the same. *)
Theorem normalize_idempotent (x : SepaDocument.t) :
  let once := SepaDocument.normalize x in
  let twice := SepaDocument.normalize once in
  twice = once
  /\ map SepaPaymentInfo.controlSum (SepaDocument._paymentInfo twice)
     = map SepaPaymentInfo.controlSum (SepaDocument._paymentInfo once)
  /\ map SepaPaymentInfo.transactionCount (SepaDocument._paymentInfo twice)
     = map SepaPaymentInfo.transactionCount (SepaDocument._paymentInfo once)
  /\ SepaGroupHeader.controlSum (SepaDocument.grpHdr twice)
     = SepaGroupHeader.controlSum (SepaDocument.grpHdr once)
  /\ SepaGroupHeader.transactionCount (SepaDocument.grpHdr twice)
     = SepaGroupHeader.transactionCount (SepaDocument.grpHdr once).
Proof.
  intros once twice.
  assert (E : twice = once).
  { subst once twice.
    rewrite (document_normalize_unfold (SepaDocument.normalize x)).
    rewrite (document_normalize_unfold x).
    cbn [SepaDocument._paymentInfo SepaDocument.grpHdr SepaDocument.update].
    rewrite map_map.
    rewrite (fold_left_map_normalize
               (fun acc pi => num_add acc (SepaPaymentInfo.controlSum pi))).
    rewrite (fold_left_map_normalize
               (fun acc pi => acc + SepaPaymentInfo.transactionCount pi)).
    reflexivity. }
  rewrite E. repeat split; reflexivity.
Qed.

End Normalization.

(** ** Validation engine: primitives *)

Lemma nonempty_true (s : jsstring) : nonempty s = true <-> s <> [].
Proof.
  unfold nonempty. rewrite negb_true_iff.
  destruct (jsstring_eqb s []) eqn:E.
  - apply jsstring_eqb_eq in E. split; [discriminate | congruence].
  - split; [| reflexivity]. intros _ ->.
    rewrite jsstring_eqb_refl in E. discriminate.
Qed.

(** A number has no [length]: [assert_length] accepts every count. *)
Lemma assert_length_of_number (n : Z) (min max : option Z)
  (member : jsstring) :
  assert_length (VInt n) min max member = Ok tt.
Proof.
  unfold assert_length, length_lt, length_gt. cbn [value_length].
  rewrite !andb_false_r. now destruct min, max.
Qed.

Lemma match_class_run_some (cls : Z -> bool) (s : jsstring) :
  is_null (match_class_run cls s) = negb (existsb cls s).
Proof.
  induction s as [| c s IH]; cbn [match_class_run existsb].
  - reflexivity.
  - destruct (cls c); [reflexivity | exact IH].
Qed.

(** The first identifier check raises exactly on a non-empty string none
    of whose characters is in the class. *)
Lemma assert_sepa_id_set1_ok (s member : jsstring) :
  assert_sepa_id_set1 s member = Ok tt
  <-> s = [] \/ exists c, In c s /\ in_sepa_set1 c = true.
Proof.
  unfold assert_sepa_id_set1. rewrite match_class_run_some.
  destruct s as [| c0 s'] eqn:Es.
  - cbn. split; [now left | reflexivity].
  - replace (nonempty (c0 :: s')) with true
      by (symmetry; apply nonempty_true; discriminate).
    cbn [andb]. destruct (existsb in_sepa_set1 (c0 :: s')) eqn:Ex.
    + cbn. split; [| reflexivity]. intros _. right.
      now apply existsb_exists in Ex.
    + cbn. split; [discriminate |].
      intros [H | H]; [discriminate |].
      assert (E : existsb in_sepa_set1 (c0 :: s') = true)
        by (apply existsb_exists; exact H).
      congruence.
Qed.

Lemma assert_sepa_id_set2_ok (s member : jsstring) :
  assert_sepa_id_set2 s member = Ok tt
  <-> s = [] \/ exists c, In c s /\ in_sepa_set2 c = true.
Proof.
  unfold assert_sepa_id_set2. rewrite match_class_run_some.
  destruct s as [| c0 s'] eqn:Es.
  - cbn. split; [now left | reflexivity].
  - replace (nonempty (c0 :: s')) with true
      by (symmetry; apply nonempty_true; discriminate).
    cbn [andb]. destruct (existsb in_sepa_set2 (c0 :: s')) eqn:Ex.
    + cbn. split; [| reflexivity]. intros _. right.
      now apply existsb_exists in Ex.
    + cbn. split; [discriminate |].
      intros [H | H]; [discriminate |].
      assert (E : existsb in_sepa_set2 (c0 :: s') = true)
        by (apply existsb_exists; exact H).
      congruence.
Qed.

(** What [SepaPaymentInfo.validate] returns does not depend on the
    transactions of the block. *)
Lemma validate_ignores_payments {R : Runtime} (x : SepaPaymentInfo.t)
  (payments : list SepaTransaction.t) :
  SepaPaymentInfo.validate
    (SepaPaymentInfo.update x (SepaPaymentInfo.id x) payments
                            (SepaPaymentInfo.controlSum x))
  = SepaPaymentInfo.validate x.
Proof.
  unfold SepaPaymentInfo.validate.
  rewrite !assert_length_of_number. reflexivity.
Qed.

(** C6. Minimum-transaction check. [SepaPaymentInfo.validate] hands the
    number [this._payments.length] to [assert_length], which reads the
    [length] of its argument: the check accepts every count, and a block
    whose other fields are well-formed validates and renders with no
    transaction in it. *)
Theorem validate_accepts_empty_block :
  (forall (n : Z) (member : jsstring),
      assert_length (VInt n) (Some 1) None member = Ok tt)
  /\ SepaPaymentInfo._payments (Sample.block DEFAULT_PAIN_FORMAT) = []
  /\ SepaPaymentInfo.validate (Sample.block DEFAULT_PAIN_FORMAT) = Ok tt
  /\ succeeds (SepaPaymentInfo.toXML initial_globals
                 (Sample.block DEFAULT_PAIN_FORMAT)) = true
  /\ succeeds (snd (SepaDocument.toXML initial_globals
                      (SepaDocument.addPaymentInfo initial_globals
                         (Sample.document DEFAULT_PAIN_FORMAT (str "MSG1"))
                         (Sample.block DEFAULT_PAIN_FORMAT)))) = true.
Proof.
  split; [intros; apply assert_length_of_number |].
  split; [reflexivity |].
  repeat split; vm_compute; reflexivity.
Qed.

(** C7. Identifier charset check. The patterns of [assert_sepa_id_set1]
    and [assert_sepa_id_set2] carry no anchor, so one character of the
    class anywhere in the value satisfies them: the end-to-end id [A#] and
    the mandate id [M 1] hold a character outside their class and
    [SepaTransaction.validate] accepts both. A value made of characters of
    the class only passes, as does the empty value. *)
Theorem charset_check_accepts_foreign_character :
  in_sepa_set1 35 = false
  /\ SepaTransaction.validate
       (Sample.transaction (str "A#") (str "M1") 1000 [] None) = Ok tt
  /\ in_sepa_set2 32 = false
  /\ SepaTransaction.validate
       (Sample.transaction (str "E2E") (str "M 1") 1000 [] None) = Ok tt
  /\ (forall s member : jsstring,
        (exists c, In c s /\ in_sepa_set1 c = true) ->
        assert_sepa_id_set1 s member = Ok tt)
  /\ (forall s member : jsstring,
        (exists c, In c s /\ in_sepa_set2 c = true) ->
        assert_sepa_id_set2 s member = Ok tt).
Proof.
  split; [reflexivity |]. split; [vm_compute; reflexivity |].
  split; [reflexivity |]. split; [vm_compute; reflexivity |].
  split; intros s member H.
  - apply assert_sepa_id_set1_ok. now right.
  - apply assert_sepa_id_set2_ok. now right.
Qed.

(** ** Validation engine: the counterparty check *)

Lemma catch_as_test {A B} (m : result A) (a b : B) :
  match m with Ok _ => a | Throw _ => b end = if succeeds m then a else b.
Proof. now destruct m. Qed.

Lemma too_long_spec (field : option jsstring) (max : nat) :
  too_long field (Z.of_nat max) = longer_than max field.
Proof.
  destruct field as [s |]; [| reflexivity].
  unfold too_long, longer_than.
  destruct (Nat.ltb_spec max (length s)) as [E | E].
  - replace (nonempty s) with true
      by (symmetry; apply nonempty_true; destruct s; [simpl in E; lia |
                                                      discriminate]).
    apply Z.ltb_lt. lia.
  - apply andb_false_iff. right. apply Z.ltb_ge. lia.
Qed.

Lemma assert_name_spec (d : Debitor) (member : jsstring) :
  succeeds (assert_name (name d) member) = negb (name_is_empty d).
Proof.
  unfold assert_name, name_is_empty.
  destruct (name d) as [| c s] eqn:E.
  - reflexivity.
  - replace (nonempty (c :: s)) with true
      by (symmetry; apply nonempty_true; discriminate).
    cbn [negb orb].
    destruct (trim (c :: s)); reflexivity.
Qed.

Lemma length_choice (l : nat) :
  existsb (strict_eqb (VInt (Z.of_nat l))) [VInt 0; VInt 8; VInt 11]
  = existsb (Nat.eqb l) [0; 8; 11]%nat.
Proof.
  cbn [existsb strict_eqb].
  repeat match goal with
         | |- context [Z.of_nat l =? ?k] =>
             replace (Z.of_nat l =? k) with (Nat.eqb l (Z.to_nat k))
               by (destruct (Nat.eqb_spec l (Z.to_nat k));
                   [symmetry; apply Z.eqb_eq | symmetry; apply Z.eqb_neq];
                   lia)
         end.
  reflexivity.
Qed.

Lemma assert_iban_bic_spec (d : Debitor) (message : jsstring) :
  succeeds (assert_iban_bic d message) = negb (bank_identifier_invalid d).
Proof.
  unfold assert_iban_bic, bank_identifier_invalid, assert_iban, assert_fixed,
    assert.
  rewrite length_choice.
  replace (Z.of_nat (length (bic d)) =? 0) with (Nat.eqb (length (bic d)) 0)
    by (destruct (Nat.eqb_spec (length (bic d)) 0);
        [symmetry; apply Z.eqb_eq | symmetry; apply Z.eqb_neq]; lia).
  destruct (validateIBAN (iban d)); [| reflexivity].
  destruct (existsb (Nat.eqb (length (bic d))) [0; 8; 11]%nat);
    [| reflexivity].
  destruct (Nat.eqb (length (bic d)) 0); [reflexivity |].
  destruct (jsstring_eqb _ _); reflexivity.
Qed.

(** Without a violation the check returns. *)
Lemma no_violation_passes (d : Debitor) :
  violations d = [] -> assert_debitor d = Ok tt.
Proof.
  unfold assert_debitor, violations.
  rewrite !catch_as_test.
  rewrite assert_name_spec, assert_iban_bic_spec.
  change 70 with (Z.of_nat 70). change 2 with (Z.of_nat 2).
  rewrite !too_long_spec.
  destruct (longer_than 70 (Some (name d)));
    destruct (longer_than 70 (street d));
    destruct (longer_than 70 (city d));
    destruct (longer_than 2 (country d));
    destruct (name_is_empty d);
    destruct (bank_identifier_invalid d);
    cbn [app]; intros Hv; try discriminate Hv; reflexivity.
Qed.

(** C5, as the code has it. Aggregated counterparty error: when a rule is
    violated, [assert_debitor] raises one [InvalidSupplierError] that
    carries the counterparty name, a list holding the field name of every
    violated rule and of no other, and the message of the last violation
    met (each failing check overwrites the message). *)
Theorem aggregated_counterparty_error (d : Debitor) :
  violations d <> [] ->
  exists fields,
    assert_debitor d
    = Throw (InvalidSupplierError (name d) fields (last_violation_message d))
    /\ forall f, In f fields <-> In f (map fst (violations d)).
Proof.
  unfold assert_debitor, last_violation_message, violations.
  rewrite !catch_as_test.
  rewrite assert_name_spec, assert_iban_bic_spec.
  change 70 with (Z.of_nat 70). change 2 with (Z.of_nat 2).
  rewrite !too_long_spec.
  destruct (longer_than 70 (Some (name d)));
    destruct (longer_than 70 (street d));
    destruct (longer_than 70 (city d));
    destruct (longer_than 2 (country d));
    destruct (name_is_empty d);
    destruct (bank_identifier_invalid d);
    cbn [negb fst snd app length Z.of_nat Z.ltb Z.compare Pos.of_succ_nat
         Pos.succ last map];
    intros Hv; try (exfalso; apply Hv; reflexivity);
    eexists; (split; [reflexivity |]); intros f; cbn [In]; tauto.
Qed.

Lemma aggregated_counterparty_error_witness :
  exists fields,
    assert_debitor long_name_and_street
    = Throw (InvalidSupplierError (repeat 78 71) fields
               (str "debitor street is too long."))
    /\ forall f, In f fields <-> In f [str "name"; str "street"].
Proof.
  apply (aggregated_counterparty_error long_name_and_street).
  vm_compute. discriminate.
Defined.

(** The message is not that of the first violation: with a name and a
    street that are both too long, the error carries the message of the
    street. *)
Lemma first_violation_message_counterexample :
  first_violation_message long_name_and_street
  = str "debitor name is too long."
  /\ ~ exists fields,
         assert_debitor long_name_and_street
         = Throw (InvalidSupplierError (name long_name_and_street) fields
                    (first_violation_message long_name_and_street)).
Proof.
  split; [vm_compute; reflexivity |].
  intros [fields H]. vm_compute in H.
  injection H as _ H. discriminate H.
Qed.

(** ** Identifier assignment *)

Section Identifiers.
Context {R : Runtime}.

(** The id that [addPaymentInfo] gives to a block. *)
Lemma addPaymentInfo_ids (g : Globals) (x : SepaDocument.t)
  (pi : SepaPaymentInfo.t) :
  map SepaPaymentInfo.id
      (SepaDocument._paymentInfo (SepaDocument.addPaymentInfo g x pi))
  = map SepaPaymentInfo.id (SepaDocument._paymentInfo x)
    ++ [if nonempty (SepaPaymentInfo.overrideReference pi)
        then SepaPaymentInfo.overrideReference pi
        else if nonempty (SepaPaymentInfo.id pi)
        then SepaGroupHeader.id (SepaDocument.grpHdr x) ++ ID_SEPARATOR g
             ++ SepaPaymentInfo.id pi
        else SepaGroupHeader.id (SepaDocument.grpHdr x) ++ ID_SEPARATOR g
             ++ int_toString
                  (Z.of_nat (length (SepaDocument._paymentInfo x)))].
Proof.
  unfold SepaDocument.addPaymentInfo.
  cbn [SepaDocument._paymentInfo SepaDocument.update].
  rewrite map_app. reflexivity.
Qed.

(** The id that [addTransaction] gives to a transaction. *)
Lemma addTransaction_ids (g : Globals) (pi : SepaPaymentInfo.t)
  (pmt : SepaTransaction.t) :
  map SepaTransaction.id
      (SepaPaymentInfo._payments (SepaPaymentInfo.addTransaction g pi pmt))
  = map SepaTransaction.id (SepaPaymentInfo._payments pi)
    ++ [if nullable_truthy (SepaTransaction.overrideReference pmt)
        then to_string (of_nullable (SepaTransaction.overrideReference pmt))
        else if nonempty (SepaTransaction.id pmt)
        then SepaPaymentInfo.id pi ++ ID_SEPARATOR g ++ SepaTransaction.id pmt
        else SepaPaymentInfo.id pi ++ ID_SEPARATOR g
             ++ int_toString
                  (Z.of_nat (length (SepaPaymentInfo._payments pi)))].
Proof.
  unfold SepaPaymentInfo.addTransaction.
  cbn [SepaPaymentInfo._payments SepaPaymentInfo.update].
  rewrite map_app. reflexivity.
Qed.

(** Attaching a block leaves the header and the blocks already there as
    they are. *)
Lemma addPaymentInfo_frame (g : Globals) (x : SepaDocument.t)
  (pi : SepaPaymentInfo.t) :
  SepaDocument.grpHdr (SepaDocument.addPaymentInfo g x pi)
  = SepaDocument.grpHdr x
  /\ firstn (length (SepaDocument._paymentInfo x))
            (SepaDocument._paymentInfo (SepaDocument.addPaymentInfo g x pi))
     = SepaDocument._paymentInfo x.
Proof.
  split; [reflexivity |].
  unfold SepaDocument.addPaymentInfo.
  cbn [SepaDocument._paymentInfo SepaDocument.update].
  rewrite firstn_app, Nat.sub_diag, firstn_all. cbn. apply app_nil_r.
Qed.

Lemma normalize_keeps_ids (x : SepaDocument.t) :
  map SepaPaymentInfo.id (SepaDocument._paymentInfo (SepaDocument.normalize x))
  = map SepaPaymentInfo.id (SepaDocument._paymentInfo x)
  /\ map (fun pi => map SepaTransaction.id (SepaPaymentInfo._payments pi))
         (SepaDocument._paymentInfo (SepaDocument.normalize x))
     = map (fun pi => map SepaTransaction.id (SepaPaymentInfo._payments pi))
           (SepaDocument._paymentInfo x).
Proof.
  rewrite document_normalize_unfold.
  cbn [SepaDocument._paymentInfo SepaDocument.update].
  rewrite !map_map. split; reflexivity.
Qed.

(** C3. Id-prefixing at attach time. With the separator [.], three blocks
    without id and without override reference attached to an empty
    document whose header id is [MSG1] get the ids [MSG1.0], [MSG1.1],
    [MSG1.2] in this order. A block or a transaction that carries an
    override reference gets it as its id, unchanged. The constructors
    leave the id empty, and neither normalization nor rendering (whose
    only effect on the document is normalization) changes the id of a
    block or of a transaction. *)
Theorem id_prefixing
  (g : Globals) (x x' : SepaDocument.t) (p1 p2 p3 po pi : SepaPaymentInfo.t)
  (pmt : SepaTransaction.t) (ref painFormat : jsstring) :
  ID_SEPARATOR g = str "." ->
  SepaGroupHeader.id (SepaDocument.grpHdr x) = str "MSG1" ->
  SepaDocument._paymentInfo x = [] ->
  SepaPaymentInfo.id p1 = [] -> SepaPaymentInfo.overrideReference p1 = [] ->
  SepaPaymentInfo.id p2 = [] -> SepaPaymentInfo.overrideReference p2 = [] ->
  SepaPaymentInfo.id p3 = [] -> SepaPaymentInfo.overrideReference p3 = [] ->
  SepaPaymentInfo.overrideReference po <> [] ->
  SepaTransaction.overrideReference pmt = Some ref -> ref <> [] ->
  map SepaPaymentInfo.id
      (SepaDocument._paymentInfo
         (SepaDocument.addPaymentInfo g
            (SepaDocument.addPaymentInfo g
               (SepaDocument.addPaymentInfo g x p1) p2) p3))
  = [str "MSG1.0"; str "MSG1.1"; str "MSG1.2"]
  /\ map SepaPaymentInfo.id
         (SepaDocument._paymentInfo (SepaDocument.addPaymentInfo g x' po))
     = map SepaPaymentInfo.id (SepaDocument._paymentInfo x')
       ++ [SepaPaymentInfo.overrideReference po]
  /\ map SepaTransaction.id
         (SepaPaymentInfo._payments (SepaPaymentInfo.addTransaction g pi pmt))
     = map SepaTransaction.id (SepaPaymentInfo._payments pi) ++ [ref]
  /\ SepaPaymentInfo.id (SepaPaymentInfo.new painFormat) = []
  /\ SepaTransaction.id (SepaTransaction.new painFormat) = []
  /\ map SepaPaymentInfo.id
         (SepaDocument._paymentInfo (SepaDocument.normalize x'))
     = map SepaPaymentInfo.id (SepaDocument._paymentInfo x')
  /\ map (fun b => map SepaTransaction.id (SepaPaymentInfo._payments b))
         (SepaDocument._paymentInfo (SepaDocument.normalize x'))
     = map (fun b => map SepaTransaction.id (SepaPaymentInfo._payments b))
           (SepaDocument._paymentInfo x')
  /\ fst (SepaDocument.toXML g x') = SepaDocument.normalize x'.
Proof.
  intros Hsep Hid Hempty I1 O1 I2 O2 I3 O3 Opo Opmt Href.
  split.
  { rewrite !addPaymentInfo_ids.
    destruct (addPaymentInfo_frame g x p1) as [G1 _].
    destruct (addPaymentInfo_frame g (SepaDocument.addPaymentInfo g x p1) p2)
      as [G2 _].
    rewrite G2, G1, Hid, Hsep, I1, O1, I2, O2, I3, O3.
    unfold SepaDocument.addPaymentInfo.
    cbn [SepaDocument._paymentInfo SepaDocument.update].
    rewrite Hempty. reflexivity. }
  split.
  { rewrite addPaymentInfo_ids.
    now rewrite (proj2 (nonempty_true _) Opo). }
  split.
  { rewrite addTransaction_ids, Opmt.
    unfold nullable_truthy. cbn [of_nullable truthy to_string].
    fold (nonempty ref). now rewrite (proj2 (nonempty_true _) Href). }
  split; [reflexivity |]. split; [reflexivity |].
  destruct (normalize_keeps_ids x') as [N1 N2].
  split; [exact N1 |]. split; [exact N2 |]. reflexivity.
Qed.

End Identifiers.

Lemma id_prefixing_witness :
  map SepaPaymentInfo.id
      (SepaDocument._paymentInfo
         (SepaDocument.addPaymentInfo initial_globals
            (SepaDocument.addPaymentInfo initial_globals
               (SepaDocument.addPaymentInfo initial_globals
                  (Sample.document DEFAULT_PAIN_FORMAT (str "MSG1"))
                  (Sample.block DEFAULT_PAIN_FORMAT))
               (Sample.block DEFAULT_PAIN_FORMAT))
            (Sample.block DEFAULT_PAIN_FORMAT)))
  = [str "MSG1.0"; str "MSG1.1"; str "MSG1.2"].
Proof.
  refine (proj1 (id_prefixing initial_globals
                   (Sample.document DEFAULT_PAIN_FORMAT (str "MSG1"))
                   (Sample.document DEFAULT_PAIN_FORMAT (str "MSG1"))
                   (Sample.block DEFAULT_PAIN_FORMAT)
                   (Sample.block DEFAULT_PAIN_FORMAT)
                   (Sample.block DEFAULT_PAIN_FORMAT)
                   (Sample.block_with DEFAULT_PAIN_FORMAT [] (str "REF"))
                   (Sample.block DEFAULT_PAIN_FORMAT)
                   (Sample.transaction (str "E2E") (str "M1") 1000 []
                      (Some (str "REF")))
                   (str "REF") DEFAULT_PAIN_FORMAT
                   _ _ _ _ _ _ _ _ _ _ _ _));
    try reflexivity; discriminate.
Defined.

(** ** XML rendering: the shape of the trees *)

Lemma tagName_helper (required withVal : bool) (node : Element)
  (q : jsstring) (names : list jsstring) (last : value)
  (k : Element -> Element) :
  tagName (createXMLHelper required withVal node (q :: names) last k)
  = tagName node.
Proof.
  unfold createXMLHelper.
  destruct (required || _ || _); reflexivity.
Qed.

Lemma child_tags_appendChild (parent child : Element) :
  child_tags (appendChild parent child)
  = child_tags parent ++ [tagName child].
Proof. unfold child_tags. cbn. now rewrite map_app. Qed.

Section Rendering.
Context {R : Runtime}.

(** A rendered transaction is an element named after the transaction
    type. *)
Lemma transaction_tagName (g : Globals) (x : SepaTransaction.t)
  (node : Element) :
  SepaTransaction.toXML g x = Ok node ->
  tagName node = type_string (SepaTransaction._type x).
Proof.
  unfold SepaTransaction.toXML.
  destruct (if VALIDATIONS_ENABLED g then SepaTransaction.validate x
            else Ok tt) as [[] | e]; cbn [bind]; [| discriminate].
  destruct (nonempty (SepaTransaction.pullBIC x));
    destruct (negb (SepaTransaction.is_transfer x)).
  all: try (destruct (toISOString (SepaTransaction.mandateSignatureDate x));
            cbn [bind]; [| discriminate]).
  all: cbn [bind]; intros H; injection H as <-.
  all: unfold o_, r_, n_; now rewrite !tagName_helper.
Qed.

Lemma append_transactions_tags (g : Globals)
  (payments : list SepaTransaction.t) (pmtInf node : Element) :
  SepaPaymentInfo.append_transactions g pmtInf payments = Ok node ->
  child_tags node
  = child_tags pmtInf
    ++ map (fun pmt => type_string (SepaTransaction._type pmt)) payments.
Proof.
  revert pmtInf.
  induction payments as [| pmt rest IH]; intros pmtInf;
    cbn [SepaPaymentInfo.append_transactions map].
  - intros H. injection H as <-. now rewrite app_nil_r.
  - destruct (SepaTransaction.toXML g pmt) as [txInf |] eqn:E; cbn [bind];
      [| discriminate].
    intros H. rewrite (IH _ H), child_tags_appendChild.
    rewrite (transaction_tagName g pmt txInf E).
    now rewrite <- app_assoc.
Qed.

(** The children of a rendered block. *)
Lemma payment_info_child_tags (g : Globals) (x : SepaPaymentInfo.t)
  (node : Element) :
  SepaPaymentInfo.toXML g x = Ok node ->
  child_tags node
  = [str "PmtInfId"; str "PmtMtd"]
    ++ (if num_is (getPainXMLVersion (SepaPaymentInfo._painFormat x)) 3
        then [str "BtchBookg"; str "NbOfTxs"; str "CtrlSum"] else [])
    ++ (if SepaPaymentInfo.is_direct_debit x
        then [str "PmtTpInf"; str "ReqdColltnDt"; str "Cdtr"; str "CdtrAcct";
              str "CdtrAgt"; str "ChrgBr"; str "CdtrSchmeId"]
        else [str "PmtTpInf"; str "ReqdExctnDt"; str "Dbtr"; str "DbtrAcct";
              str "DbtrAgt"; str "ChrgBr"])
    ++ map (fun pmt => type_string (SepaTransaction._type pmt))
           (SepaPaymentInfo._payments x).
Proof.
  unfold SepaPaymentInfo.toXML.
  destruct (if VALIDATIONS_ENABLED g then SepaPaymentInfo.validate x
            else Ok tt) as [[] | e]; cbn [bind]; [| discriminate].
  destruct (num_is (getPainXMLVersion (SepaPaymentInfo._painFormat x)) 3);
    destruct (nonempty (SepaPaymentInfo.categoryPurpose x));
    destruct (SepaPaymentInfo.is_direct_debit x);
    destruct (nullable_truthy (SepaPaymentInfo.pullStreet x)
              && nullable_truthy (SepaPaymentInfo.pullCity x)
              && nullable_truthy (SepaPaymentInfo.pullCountry x));
    destruct (nonempty (SepaPaymentInfo.pullBIC x));
    destruct (nonempty (SepaPaymentInfo.pullMemberId x));
    (destruct (toISOString _) as [dt |]; cbn [bind]; [| discriminate]);
    intros H; rewrite (append_transactions_tags _ _ _ _ H); reflexivity.
Qed.

End Rendering.

Lemma has_child_tags (q : jsstring) (e : Element) :
  has_child q e = existsb (fun tag => jsstring_eqb tag q) (child_tags e).
Proof.
  unfold has_child, child_tags.
  induction (childNodes e) as [| c cs IH]; cbn [existsb map].
  - reflexivity.
  - now rewrite IH.
Qed.

Section Gating.
Context {R : Runtime}.

(** The children of a rendered group header. *)
Lemma group_header_child_tags (x : SepaGroupHeader.t) (node : Element) :
  SepaGroupHeader.toXML x = Ok node ->
  child_tags node
  = [str "MsgId"; str "CreDtTm"]
    ++ (if num_is (getPainXMLVersion (SepaGroupHeader._painFormat x)) 2
        then [str "BtchBookg"; str "NbOfTxs"; str "CtrlSum"; str "Grpg"]
        else [str "NbOfTxs"; str "CtrlSum"])
    ++ [str "InitgPty"].
Proof.
  unfold SepaGroupHeader.toXML.
  destruct (toISOString (SepaGroupHeader.created x)) as [creDtTm |];
    cbn [bind]; [| discriminate].
  destruct (num_is (getPainXMLVersion (SepaGroupHeader._painFormat x)) 2);
    destruct (nonempty (SepaGroupHeader.cifNumber x));
    destruct (nonempty (SepaGroupHeader.cucNumber x));
    intros H; injection H as <-; reflexivity.
Qed.

Lemma transaction_tags_not_gated (q : jsstring)
  (payments : list SepaTransaction.t) :
  In q gated_nodes ->
  existsb (fun tag => jsstring_eqb tag q)
          (map (fun pmt => type_string (SepaTransaction._type pmt)) payments)
  = false.
Proof.
  intros Hq. induction payments as [| pmt rest IH]; cbn [map existsb].
  - reflexivity.
  - rewrite IH, orb_false_r.
    cbn in Hq.
    destruct (SepaTransaction._type pmt);
      intuition (subst; reflexivity).
Qed.

(** Where a rendered block has each of the gated nodes. *)
Lemma payment_info_gated (g : Globals) (x : SepaPaymentInfo.t)
  (node : Element) (q : jsstring) :
  SepaPaymentInfo.toXML g x = Ok node ->
  In q gated_nodes ->
  has_child q node
  = num_is (getPainXMLVersion (SepaPaymentInfo._painFormat x)) 3
    && negb (jsstring_eqb q (str "Grpg")).
Proof.
  intros H Hq. rewrite has_child_tags, (payment_info_child_tags g x node H).
  rewrite !existsb_app, (transaction_tags_not_gated q _ Hq), orb_false_r.
  cbn in Hq.
  destruct (num_is _ 3); destruct (SepaPaymentInfo.is_direct_debit x);
    intuition (subst; reflexivity).
Qed.

(** Where a rendered group header has each of the gated nodes. *)
Lemma group_header_gated (x : SepaGroupHeader.t) (node : Element)
  (q : jsstring) :
  SepaGroupHeader.toXML x = Ok node ->
  In q gated_nodes ->
  has_child q node
  = num_is (getPainXMLVersion (SepaGroupHeader._painFormat x)) 2
    || jsstring_eqb q (str "NbOfTxs") || jsstring_eqb q (str "CtrlSum").
Proof.
  intros H Hq. rewrite has_child_tags, (group_header_child_tags x node H).
  cbn in Hq.
  destruct (num_is _ 2); intuition (subst; reflexivity).
Qed.

Lemma append_payment_infos_children (g : Globals)
  (blocks : list SepaPaymentInfo.t) (rootElement node : Element) :
  SepaDocument.append_payment_infos g rootElement blocks = Ok node ->
  exists pmtInfNodes,
    childNodes node = childNodes rootElement ++ pmtInfNodes
    /\ Forall2 (fun pi pmtInf => SepaPaymentInfo.toXML g pi = Ok pmtInf)
               blocks pmtInfNodes.
Proof.
  revert rootElement.
  induction blocks as [| pi rest IH]; intros rootElement;
    cbn [SepaDocument.append_payment_infos].
  - intros H. injection H as <-. exists []. split.
    + now rewrite app_nil_r.
    + constructor.
  - destruct (SepaPaymentInfo.toXML g pi) as [pmtInf |] eqn:E; cbn [bind];
      [| discriminate].
    intros H. destruct (IH _ H) as [nodes [Hc Hf]].
    exists (pmtInf :: nodes). split.
    + rewrite Hc. cbn. now rewrite <- app_assoc.
    + now constructor.
Qed.

(** A rendered document: [Document] holds the root business element, whose
    children are the rendering of the header and of each block, taken
    after normalization. *)
Lemma document_levels (g : Globals) (x : SepaDocument.t)
  (xml : XMLDocument) :
  snd (SepaDocument.toXML g x) = Ok xml ->
  exists grpHdrNode pmtInfNodes,
    rendered_levels xml = Some (grpHdrNode, pmtInfNodes)
    /\ SepaGroupHeader.toXML (SepaDocument.grpHdr (SepaDocument.normalize x))
       = Ok grpHdrNode
    /\ Forall2 (fun pi pmtInf => SepaPaymentInfo.toXML g pi = Ok pmtInf)
               (SepaDocument._paymentInfo (SepaDocument.normalize x))
               pmtInfNodes.
Proof.
  unfold SepaDocument.toXML. cbn [snd].
  destruct (SepaDocument._type (SepaDocument.normalize x)) as [type_ |];
    [| discriminate].
  destruct (SepaGroupHeader.toXML _) as [grpHdrNode |]; cbn [bind];
    [| discriminate].
  destruct (SepaDocument.append_payment_infos _ _ _) as [root |] eqn:E;
    cbn [bind]; [| discriminate].
  intros H. injection H as <-.
  destruct (append_payment_infos_children _ _ _ _ E) as [nodes [Hc Hf]].
  exists grpHdrNode, nodes. split; [| split; [reflexivity | exact Hf]].
  unfold rendered_levels. cbn. now rewrite Hc.
Qed.

(** C2, as the code has it. Version gating goes by the format of each
    entity, not by the format of the document. In a rendered document the
    [GrpHdr] node always has [NbOfTxs] and [CtrlSum], and has [BtchBookg]
    and [Grpg] exactly when the format of the group header resolves to
    version 2; the [PmtInf] node of a block never has [Grpg], and has
    [BtchBookg], [NbOfTxs] and [CtrlSum] exactly when the format of that
    block resolves to version 3. [addPaymentInfo] takes a block of any
    format, so the placement follows the format of the document only
    when the header and every block carry that format ([uniform_format],
    as they do when the blocks come from [createPaymentInfo]): then, when
    it resolves to version 2, the four nodes are children of [GrpHdr] and
    of no [PmtInf]; when it resolves to version 3, [BtchBookg] is a child
    of every [PmtInf] and not of [GrpHdr], [NbOfTxs] and [CtrlSum] are
    children of [GrpHdr] and of every [PmtInf], and [Grpg] is a child of
    neither. *)
Theorem version_gating (g : Globals) (x : SepaDocument.t)
  (xml : XMLDocument) :
  snd (SepaDocument.toXML g x) = Ok xml ->
  exists grpHdrNode pmtInfNodes,
    rendered_levels xml = Some (grpHdrNode, pmtInfNodes)
    /\ length pmtInfNodes = length (SepaDocument._paymentInfo x)
    /\ gated_by_header (SepaDocument.grpHdr x) grpHdrNode
    /\ Forall2 gated_by_block (SepaDocument._paymentInfo x) pmtInfNodes
    /\ (uniform_format x ->
        (getPainXMLVersion (SepaDocument._painFormat x) = Some 2 ->
         forall q, In q gated_nodes ->
                   at_header_only q grpHdrNode pmtInfNodes)
        /\ (getPainXMLVersion (SepaDocument._painFormat x) = Some 3 ->
            at_blocks_only (str "BtchBookg") grpHdrNode pmtInfNodes
            /\ at_both_levels (str "NbOfTxs") grpHdrNode pmtInfNodes
            /\ at_both_levels (str "CtrlSum") grpHdrNode pmtInfNodes
            /\ at_neither_level (str "Grpg") grpHdrNode pmtInfNodes)).
Proof.
  intros Hxml.
  destruct (document_levels g x xml Hxml) as [gh [pis [Hl [Hg Hf]]]].
  exists gh, pis. split; [exact Hl |].
  rewrite document_normalize_unfold in Hg, Hf.
  cbn [SepaDocument.grpHdr SepaDocument._paymentInfo SepaDocument.update]
    in Hg, Hf.
  assert (Hlen : length pis = length (SepaDocument._paymentInfo x)).
  { apply Forall2_length in Hf. now rewrite length_map in Hf. }
  split; [exact Hlen |].
  assert (Hheader : forall q, In q gated_nodes ->
            has_child q gh
            = num_is (getPainXMLVersion
                        (SepaGroupHeader._painFormat (SepaDocument.grpHdr x)))
                     2
              || jsstring_eqb q (str "NbOfTxs")
              || jsstring_eqb q (str "CtrlSum")).
  { intros q Hq. now rewrite (group_header_gated _ gh q Hg Hq). }
  assert (Hblocks : Forall2
            (fun pi p => forall q, In q gated_nodes ->
               has_child q p
               = num_is (getPainXMLVersion (SepaPaymentInfo._painFormat pi)) 3
                 && negb (jsstring_eqb q (str "Grpg")))
            (SepaDocument._paymentInfo x) pis).
  { clear Hlen Hl Hg Hheader. revert pis Hf.
    induction (SepaDocument._paymentInfo x) as [| pi rest IH]; intros pis Hf;
      cbn [map] in Hf; inversion Hf as [| ? node ? nodes Hr Hrest]; subst;
      constructor; [| now apply IH].
    intros q Hq. now rewrite (payment_info_gated g _ node q Hr Hq). }
  split; [| split].
  - unfold gated_by_header. rewrite !Hheader by (cbn; tauto).
    destruct (num_is _ 2); repeat split; reflexivity.
  - eapply Forall2_impl; [| exact Hblocks]. intros pi p H. cbv beta in H.
    unfold gated_by_block. rewrite !H by (cbn; tauto).
    destruct (num_is _ 3); repeat split; reflexivity.
  - intros [Hgh Hpi].
    assert (Hb : forall q b, In q gated_nodes ->
              num_is (getPainXMLVersion (SepaDocument._painFormat x)) 3
              && negb (jsstring_eqb q (str "Grpg")) = b ->
              Forall (fun p => has_child q p = b) pis).
    { intros q b Hq <-. clear Hlen Hl Hg Hheader Hf.
      induction Hblocks as [| pi p rest ps Hp _ IH]; [constructor |].
      inversion Hpi as [| ? ? Hfmt Hrest]; subst.
      constructor; [| now apply IH].
      now rewrite (Hp q Hq), Hfmt. }
    rewrite Hgh in Hheader. split.
    + intros Hv q Hq. split.
      * rewrite (Hheader q Hq), Hv. reflexivity.
      * apply (Hb q false Hq). now rewrite Hv.
    + intros Hv.
      unfold at_blocks_only, at_both_levels, at_neither_level.
      rewrite !Hheader by (cbn; tauto). rewrite Hv.
      repeat split; try reflexivity;
        (apply Hb; [cbn; tauto | rewrite Hv; reflexivity]).
Qed.

End Gating.

Lemma version_gating_witness :
  exists grpHdrNode pmtInfNodes,
    rendered_levels filled_document_xml = Some (grpHdrNode, pmtInfNodes)
    /\ length pmtInfNodes = 1%nat
    /\ at_blocks_only (str "BtchBookg") grpHdrNode pmtInfNodes
    /\ at_both_levels (str "NbOfTxs") grpHdrNode pmtInfNodes
    /\ at_both_levels (str "CtrlSum") grpHdrNode pmtInfNodes
    /\ at_neither_level (str "Grpg") grpHdrNode pmtInfNodes.
Proof.
  destruct (version_gating initial_globals
              (filled_document DEFAULT_PAIN_FORMAT) filled_document_xml)
    as [gh [pis [Hl [Hlen [_ [_ Hu]]]]]].
  - vm_compute. reflexivity.
  - exists gh, pis. split; [exact Hl |]. split; [exact Hlen |].
    apply Hu.
    + split; [reflexivity | repeat constructor].
    + vm_compute. reflexivity.
Defined.

(** Version 2 at work: the four nodes under [GrpHdr] and under no
    [PmtInf]. *)
Example version_2_rendering :
  exists grpHdrNode pmtInfNodes,
    rendered_levels filled_document_v2_xml = Some (grpHdrNode, pmtInfNodes)
    /\ forallb (fun q => has_child q grpHdrNode
                         && forallb (fun p => negb (has_child q p))
                                    pmtInfNodes)
               gated_nodes = true.
Proof. vm_compute. eexists _, _. split; reflexivity. Qed.

(** Mixed formats at work: a document of format [pain.008.001.01]
    (version 2) that holds a block of format [pain.008.001.02] (version 3)
    renders, and [BtchBookg], [NbOfTxs] and [CtrlSum] are under [GrpHdr]
    and under the [PmtInf] at once. *)
Example mixed_format_rendering :
  snd (SepaDocument.toXML initial_globals mixed_document)
  = Ok mixed_document_xml
  /\ getPainXMLVersion (SepaDocument._painFormat mixed_document) = Some 2
  /\ exists grpHdrNode pmtInfNode,
       rendered_levels mixed_document_xml = Some (grpHdrNode, [pmtInfNode])
       /\ forallb (fun q => has_child q grpHdrNode
                            && has_child q pmtInfNode)
                  [str "BtchBookg"; str "NbOfTxs"; str "CtrlSum"] = true.
Proof.
  split; [vm_compute; reflexivity |].
  split; [vm_compute; reflexivity |].
  vm_compute. eexists _, _. split; reflexivity.
Qed.

(** The default format resolves to version 3, and the rendering of a
    well-formed document in it has [NbOfTxs] under [GrpHdr]: the four nodes
    are not under the payment-info blocks only. *)
Lemma version_gating_counterexample :
  ~ version_gating_as_worded initial_globals
      (filled_document DEFAULT_PAIN_FORMAT).
Proof.
  intros H.
  destruct (rendered_levels filled_document_xml) as [[gh pis] |] eqn:L;
    [| vm_compute in L; discriminate].
  destruct (H filled_document_xml gh pis ltac:(vm_compute; reflexivity) L)
    as [_ H3].
  destruct (H3 ltac:(vm_compute; reflexivity) (str "NbOfTxs")
               ltac:(cbn; tauto)) as [Hgh _].
  vm_compute in L. injection L as <- <-.
  vm_compute in Hgh. discriminate.
Qed.

(** ** Rendering without validation *)

Section Bypass.
Context {R : Runtime}.

Lemma toISOString_valid (dt : option Date) :
  valid_date dt = true -> exists iso, toISOString dt = Ok iso.
Proof.
  destruct dt as [[[t |]] |]; try discriminate.
  intros _. now exists (time_toISOString t).
Qed.

(** Unfolds a rendered tree down to the list of the elements below it. *)
Ltac flatten_tree :=
  cbv [occurs_in leaf o_ r_ n_ createXMLHelper build_chain appendChild
       setTextContent setAttribute createElement childNodes tagName
       attributes textContent descendants flat_map app orb andb In].

Ltac find_element :=
  repeat first [ left; reflexivity | right ].

Lemma transaction_renders_verbatim (g : Globals) (x : SepaTransaction.t) :
  VALIDATIONS_ENABLED g = false ->
  (SepaTransaction.is_transfer x = false ->
   valid_date (SepaTransaction.mandateSignatureDate x) = true) ->
  exists txInf,
    SepaTransaction.toXML g x = Ok txInf
    /\ occurs_in (leaf (str "InstdAmt")
                       [(str "Ccy", SepaTransaction.currency x)]
                       (VStr (toFixed2 (SepaTransaction.amount x)))) txInf
    /\ occurs_in (leaf (str "IBAN") [] (VStr (SepaTransaction.pullIBAN x)))
                 txInf
    /\ (SepaTransaction.pullBIC x <> [] ->
        occurs_in (leaf (str "BIC") [] (VStr (SepaTransaction.pullBIC x)))
                  txInf).
Proof.
  intros Hoff Hdate. unfold SepaTransaction.toXML. rewrite Hoff.
  cbn [bind].
  destruct (SepaTransaction.is_transfer x) eqn:Ht; cbn [negb bind].
  - eexists. split; [reflexivity |].
    destruct (nonempty (SepaTransaction.pullBIC x)) eqn:Hb;
      destruct (nullable_truthy (SepaTransaction.pullStreet x)
                && nullable_truthy (SepaTransaction.pullCity x)
                && nullable_truthy (SepaTransaction.pullCountry x));
      destruct (SepaTransaction.purposeCode x) as [[| c code] |];
      cbn [of_nullable truthy jsstring_eqb negb strict_eqb];
      (split; [flatten_tree; find_element |]);
      (split; [flatten_tree; find_element |]);
      intros Hne; try (apply nonempty_true in Hne; congruence);
      flatten_tree; find_element.
  - destruct (toISOString_valid _ (Hdate eq_refl)) as [iso ->].
    cbn [bind].
    eexists. split; [reflexivity |].
    destruct (nonempty (SepaTransaction.pullBIC x)) eqn:Hb;
      destruct (nonempty (SepaTransaction.ammendment x));
      destruct (nullable_truthy (SepaTransaction.pullStreet x)
                && nullable_truthy (SepaTransaction.pullCity x)
                && nullable_truthy (SepaTransaction.pullCountry x));
      destruct (SepaTransaction.purposeCode x) as [[| c code] |];
      cbn [of_nullable truthy jsstring_eqb negb strict_eqb];
      (split; [flatten_tree; find_element |]);
      (split; [flatten_tree; find_element |]);
      intros Hne; try (apply nonempty_true in Hne; congruence);
      flatten_tree; find_element.
Qed.

Lemma append_transactions_renders (g : Globals)
  (payments : list SepaTransaction.t) (pmtInf : Element) :
  VALIDATIONS_ENABLED g = false ->
  Forall renderable payments ->
  exists node,
    SepaPaymentInfo.append_transactions g pmtInf payments = Ok node
    /\ (forall e, occurs_in e pmtInf -> occurs_in e node)
    /\ (forall e, In e (childNodes pmtInf) -> In e (childNodes node)).
Proof.
  intros Hoff Hall. revert pmtInf.
  induction Hall as [| pmt rest Hpmt _ IH]; intros pmtInf;
    cbn [SepaPaymentInfo.append_transactions].
  - exists pmtInf. auto.
  - destruct (transaction_renders_verbatim g pmt Hoff Hpmt) as [txInf [-> _]].
    cbn [bind].
    destruct (IH (appendChild pmtInf txInf)) as [node [E [Ho Hc]]].
    exists node. split; [exact E |]. split.
    + intros e He. apply Ho. unfold occurs_in in *. cbn [appendChild childNodes].
      rewrite flat_map_app. apply in_or_app. now left.
    + intros e He. apply Hc. cbn [appendChild childNodes].
      apply in_or_app. now left.
Qed.

Lemma payment_info_renders_verbatim (g : Globals) (x : SepaPaymentInfo.t) :
  VALIDATIONS_ENABLED g = false ->
  valid_date (if SepaPaymentInfo.is_direct_debit x
              then SepaPaymentInfo.collectionDate x
              else SepaPaymentInfo.requestedExecutionDate x) = true ->
  Forall renderable (SepaPaymentInfo._payments x) ->
  exists pmtInf,
    SepaPaymentInfo.toXML g x = Ok pmtInf
    /\ occurs_in (leaf (str "IBAN") [] (VStr (SepaPaymentInfo.pullIBAN x)))
                 pmtInf
    /\ (SepaPaymentInfo.pullBIC x <> [] ->
        occurs_in (leaf (str "BIC") [] (VStr (SepaPaymentInfo.pullBIC x)))
                  pmtInf)
    /\ (num_is (getPainXMLVersion (SepaPaymentInfo._painFormat x)) 3 = true ->
        In (leaf (str "NbOfTxs") []
                 (VInt (Z.of_nat (length (SepaPaymentInfo._payments x)))))
           (childNodes pmtInf)).
Proof.
  intros Hoff Hdate Hall. unfold SepaPaymentInfo.toXML. rewrite Hoff.
  cbn [bind]. unfold SepaPaymentInfo.transactionCount.
  destruct (SepaPaymentInfo.is_direct_debit x) eqn:Hdd;
    destruct (toISOString_valid _ Hdate) as [iso ->]; cbn [bind];
    destruct (num_is (getPainXMLVersion (SepaPaymentInfo._painFormat x)) 3);
    destruct (nonempty (SepaPaymentInfo.categoryPurpose x));
    destruct (nullable_truthy (SepaPaymentInfo.pullStreet x)
              && nullable_truthy (SepaPaymentInfo.pullCity x)
              && nullable_truthy (SepaPaymentInfo.pullCountry x));
    destruct (nonempty (SepaPaymentInfo.pullBIC x)) eqn:Hb;
    destruct (nonempty (SepaPaymentInfo.pullMemberId x));
    match goal with
    | |- context [SepaPaymentInfo.append_transactions g ?p ?l] =>
        destruct (append_transactions_renders g l p Hoff Hall)
          as [node [-> [Ho Hc]]]
    end;
    exists node; (split; [reflexivity |]);
    (split; [apply Ho; flatten_tree; find_element |]);
    (split; [intros Hne; try (apply nonempty_true in Hne; congruence);
             apply Ho; flatten_tree; find_element |]);
    intros Hv; try discriminate;
    apply Hc; flatten_tree; find_element.
Qed.

Lemma empty_block_has_no_transaction (g : Globals) (x : SepaPaymentInfo.t)
  (pmtInf : Element) (ty : TransactionTypes) :
  SepaPaymentInfo.toXML g x = Ok pmtInf ->
  SepaPaymentInfo._payments x = [] ->
  has_child (type_string ty) pmtInf = false.
Proof.
  intros H Hempty.
  rewrite has_child_tags, (payment_info_child_tags g x pmtInf H), Hempty.
  destruct (num_is _ 3); destruct (SepaPaymentInfo.is_direct_debit x);
    destruct ty; reflexivity.
Qed.

(** C9. Validation bypass: after [enableValidations(false)] the switch is
    off, and then a transaction renders whatever its amount and its bank
    identifier, with the amount as [toFixed(2)] prints it under [InstdAmt]
    and the IBAN and the BIC as they are; a block renders whatever its
    bank identifier and however many transactions it has, with IBAN and BIC
    as they are, with the count of its transactions under [NbOfTxs] in
    version 3, and with no transaction node when it has no transaction.
    The dates that the rendering formats are valid dates. *)
Theorem validation_bypass (g : Globals) (pmt : SepaTransaction.t)
  (x : SepaPaymentInfo.t) :
  renderable pmt ->
  valid_date (if SepaPaymentInfo.is_direct_debit x
              then SepaPaymentInfo.collectionDate x
              else SepaPaymentInfo.requestedExecutionDate x) = true ->
  Forall renderable (SepaPaymentInfo._payments x) ->
  let off := enableValidations (VBool false) g in
  VALIDATIONS_ENABLED off = false
  /\ (exists txInf,
        SepaTransaction.toXML off pmt = Ok txInf
        /\ occurs_in (leaf (str "InstdAmt")
                           [(str "Ccy", SepaTransaction.currency pmt)]
                           (VStr (toFixed2 (SepaTransaction.amount pmt))))
                     txInf
        /\ occurs_in (leaf (str "IBAN") []
                           (VStr (SepaTransaction.pullIBAN pmt))) txInf
        /\ (SepaTransaction.pullBIC pmt <> [] ->
            occurs_in (leaf (str "BIC") []
                            (VStr (SepaTransaction.pullBIC pmt))) txInf))
  /\ (exists pmtInf,
        SepaPaymentInfo.toXML off x = Ok pmtInf
        /\ occurs_in (leaf (str "IBAN") []
                           (VStr (SepaPaymentInfo.pullIBAN x))) pmtInf
        /\ (SepaPaymentInfo.pullBIC x <> [] ->
            occurs_in (leaf (str "BIC") []
                            (VStr (SepaPaymentInfo.pullBIC x))) pmtInf)
        /\ (num_is (getPainXMLVersion (SepaPaymentInfo._painFormat x)) 3
            = true ->
            In (leaf (str "NbOfTxs") []
                     (VInt (Z.of_nat (length (SepaPaymentInfo._payments x)))))
               (childNodes pmtInf))
        /\ (SepaPaymentInfo._payments x = [] ->
            forall ty, has_child (type_string ty) pmtInf = false)).
Proof.
  intros Hpmt Hdate Hall off.
  assert (Hoff : VALIDATIONS_ENABLED off = false) by reflexivity.
  split; [exact Hoff |]. split.
  - exact (transaction_renders_verbatim off pmt Hoff Hpmt).
  - destruct (payment_info_renders_verbatim off x Hoff Hdate Hall)
      as [pmtInf [E [Hi [Hb Hn]]]].
    exists pmtInf. repeat (split; [assumption |]).
    intros Hempty ty.
    exact (empty_block_has_no_transaction off x pmtInf ty E Hempty).
Qed.

End Bypass.

Lemma validation_bypass_witness :
  exists txInf pmtInf,
    SepaTransaction.toXML (enableValidations (VBool false) initial_globals)
                          malformed_transaction = Ok txInf
    /\ occurs_in (leaf (str "InstdAmt") [(str "Ccy", str "EUR")]
                       (VStr (str "0.00"))) txInf
    /\ occurs_in (leaf (str "BIC") [] (VStr (str "ABCDFRFFXXX"))) txInf
    /\ SepaPaymentInfo.toXML (enableValidations (VBool false) initial_globals)
                             malformed_block = Ok pmtInf
    /\ occurs_in (leaf (str "BIC") [] (VStr (str "ABCDFRFFXXX"))) pmtInf
    /\ In (leaf (str "NbOfTxs") [] (VInt 0)) (childNodes pmtInf)
    /\ has_child (str "DrctDbtTxInf") pmtInf = false.
Proof.
  destruct (validation_bypass initial_globals malformed_transaction
              malformed_block)
    as [_ [[txInf [Et [Ha [_ Hb]]]] [pmtInf [Ep [_ [Hpb [Hn Hz]]]]]]].
  - intros _. reflexivity.
  - reflexivity.
  - constructor.
  - exists txInf, pmtInf.
    split; [exact Et |]. split; [exact Ha |].
    split; [apply Hb; discriminate |].
    split; [exact Ep |].
    split; [apply Hpb; discriminate |].
    split; [apply Hn; reflexivity |].
    exact (Hz eq_refl DrctDbtTxInf).
Defined.

(** With the switch on, the transaction of amount 0.00 and the mismatching
    bank identifier are rejected. *)
Example malformed_entities_rejected :
  SepaTransaction.validate malformed_transaction
  = Throw (Error (str "amount does not match range 0.01 < 0 < 999999999.99"))
  /\ succeeds (SepaTransaction.validate
                 (Sample.transaction (str "E2E") (str "M1") 1000
                    (str "ABCDFRFFXXX") None)) = false
  /\ succeeds (SepaPaymentInfo.validate malformed_block) = false
  /\ succeeds (SepaTransaction.toXML initial_globals malformed_transaction)
     = false.
Proof. vm_compute. repeat split; reflexivity. Qed.

(* ================================================================== *)
(** * Further properties of the code *)

(** ** Checksum engine *)

Lemma parseInt_not_digit (c : Z) : is_digit c = false -> parseInt [c] = None.
Proof.
  intros H. unfold parseInt. cbn [trimStart].
  destruct (is_whitespace c); [reflexivity |].
  destruct (Z.eq_dec c 45) as [-> | N45]; [reflexivity |].
  destruct (Z.eq_dec c 43) as [-> | N43]; [reflexivity |].
  assert (E : parse_digits None [c] = None)
    by (cbn [parse_digits]; now rewrite H).
  destruct c as [| p | p]; try exact E.
  do 7 (try destruct p as [p | p |]); try exact E; try reflexivity;
    contradiction.
Qed.

Lemma _txtMod97_NaN (s : jsstring) :
  fold_left _txtMod97_step s None = None.
Proof. induction s as [| c s IH]; [reflexivity | exact IH]. Qed.

Lemma _txtMod97_fold_value (s : jsstring) (v : Z) :
  0 <= v ->
  fold_left _txtMod97_step s (Some (v mod 97))
  = if forallb is_digit s
    then Some (fold_left (fun acc c => 10 * acc + (c - 48)) s v mod 97)
    else None.
Proof.
  revert v. induction s as [| c s IH]; intros v Hv; cbn [fold_left forallb].
  - reflexivity.
  - destruct (is_digit c) eqn:Hc; cbn [andb].
    + rewrite _txtMod97_step_digit by exact Hc.
      pose proof (proj1 (is_digit_range c) Hc) as Rc.
      pose proof (Z.mod_pos_bound v 97 ltac:(lia)) as Rv.
      rewrite Z.rem_mod_nonneg by lia.
      replace ((v mod 97 * 10 + (c - 48)) mod 97)
        with ((10 * v + (c - 48)) mod 97).
      * apply IH. lia.
      * rewrite (Z.add_mod (v mod 97 * 10)), (Z.mul_mod (v mod 97)) by lia.
        rewrite Z.mod_mod by lia.
        rewrite <- Z.mul_mod, <- Z.add_mod by lia. f_equal. lia.
    + unfold _txtMod97_step at 2. rewrite (parseInt_not_digit c Hc).
      apply _txtMod97_NaN.
Qed.

(** X1. [_txtMod97] is the residue modulo 97 of the number that its
    argument writes in decimal, and NaN as soon as one character is not a
    decimal digit. *)
Theorem _txtMod97_value (s : jsstring) :
  _txtMod97 s
  = if forallb is_digit s then Some (decimal_value s mod 97) else None.
Proof.
  unfold _txtMod97, decimal_value.
  change (Some 0) with (Some (0 mod 97)).
  apply _txtMod97_fold_value. lia.
Qed.

Lemma replace_unit_not_alnum (c : Z) : is_alnum c = false -> replace_unit c = [].
Proof.
  unfold is_alnum, replace_unit, _replaceChars_step. intros H.
  apply orb_false_iff in H. destruct H as [H H3].
  apply orb_false_iff in H. destruct H as [H1 H2].
  now rewrite H1, H2, H3.
Qed.

Lemma _replaceChars_filter (s : jsstring) :
  _replaceChars (filter is_alnum s) = _replaceChars s.
Proof.
  rewrite !_replaceChars_flat_map.
  induction s as [| c s IH]; cbn [filter flat_map]; [reflexivity |].
  destruct (is_alnum c) eqn:E; cbn [flat_map]; rewrite IH.
  - reflexivity.
  - now rewrite (replace_unit_not_alnum c E).
Qed.

Lemma rotate_head_tail (h t : jsstring) :
  length h = 4%nat -> skipn 4 (h ++ t) ++ firstn 4 (h ++ t) = t ++ h.
Proof.
  intros H. destruct h as [| a [| b [| c [| d [| e h]]]]]; try discriminate.
  reflexivity.
Qed.

(** X2. Separators in the account part. [_replaceChars] drops every
    character that is not a letter a-z, A-Z or a digit, so [validateIBAN]
    returns the same with or without such characters from the fifth
    character on (an IBAN printed in groups of four validates as
    written). *)
Theorem validateIBAN_ignores_separators (s : jsstring) :
  _replaceChars (filter is_alnum s) = _replaceChars s
  /\ validateIBAN (firstn 4 s ++ filter is_alnum (skipn 4 s)) = validateIBAN s.
Proof.
  split; [apply _replaceChars_filter |].
  destruct (Nat.le_gt_cases 4 (length s)) as [Hlen | Hlen].
  - unfold validateIBAN. rewrite !substr_tail, !substr_head by lia.
    change (Z.to_nat 4) with 4%nat.
    rewrite rotate_head_tail by (rewrite length_firstn; lia).
    rewrite !_replaceChars_app, _replaceChars_filter. reflexivity.
  - rewrite (skipn_all2 s (n := 4)) by lia. cbn [filter].
    rewrite app_nil_r, firstn_all2 by lia. reflexivity.
Qed.

(** X3. The check digits of the input play no part in [checksumIBAN]: two
    inputs that differ in their third and fourth characters only have the
    same checksummed form, and checksumming twice is checksumming once. *)
Theorem checksumIBAN_ignores_check_digits
  (a b x y x' y' : Z) (t : jsstring) :
  checksumIBAN (a :: b :: x :: y :: t) = checksumIBAN (a :: b :: x' :: y' :: t)
  /\ checksumIBAN (checksumIBAN (a :: b :: x :: y :: t))
     = checksumIBAN (a :: b :: x :: y :: t).
Proof.
  assert (E : forall u v u' v',
             checksumIBAN (a :: b :: u :: v :: t)
             = checksumIBAN (a :: b :: u' :: v' :: t)).
  { intros. unfold checksumIBAN.
    rewrite !substr_tail, !substr_head by lia. reflexivity. }
  split; [apply E |].
  destruct (checksumIBAN_spliced (a :: b :: x :: y :: t)) as [u [v Hs]].
  cbn [firstn skipn app] in Hs. rewrite Hs at 1. apply E.
Qed.

Lemma in_digits_enum (c : Z) :
  is_digit c = true -> In c (map Z.of_nat (seq 48 10)).
Proof.
  intros H. apply is_digit_range in H. apply in_range_enum. lia.
Qed.

(** Among the pairs of digits that write a number from 2 to 98, the ones
    that [check_digits] computes are the only ones that bring the residue
    to 1. *)
Lemma check_digits_unique (b c1 c2 : Z) :
  0 <= b < 97 -> is_digit c1 = true -> is_digit c2 = true ->
  2 <= decimal_value [c1; c2] <= 98 ->
  fold_left _txtMod97_step [c1; c2] (Some b) = Some 1 ->
  check_digits (fold_left _txtMod97_step (str "00") (Some b)) = [c1; c2].
Proof.
  intros Hb H1 H2 Hk Hv.
  assert (E : forallb (fun r =>
                forallb (fun d1 =>
                  forallb (fun d2 =>
                    negb ((2 <=? decimal_value [d1; d2])
                          && (decimal_value [d1; d2] <=? 98)
                          && num_is (fold_left _txtMod97_step [d1; d2]
                                               (Some r)) 1)
                    || jsstring_eqb
                         (check_digits
                            (fold_left _txtMod97_step (str "00") (Some r)))
                         [d1; d2])
                    (map Z.of_nat (seq 48 10)))
                  (map Z.of_nat (seq 48 10)))
                (map Z.of_nat (seq 0 97)) = true)
    by (vm_compute; reflexivity).
  rewrite forallb_forall in E.
  specialize (E b (in_range_enum 0 97 b ltac:(lia))).
  rewrite forallb_forall in E. specialize (E c1 (in_digits_enum c1 H1)).
  rewrite forallb_forall in E. specialize (E c2 (in_digits_enum c2 H2)).
  rewrite Hv in E. cbn [num_is] in E.
  replace (2 <=? decimal_value [c1; c2]) with true in E
    by (symmetry; apply Z.leb_le; lia).
  replace (decimal_value [c1; c2] <=? 98) with true in E
    by (symmetry; apply Z.leb_le; lia).
  cbn in E. now apply jsstring_eqb_eq.
Qed.

(** X4. A valid IBAN is left as it is: when [validateIBAN] accepts a string
    whose third and fourth characters are digits that write a number from
    02 to 98, [checksumIBAN] returns the string unchanged. *)
Theorem checksumIBAN_of_valid (a b c1 c2 : Z) (t : jsstring) :
  is_digit c1 = true -> is_digit c2 = true ->
  2 <= decimal_value [c1; c2] <= 98 ->
  validateIBAN (a :: b :: c1 :: c2 :: t) = true ->
  checksumIBAN (a :: b :: c1 :: c2 :: t) = a :: b :: c1 :: c2 :: t.
Proof.
  intros H1 H2 Hk Hv.
  unfold validateIBAN in Hv. unfold checksumIBAN.
  rewrite !substr_tail, !substr_head in * by lia.
  change (Z.to_nat 4) with 4%nat in *. change (Z.to_nat 2) with 2%nat in *.
  cbn [firstn skipn] in *.
  change (t ++ [a; b; c1; c2]) with (t ++ [a; b] ++ [c1; c2]) in Hv.
  rewrite !app_assoc in *.
  rewrite _replaceChars_app, _txtMod97_app in *.
  destruct (_txtMod97_digits _ (_replaceChars_digits (t ++ [a; b])))
    as [r [Hr Rr]].
  rewrite Hr in *.
  rewrite (_replaceChars_of_digits [c1; c2]) in Hv
    by (repeat constructor; assumption).
  change (_replaceChars (str "00")) with (str "00").
  destruct (fold_left _txtMod97_step [c1; c2] (Some r)) as [v |] eqn:Ev;
    [| discriminate].
  cbn [num_is] in Hv. apply Z.eqb_eq in Hv. subst v.
  rewrite (check_digits_unique r c1 c2 Rr H1 H2 Hk Ev).
  rewrite <- !app_assoc. reflexivity.
Qed.

Lemma checksumIBAN_of_valid_witness :
  checksumIBAN (str "DE87123456781234567890") = str "DE87123456781234567890".
Proof.
  apply (checksumIBAN_of_valid 68 69 56 55 (str "123456781234567890"));
    try reflexivity.
  vm_compute. split; discriminate.
Defined.

(** One step of the residue computation is injective on residues, and on
    the digit it consumes. *)
Lemma mod97_step_injective (y y' e : Z) :
  0 <= y < 97 -> 0 <= y' < 97 ->
  (10 * y + e) mod 97 = (10 * y' + e) mod 97 -> y = y'.
Proof.
  intros Hy Hy' H.
  assert (D : (97 | 10 * (y - y'))).
  { apply Z.mod_divide; [lia |].
    replace (10 * (y - y')) with ((10 * y + e) - (10 * y' + e)) by lia.
    rewrite Zminus_mod, H, Z.sub_diag. reflexivity. }
  apply Z.gauss in D; [| reflexivity].
  destruct D as [q Hq]. lia.
Qed.

Lemma mod97_digit_injective (x e e' : Z) :
  0 <= e <= 9 -> 0 <= e' <= 9 ->
  (10 * x + e) mod 97 = (10 * x + e') mod 97 -> e = e'.
Proof.
  intros He He' H.
  assert (D : (97 | e - e')).
  { apply Z.mod_divide; [lia |].
    replace (e - e') with ((10 * x + e) - (10 * x + e')) by lia.
    rewrite Zminus_mod, H, Z.sub_diag. reflexivity. }
  destruct D as [q Hq]. lia.
Qed.

Lemma _txtMod97_fold_injective (s : jsstring) (y y' : Z) :
  all_digits s -> 0 <= y < 97 -> 0 <= y' < 97 ->
  fold_left _txtMod97_step s (Some y) = fold_left _txtMod97_step s (Some y') ->
  y = y'.
Proof.
  intros Hs. revert y y'.
  induction Hs as [| c s Hc _ IH]; intros y y' Hy Hy'; cbn [fold_left].
  - congruence.
  - rewrite !_txtMod97_step_digit by exact Hc.
    pose proof (proj1 (is_digit_range c) Hc) as Rc.
    rewrite !Z.rem_mod_nonneg by lia.
    intros H. apply IH in H; try (apply Z.mod_pos_bound; lia).
    apply (mod97_step_injective y y' (c - 48) Hy Hy').
    rewrite !(Z.mul_comm 10). exact H.
Qed.

(** The rotation of [validateIBAN] moves one character to one place,
    wherever it is. *)
Lemma rotation_of_one (a b : jsstring) :
  exists A B, forall d : Z,
    skipn 4 (a ++ d :: b) ++ firstn 4 (a ++ d :: b) = A ++ d :: B.
Proof.
  destruct a as [| a0 [| a1 [| a2 [| a3 a]]]].
  - exists (skipn 3 b), (firstn 3 b). reflexivity.
  - exists (skipn 2 b ++ [a0]), (firstn 2 b). intros d. cbn.
    now rewrite <- app_assoc.
  - exists (skipn 1 b ++ [a0; a1]), (firstn 1 b). intros d. cbn.
    now rewrite <- app_assoc.
  - exists (b ++ [a0; a1; a2]), []. intros d. cbn.
    now rewrite <- app_assoc.
  - exists a, (b ++ [a0; a1; a2; a3]). intros d. cbn.
    now rewrite <- app_assoc.
Qed.

(** X5. [validateIBAN] detects one wrong digit: when it accepts a string,
    it rejects every string obtained by replacing one decimal digit,
    anywhere, by another decimal digit. *)
Theorem validateIBAN_detects_one_digit (a b : jsstring) (d d' : Z) :
  is_digit d = true -> is_digit d' = true -> d <> d' ->
  validateIBAN (a ++ d :: b) = true ->
  validateIBAN (a ++ d' :: b) = false.
Proof.
  intros Hd Hd' Hne Hv.
  destruct (validateIBAN (a ++ d' :: b)) eqn:Hv'; [exfalso | reflexivity].
  unfold validateIBAN in Hv, Hv'.
  rewrite !substr_tail, !substr_head in Hv, Hv' by lia.
  change (Z.to_nat 4) with 4%nat in Hv, Hv'.
  destruct (rotation_of_one a b) as [A [B HAB]].
  rewrite HAB in Hv, Hv'.
  change (A ++ d :: B) with (A ++ [d] ++ B) in Hv.
  change (A ++ d' :: B) with (A ++ [d'] ++ B) in Hv'.
  rewrite !_replaceChars_app, !_txtMod97_app in Hv, Hv'.
  rewrite (_replaceChars_of_digits [d]) in Hv by (repeat constructor; exact Hd).
  rewrite (_replaceChars_of_digits [d']) in Hv'
    by (repeat constructor; exact Hd').
  destruct (_txtMod97_digits _ (_replaceChars_digits A)) as [x [Hx Rx]].
  rewrite Hx in Hv, Hv'. cbn [fold_left app] in Hv, Hv'.
  rewrite _txtMod97_step_digit in Hv, Hv' by assumption.
  pose proof (proj1 (is_digit_range d) Hd) as Rd.
  pose proof (proj1 (is_digit_range d') Hd') as Rd'.
  rewrite Z.rem_mod_nonneg in Hv, Hv' by lia.
  assert (E : fold_left _txtMod97_step (_replaceChars B)
                (Some ((x * 10 + (d - 48)) mod 97))
              = fold_left _txtMod97_step (_replaceChars B)
                  (Some ((x * 10 + (d' - 48)) mod 97))).
  { destruct (fold_left _ _ (Some ((x * 10 + (d - 48)) mod 97))) as [v |];
      [| discriminate].
    destruct (fold_left _ _ (Some ((x * 10 + (d' - 48)) mod 97))) as [v' |];
      [| discriminate].
    cbn [num_is] in Hv, Hv'. apply Z.eqb_eq in Hv, Hv'. congruence. }
  apply _txtMod97_fold_injective in E;
    try (apply Z.mod_pos_bound; lia); [| apply _replaceChars_digits].
  rewrite !(Z.mul_comm x) in E.
  apply mod97_digit_injective in E; lia.
Qed.

Lemma validateIBAN_detects_one_digit_witness :
  validateIBAN (str "DE87123456781234567891") = false.
Proof.
  apply (validateIBAN_detects_one_digit (str "DE8712345678123456789") [] 48 49);
    try reflexivity.
  discriminate.
Defined.

Lemma checksumCreditorID_spliced (cid : jsstring) :
  exists x y,
    checksumCreditorID cid = firstn 2 cid ++ [x; y] ++ skipn 4 cid.
Proof.
  unfold checksumCreditorID.
  rewrite !substr_tail, !substr_head by lia.
  change (Z.to_nat 4) with 4%nat. change (Z.to_nat 2) with 2%nat.
  change (Z.to_nat 7) with 7%nat.
  rewrite (app_assoc (skipn 7 cid) (firstn 2 cid) (str "00")).
  destruct (mod97_residue (skipn 7 cid ++ firstn 2 cid)) as [m [Hm Rm]].
  rewrite Hm. destruct (check_digits_shape m Rm) as [Hlen _].
  destruct (check_digits (Some m)) as [| x [| y [| z cc]]]; try discriminate.
  now exists x, y.
Qed.

(** X6. Frame of [checksumCreditorID]: on a creditor id that has its four
    leading characters the result has the length of the input and the same
    character at every index other than 2 and 3; the business code
    (indices 4 to 6) is returned as given. *)
Theorem checksumCreditorID_frame (cid : jsstring) :
  (4 <= length cid)%nat ->
  length (checksumCreditorID cid) = length cid
  /\ forall i : nat, i <> 2%nat -> i <> 3%nat ->
       nth_error (checksumCreditorID cid) i = nth_error cid i.
Proof.
  intros Hlen.
  destruct (checksumCreditorID_spliced cid) as [x [y E]]. rewrite E.
  destruct cid as [| a [| b [| c [| d rest]]]]; simpl in Hlen; try lia.
  simpl. split; [reflexivity |].
  intros i H2 H3.
  destruct i as [| [| [| [| i]]]]; try reflexivity; contradiction.
Qed.

Lemma checksumCreditorID_frame_witness :
  length (checksumCreditorID (str "DE00ZZZ09999999999")) = 18%nat
  /\ nth_error (checksumCreditorID (str "DE00ZZZ09999999999")) 5 = Some 90.
Proof.
  destruct (checksumCreditorID_frame (str "DE00ZZZ09999999999")) as [L F].
  - simpl. lia.
  - split.
    + rewrite L. reflexivity.
    + rewrite F by lia. reflexivity.
Defined.

(** X7. The business code of a creditor id is outside the checksum: two
    ids that differ in their fifth to seventh characters only are accepted
    or rejected together by [validateCreditorID], and get the same check
    digits from [checksumCreditorID]. *)
Theorem creditor_business_code_unchecked
  (a b c d e f g e' f' g' : Z) (t : jsstring) :
  validateCreditorID (a :: b :: c :: d :: e :: f :: g :: t)
  = validateCreditorID (a :: b :: c :: d :: e' :: f' :: g' :: t)
  /\ firstn 4 (checksumCreditorID (a :: b :: c :: d :: e :: f :: g :: t))
     = firstn 4 (checksumCreditorID (a :: b :: c :: d :: e' :: f' :: g' :: t)).
Proof.
  split.
  - unfold validateCreditorID.
    rewrite !substr_tail, !substr_head by lia. reflexivity.
  - unfold checksumCreditorID.
    rewrite !substr_tail, !substr_head by lia.
    change (Z.to_nat 4) with 4%nat. change (Z.to_nat 2) with 2%nat.
    change (Z.to_nat 7) with 7%nat. cbn [firstn skipn].
    rewrite (app_assoc t [a; b] (str "00")).
    destruct (mod97_residue (t ++ [a; b])) as [m [Hm Rm]]. rewrite Hm.
    destruct (check_digits_shape m Rm) as [Hlen _].
    destruct (check_digits (Some m)) as [| x [| y [| z cc]]];
      try discriminate.
    reflexivity.
Qed.

(** ** Validation engine *)

Lemma assert_length_string_spec (s member : jsstring) (min max : option Z) :
  succeeds (assert_length (VStr s) min max member)
  = negb (nonempty s)
    || (match min with Some m => m <=? Z.of_nat (length s) | None => true end
        && match max with Some m => Z.of_nat (length s) <=? m | None => true end).
Proof.
  unfold assert_length, length_lt, length_gt. cbn [value_length truthy].
  fold (nonempty s).
  destruct (nonempty s); cbn [negb andb orb].
  - destruct min as [m |], max as [m' |]; cbn [andb orb];
      rewrite ?Z.ltb_antisym;
      repeat match goal with
             | |- context [?a <=? ?b] => destruct (a <=? b)
             end; reflexivity.
  - now destruct min, max.
Qed.

(** X8. [assert_length] on a string: the empty string passes whatever the
    bounds, and a non-empty string passes exactly when its length is at
    least [min] and at most [max], for the bounds that are given. *)
Theorem assert_length_of_string (s member : jsstring) (min max : option Z) :
  assert_length (VStr s) min max member = Ok tt
  <-> s = []
      \/ ((forall m, min = Some m -> m <= Z.of_nat (length s))
          /\ (forall m, max = Some m -> Z.of_nat (length s) <= m)).
Proof.
  assert (E : assert_length (VStr s) min max member = Ok tt
              <-> succeeds (assert_length (VStr s) min max member) = true).
  { destruct (assert_length _ _ _ _) as [[] | e]; cbn; split;
      intros; congruence. }
  rewrite E, assert_length_string_spec.
  destruct s as [| c s']; cbn [nonempty jsstring_eqb negb orb].
  - split; [now left | reflexivity].
  - rewrite andb_true_iff. split.
    + intros [Hmin Hmax]. right. split; intros m ->; now apply Z.leb_le.
    + intros [H | [Hmin Hmax]]; [discriminate |]. split.
      * destruct min as [m |]; [| reflexivity].
        apply Z.leb_le. now apply Hmin.
      * destruct max as [m |]; [| reflexivity].
        apply Z.leb_le. now apply Hmax.
Qed.

Lemma trimStart_nil (s : jsstring) :
  trimStart s = [] <-> forallb is_whitespace s = true.
Proof.
  induction s as [| c s IH]; cbn [trimStart forallb].
  - tauto.
  - destruct (is_whitespace c); cbn [andb]; [exact IH |].
    split; discriminate.
Qed.

Lemma trimStart_whitespace (s : jsstring) :
  forallb is_whitespace (trimStart s) = forallb is_whitespace s.
Proof.
  induction s as [| c s IH]; cbn [trimStart forallb]; [reflexivity |].
  destruct (is_whitespace c) eqn:E; cbn [andb forallb]; [exact IH |].
  now rewrite E.
Qed.

Lemma forallb_rev {A} (p : A -> bool) (l : list A) :
  forallb p (rev l) = forallb p l.
Proof.
  induction l as [| x l IH]; cbn [rev forallb]; [reflexivity |].
  rewrite forallb_app, IH. cbn. rewrite andb_true_r. apply andb_comm.
Qed.

Lemma trim_nil (s : jsstring) :
  trim s = [] <-> forallb is_whitespace s = true.
Proof.
  unfold trim. split.
  - intros H. apply (f_equal (@rev Z)) in H. rewrite rev_involutive in H.
    cbn in H. apply trimStart_nil in H.
    now rewrite forallb_rev, trimStart_whitespace in H.
  - intros H.
    assert (E : trimStart (rev (trimStart s)) = []).
    { apply trimStart_nil. now rewrite forallb_rev, trimStart_whitespace. }
    now rewrite E.
Qed.

(** X9. [assert_name] raises exactly on a name made of white space only,
    the empty name included. *)
Theorem assert_name_whitespace (s member : jsstring) :
  succeeds (assert_name s member) = negb (forallb is_whitespace s).
Proof.
  unfold assert_name.
  destruct (forallb is_whitespace s) eqn:E.
  - apply trim_nil in E. rewrite E. cbn. now rewrite orb_true_r.
  - destruct (trim s) as [| c r] eqn:T.
    + apply trim_nil in T. congruence.
    + destruct s as [| c0 s']; [discriminate E | reflexivity].
Qed.

Lemma bind_ok (m k : result unit) :
  (m ;; k) = Ok tt <-> m = Ok tt /\ k = Ok tt.
Proof.
  destruct m as [[] | e]; cbn [bind]; split;
    try tauto; try (intros [H _]; discriminate H); discriminate.
Qed.

Lemma assert_debitor_ok (d : Debitor) :
  assert_debitor d = Ok tt <-> violations d = [].
Proof.
  split; [| apply no_violation_passes].
  unfold assert_debitor, violations.
  rewrite !catch_as_test.
  rewrite assert_name_spec, assert_iban_bic_spec.
  change 70 with (Z.of_nat 70). change 2 with (Z.of_nat 2).
  rewrite !too_long_spec.
  destruct (longer_than 70 (Some (name d)));
    destruct (longer_than 70 (street d));
    destruct (longer_than 70 (city d));
    destruct (longer_than 2 (country d));
    destruct (name_is_empty d);
    destruct (bank_identifier_invalid d);
    cbn [negb fst snd app length Z.of_nat Z.ltb Z.compare Pos.of_succ_nat
         Pos.succ];
    intros H; first [reflexivity | discriminate H].
Qed.

Lemma assert_fixed_string (s member : jsstring) (choices : list jsstring) :
  assert_fixed (VStr s) (map VStr choices) member = Ok tt <-> In s choices.
Proof.
  unfold assert_fixed.
  assert (E : existsb (strict_eqb (VStr s)) (map VStr choices) = true
              <-> In s choices).
  { rewrite existsb_exists. split.
    - intros [v [Hin Heq]]. apply in_map_iff in Hin.
      destruct Hin as [c [<- Hc]]. cbn in Heq.
      apply jsstring_eqb_eq in Heq. now subst.
    - intros Hin. exists (VStr s). split; [now apply in_map |].
      cbn. apply jsstring_eqb_refl. }
  destruct (existsb _ _); cbn [negb].
  - split; [intros _; now apply E | reflexivity].
  - split; [discriminate |]. intros H. apply E in H. discriminate.
Qed.

Lemma assert_date_ok (dt : option Date) (member : jsstring) :
  assert_date dt member = Ok tt <-> valid_date dt = true.
Proof.
  destruct dt as [[[t |]] |]; cbn; split; intros; congruence.
Qed.

Lemma assert_cid_ok (s member : jsstring) :
  assert_cid s member = Ok tt <-> validateCreditorID s = true.
Proof.
  unfold assert_cid. destruct (validateCreditorID s); cbn; split;
    intros; congruence.
Qed.

Section Validators.
Context {R : Runtime}.

(** X10. What [SepaPaymentInfo.validate] asks of a block, whatever its
    method: an instrument code and a sequence type out of the fixed
    choices, a valid date (the collection date of a direct debit, the
    execution date of a transfer), an id of the emitting party that
    [validateCreditorID] accepts, and a counterparty without violation. It
    asks nothing of the transactions. *)
Theorem payment_info_validate_iff (x : SepaPaymentInfo.t) :
  SepaPaymentInfo.validate x = Ok tt
  <-> In (SepaPaymentInfo.localInstrumentation x)
         [str "CORE"; str "COR1"; str "B2B"]
      /\ In (SepaPaymentInfo.sequenceType x)
            [str "FRST"; str "RCUR"; str "OOFF"; str "FNAL"]
      /\ valid_date (if SepaPaymentInfo.is_direct_debit x
                     then SepaPaymentInfo.collectionDate x
                     else SepaPaymentInfo.requestedExecutionDate x) = true
      /\ validateCreditorID (SepaPaymentInfo.pullId x) = true
      /\ violations (block_counterparty x) = [].
Proof.
  unfold SepaPaymentInfo.validate.
  rewrite !bind_ok, assert_length_of_number.
  rewrite (assert_fixed_string _ _ [str "CORE"; str "COR1"; str "B2B"]).
  rewrite (assert_fixed_string _ _
             [str "FRST"; str "RCUR"; str "OOFF"; str "FNAL"]).
  rewrite assert_cid_ok.
  fold (block_counterparty x). rewrite assert_debitor_ok.
  destruct (SepaPaymentInfo.is_direct_debit x); rewrite assert_date_ok;
    tauto.
Qed.

Lemma assert_range_ok (num min max : number) (member : jsstring) :
  assert_range num min max member = Ok tt
  <-> num_lt num min = false /\ num_lt max num = false.
Proof.
  unfold assert_range, num_gt.
  destruct (num_lt num min), (num_lt max num); cbn; split;
    intros; try tauto; try congruence; destruct H; congruence.
Qed.

Lemma succeeds_ok (m : result unit) : m = Ok tt <-> succeeds m = true.
Proof. destruct m as [[] | e]; cbn; split; intros; congruence. Qed.

(** X11. What [SepaTransaction.validate] asks of a transaction, direct
    debit or transfer alike: an end-to-end id and a mandate id that are
    empty or hold a character of their class, an amount not below 0.01 and
    not above 999999999.99 with at most two fractional digits, a purpose
    code of at most 4 characters, a valid mandate signature date, a
    counterparty without violation, and a remittance text of at most 140
    characters. *)
Theorem transaction_validate_iff (x : SepaTransaction.t) :
  SepaTransaction.validate x = Ok tt
  <-> (SepaTransaction.end2endId x = []
       \/ exists c, In c (SepaTransaction.end2endId x)
                    /\ in_sepa_set1 c = true)
      /\ num_lt (SepaTransaction.amount x) amount_min = false
      /\ num_lt amount_max (SepaTransaction.amount x) = false
      /\ SepaTransaction.assert_fraction x = Ok tt
      /\ (forall code, SepaTransaction.purposeCode x = Some code ->
                       (length code <= 4)%nat)
      /\ (SepaTransaction.mandateId x = []
          \/ exists c, In c (SepaTransaction.mandateId x)
                       /\ in_sepa_set2 c = true)
      /\ valid_date (SepaTransaction.mandateSignatureDate x) = true
      /\ violations (transaction_counterparty x) = []
      /\ (length (SepaTransaction.remittanceInfo x) <= 140)%nat.
Proof.
  unfold SepaTransaction.validate.
  rewrite !bind_ok.
  rewrite assert_sepa_id_set1_ok, assert_sepa_id_set2_ok, assert_range_ok,
    assert_date_ok.
  fold (transaction_counterparty x). rewrite assert_debitor_ok.
  rewrite !succeeds_ok, !assert_length_string_spec.
  assert (P : succeeds
                (assert_length (of_nullable (SepaTransaction.purposeCode x))
                   (Some 1) (Some 4) (str "purposeCode")) = true
              <-> forall code, SepaTransaction.purposeCode x = Some code ->
                               (length code <= 4)%nat).
  { destruct (SepaTransaction.purposeCode x) as [code |]; cbn [of_nullable].
    - rewrite assert_length_string_spec.
      destruct code as [| c code']; cbn [nonempty jsstring_eqb negb orb].
      + split; [intros _ ? [= <-]; cbn; lia | reflexivity].
      + rewrite andb_true_iff, !Z.leb_le. split.
        * intros [_ H] ? [= <-]. lia.
        * intros H. specialize (H _ eq_refl). cbn [length] in *. lia.
    - split; [intros _ ? [=] | reflexivity]. }
  assert (Q : negb (nonempty (SepaTransaction.remittanceInfo x))
              || true && (Z.of_nat (length (SepaTransaction.remittanceInfo x))
                          <=? 140) = true
              <-> (length (SepaTransaction.remittanceInfo x) <= 140)%nat).
  { destruct (SepaTransaction.remittanceInfo x) as [| c r];
      cbn [nonempty jsstring_eqb negb orb andb].
    - split; [cbn; lia | reflexivity].
    - rewrite Z.leb_le. lia. }
  rewrite <- succeeds_ok. tauto.
Qed.

End Validators.

(** ** Entity model and normalization *)

Section Entities.
Context {R : Runtime}.

Lemma count_fold (l : list SepaPaymentInfo.t) (c : Z) :
  fold_left (fun acc pi =>
               acc + SepaPaymentInfo.transactionCount
                       (SepaPaymentInfo.normalize pi)) l c
  = c + Z.of_nat (length (flat_map SepaPaymentInfo._payments l)).
Proof.
  revert c. induction l as [| pi l IH]; intros c; cbn [fold_left flat_map].
  - cbn. lia.
  - rewrite IH, length_app. unfold SepaPaymentInfo.transactionCount.
    cbn [SepaPaymentInfo.normalize SepaPaymentInfo._payments
         SepaPaymentInfo.update]. lia.
Qed.

(** X12. What [SepaDocument.normalize] writes: the transaction count of the
    header is the number of transactions of all blocks together, the
    control sum of each block is the sum of the amounts of its
    transactions, added from 0 in order, and the control sum of the header
    is the sum of those; the transactions, the ids and the other fields of
    the header stay as they are. *)
Theorem normalize_totals (x : SepaDocument.t) :
  let x' := SepaDocument.normalize x in
  SepaGroupHeader.transactionCount (SepaDocument.grpHdr x')
  = Z.of_nat (length (flat_map SepaPaymentInfo._payments
                               (SepaDocument._paymentInfo x)))
  /\ map SepaPaymentInfo.controlSum (SepaDocument._paymentInfo x')
     = map (fun pi => sum_of_amounts (SepaPaymentInfo._payments pi))
           (SepaDocument._paymentInfo x)
  /\ SepaGroupHeader.controlSum (SepaDocument.grpHdr x')
     = fold_left num_add
         (map (fun pi => sum_of_amounts (SepaPaymentInfo._payments pi))
              (SepaDocument._paymentInfo x))
         (num_of_int 0)
  /\ map SepaPaymentInfo._payments (SepaDocument._paymentInfo x')
     = map SepaPaymentInfo._payments (SepaDocument._paymentInfo x)
  /\ SepaGroupHeader.id (SepaDocument.grpHdr x')
     = SepaGroupHeader.id (SepaDocument.grpHdr x)
  /\ SepaGroupHeader.created (SepaDocument.grpHdr x')
     = SepaGroupHeader.created (SepaDocument.grpHdr x)
  /\ SepaDocument._painFormat x' = SepaDocument._painFormat x.
Proof.
  intros x'. subst x'. rewrite document_normalize_unfold.
  cbn [SepaDocument.grpHdr SepaDocument._paymentInfo SepaDocument.update
       SepaDocument._painFormat
       SepaGroupHeader.transactionCount SepaGroupHeader.controlSum
       SepaGroupHeader.id SepaGroupHeader.created SepaGroupHeader.set_totals].
  rewrite count_fold, !map_map.
  split; [lia |]. split; [reflexivity |].
  split; [| repeat split; reflexivity].
  generalize (num_of_int 0).
  induction (SepaDocument._paymentInfo x) as [| pi l IH]; intros n;
    cbn [fold_left map]; [reflexivity | apply IH].
Qed.

(** X13. Positional ids of transactions: attaching, one after the other,
    transactions without id and without override reference to a block
    gives them the id of the block, the separator and their index among
    the transactions of the block, counted from the number of
    transactions that were there; the id of the block and its earlier
    transactions stay as they are. *)
Theorem addTransaction_positions (g : Globals) (x : SepaPaymentInfo.t)
  (pmts : list SepaTransaction.t) :
  Forall unnamed pmts ->
  let x' := fold_left (SepaPaymentInfo.addTransaction g) pmts x in
  payment_ids x'
  = payment_ids x
    ++ map (fun i => SepaPaymentInfo.id x ++ ID_SEPARATOR g
                     ++ int_toString (Z.of_nat i))
           (seq (length (SepaPaymentInfo._payments x)) (length pmts))
  /\ SepaPaymentInfo.id x' = SepaPaymentInfo.id x
  /\ SepaPaymentInfo.transactionCount x'
     = SepaPaymentInfo.transactionCount x + Z.of_nat (length pmts).
Proof.
  intros H. revert x.
  induction H as [| pmt rest [Hid Hov] _ IH]; intros x; cbn [fold_left].
  - cbn. rewrite app_nil_r. repeat split. lia.
  - destruct (IH (SepaPaymentInfo.addTransaction g x pmt)) as [E1 [E2 E3]].
    cbn zeta in E1, E2, E3. cbn zeta. rewrite E1, E2, E3.
    unfold payment_ids. rewrite addTransaction_ids, Hov, Hid.
    cbn [nonempty jsstring_eqb negb].
    unfold SepaPaymentInfo.transactionCount, SepaPaymentInfo.addTransaction.
    cbn [SepaPaymentInfo._payments SepaPaymentInfo.id SepaPaymentInfo.update
         length seq map].
    rewrite length_app, <- app_assoc. cbn [length app Nat.add].
    replace (length (SepaPaymentInfo._payments x) + 1)%nat
      with (S (length (SepaPaymentInfo._payments x))) by lia.
    repeat split. lia.
Qed.

End Entities.

Lemma addTransaction_positions_witness :
  map SepaTransaction.id
      (SepaPaymentInfo._payments
         (fold_left (SepaPaymentInfo.addTransaction initial_globals)
                    [Sample.debit 1000; Sample.debit 2000]
                    (Sample.block DEFAULT_PAIN_FORMAT)))
  = [str ".0"; str ".1"].
Proof.
  refine (proj1 (addTransaction_positions initial_globals
                   (Sample.block DEFAULT_PAIN_FORMAT)
                   [Sample.debit 1000; Sample.debit 2000] _)).
  repeat constructor.
Defined.

(** ** XML rendering *)

Lemma descendants_unfold (e : Element) :
  descendants e = e :: flat_map descendants (childNodes e).
Proof. now destruct e. Qed.

Lemma last_default {A} (l : list A) (b d d' : A) :
  last (b :: l) d = last (b :: l) d'.
Proof.
  revert b. induction l as [| c l IH]; intros b; [reflexivity |].
  change (last (c :: l) d = last (c :: l) d'). apply IH.
Qed.

Lemma last_cons_cons {A} (a b d : A) (l : list A) :
  last (a :: b :: l) d = last (b :: l) b.
Proof. change (last (b :: l) d = last (b :: l) b). apply last_default. Qed.

Lemma chain_holds_leaf (v : value) (rest : list jsstring) (q : jsstring) :
  In (leaf (last (q :: rest) q) [] v)
     (descendants (build_chain rest (fun inner => setTextContent v inner)
                               (createElement q))).
Proof.
  revert q. induction rest as [| q' rest IH]; intros q.
  - left. reflexivity.
  - cbn [build_chain]. rewrite last_cons_cons, descendants_unfold.
    right. cbn [appendChild childNodes createElement app flat_map].
    rewrite app_nil_r. apply IH.
Qed.

(** X14. The node helpers. The optional helper adds nothing for a null,
    undefined, false or empty value and behaves as the required one for
    any other value and for the number 0. The required helper appends one
    child, named after the first element name, after the children already
    there, leaves the parent's name, attributes and text as they are, and
    the last element of the chain is an element without children that
    carries the value as its text. *)
Theorem createXMLHelper_behaviour (node : Element) (q : jsstring)
  (rest : list jsstring) (v : value) :
  o_ node (q :: rest) v
  = (if truthy v || strict_eqb v (VInt 0) then r_ node (q :: rest) v
     else node)
  /\ child_tags (r_ node (q :: rest) v) = child_tags node ++ [q]
  /\ firstn (length (childNodes node)) (childNodes (r_ node (q :: rest) v))
     = childNodes node
  /\ tagName (r_ node (q :: rest) v) = tagName node
  /\ attributes (r_ node (q :: rest) v) = attributes node
  /\ textContent (r_ node (q :: rest) v) = textContent node
  /\ occurs_in (leaf (last (q :: rest) q) [] v) (r_ node (q :: rest) v).
Proof.
  split.
  { unfold o_, r_, createXMLHelper. cbn [orb].
    now destruct (truthy v || strict_eqb v (VInt 0)). }
  unfold r_, createXMLHelper. cbn [orb build_chain].
  split.
  { rewrite child_tags_appendChild. f_equal. f_equal.
    destruct rest; reflexivity. }
  split.
  { cbn [appendChild childNodes].
    rewrite firstn_app, Nat.sub_diag, firstn_all. cbn. apply app_nil_r. }
  repeat (split; [reflexivity |]).
  unfold occurs_in. cbn [appendChild childNodes].
  rewrite flat_map_app. apply in_or_app. right. cbn [flat_map].
  rewrite app_nil_r. apply chain_holds_leaf.
Qed.

Section Trees.
Context {R : Runtime}.

Ltac flatten :=
  cbv [occurs_in leaf o_ r_ n_ createXMLHelper build_chain appendChild
       setTextContent setAttribute createElement childNodes tagName
       attributes textContent descendants flat_map app orb andb In].

Ltac pick := repeat first [ left; reflexivity | right ].

(** X15. [SepaGroupHeader.toXML] raises a TypeError when [created] was
    never set and a RangeError when it is an invalid date; otherwise it
    returns a [GrpHdr] element whose children begin with [MsgId] and
    [CreDtTm], carrying the id and the ISO form of the creation time, and
    which holds the initiator name under [InitgPty]. *)
Theorem group_header_rendering (x : SepaGroupHeader.t) :
  match SepaGroupHeader.created x with
  | None => SepaGroupHeader.toXML x = Throw TypeError
  | Some {| getTime := None |} => SepaGroupHeader.toXML x = Throw RangeError
  | Some {| getTime := Some t |} =>
      exists node,
        SepaGroupHeader.toXML x = Ok node
        /\ tagName node = str "GrpHdr"
        /\ firstn 2 (childNodes node)
           = [leaf (str "MsgId") [] (VStr (SepaGroupHeader.id x));
              leaf (str "CreDtTm") [] (VStr (time_toISOString t))]
        /\ occurs_in (leaf (str "Nm") []
                           (VStr (SepaGroupHeader.initiatorName x))) node
        /\ has_child (str "InitgPty") node = true
  end.
Proof.
  unfold SepaGroupHeader.toXML.
  destruct (SepaGroupHeader.created x) as [[[t |]] |]; try reflexivity.
  cbn [toISOString getTime bind].
  eexists. split; [reflexivity |].
  destruct (num_is (getPainXMLVersion (SepaGroupHeader._painFormat x)) 2);
    destruct (nonempty (SepaGroupHeader.cifNumber x));
    destruct (nonempty (SepaGroupHeader.cucNumber x));
    (split; [reflexivity |]); (split; [reflexivity |]);
    (split; [flatten; pick | reflexivity]).
Qed.

(** X16. The shape of a rendered transaction: its children, in order, are
    the payment id, the amount ([InstdAmt] and the mandate block for a
    direct debit, [Amt] for a transfer), the agent, the party and the
    account of the receiver and the remittance text, followed by [Purp]
    exactly when the purpose code is a non-empty string. The agent is
    always there: without a bank identifier it holds the text NOTPROVIDED
    under [Othr]/[Id]. *)
Theorem transaction_shape (g : Globals) (x : SepaTransaction.t)
  (node : Element) :
  SepaTransaction.toXML g x = Ok node ->
  child_tags node = transaction_children x
  /\ (SepaTransaction.pullBIC x = [] ->
      occurs_in (leaf (str "Id") [] (VStr (str "NOTPROVIDED"))) node)
  /\ occurs_in (leaf (str "Ustrd") []
                     (VStr (SepaTransaction.remittanceInfo x))) node
  /\ occurs_in (leaf (str "EndToEndId") []
                     (VStr (SepaTransaction.end2endId x))) node
  /\ occurs_in (leaf (str "InstrId") [] (VStr (SepaTransaction.id x))) node.
Proof.
  unfold SepaTransaction.toXML, transaction_children.
  destruct (if VALIDATIONS_ENABLED g then SepaTransaction.validate x
            else Ok tt) as [[] | e]; cbn [bind]; [| discriminate].
  unfold nullable_truthy at 4 5.
  destruct (SepaTransaction.is_transfer x); cbn [negb].
  - cbn [bind]. intros H. injection H as <-.
    destruct (nonempty (SepaTransaction.pullBIC x)) eqn:Hb;
      destruct (nullable_truthy (SepaTransaction.pullStreet x)
                && nullable_truthy (SepaTransaction.pullCity x)
                && nullable_truthy (SepaTransaction.pullCountry x));
      destruct (SepaTransaction.purposeCode x) as [[| c code] |];
      cbn [of_nullable truthy jsstring_eqb negb strict_eqb];
      (split; [reflexivity |]);
      (split; [intros Hne; try (rewrite Hne in Hb; discriminate Hb);
               flatten; pick |]);
      repeat split; flatten; pick.
  - destruct (toISOString (SepaTransaction.mandateSignatureDate x))
      as [iso |]; cbn [bind]; [| discriminate].
    intros H. injection H as <-.
    destruct (nonempty (SepaTransaction.pullBIC x)) eqn:Hb;
      destruct (nonempty (SepaTransaction.ammendment x));
      destruct (nullable_truthy (SepaTransaction.pullStreet x)
                && nullable_truthy (SepaTransaction.pullCity x)
                && nullable_truthy (SepaTransaction.pullCountry x));
      destruct (SepaTransaction.purposeCode x) as [[| c code] |];
      cbn [of_nullable truthy jsstring_eqb negb strict_eqb];
      (split; [reflexivity |]);
      (split; [intros Hne; try (rewrite Hne in Hb; discriminate Hb);
               flatten; pick |]);
      repeat split; flatten; pick.
Qed.


(** X17. The postal address of a rendered transaction. It is rendered when
    street, city and country of the receiving party (the creditor of a
    transfer, the debtor of a direct debit) are all non-empty, and not at
    all otherwise; its three lines carry the debtor's country, street and
    city, for a transfer too. *)
Theorem transaction_postal_address (g : Globals) (x : SepaTransaction.t)
  (node : Element) :
  SepaTransaction.toXML g x = Ok node ->
  if nullable_truthy (SepaTransaction.pullStreet x)
     && nullable_truthy (SepaTransaction.pullCity x)
     && nullable_truthy (SepaTransaction.pullCountry x)
  then occurs_in
         (mkElement (str "PstlAdr") [] None
            [leaf (str "Ctry") []
                  (of_nullable (SepaTransaction.debtorCountry x));
             leaf (str "AdrLine") []
                  (of_nullable (SepaTransaction.debtorStreet x));
             leaf (str "AdrLine") []
                  (of_nullable (SepaTransaction.debtorCity x))]) node
  else existsb (fun e => jsstring_eqb (tagName e) (str "PstlAdr"))
               (descendants node) = false.
Proof.
  unfold SepaTransaction.toXML, SepaTransaction.pullBIC,
    SepaTransaction.pullStreet, SepaTransaction.pullCity,
    SepaTransaction.pullCountry, SepaTransaction.pullName,
    SepaTransaction.pullIBAN, SepaTransaction.is_transfer.
  destruct (if VALIDATIONS_ENABLED g then SepaTransaction.validate x
            else Ok tt) as [[] | e]; cbn [bind]; [| discriminate].
  destruct (SepaTransaction._type x); cbn [negb].
  - destruct (toISOString (SepaTransaction.mandateSignatureDate x))
      as [iso |]; cbn [bind]; [| discriminate].
    intros H. injection H as <-.
    destruct (nonempty (SepaTransaction.debtorBIC x));
      destruct (nonempty (SepaTransaction.ammendment x));
      destruct (nullable_truthy (SepaTransaction.debtorStreet x)
                && nullable_truthy (SepaTransaction.debtorCity x)
                && nullable_truthy (SepaTransaction.debtorCountry x));
      destruct (SepaTransaction.purposeCode x) as [[| c code] |];
      cbn [of_nullable truthy jsstring_eqb negb strict_eqb];
      first [ reflexivity | flatten; pick ].
  - cbn [bind]. intros H. injection H as <-.
    destruct (nonempty (SepaTransaction.creditorBIC x));
      destruct (nullable_truthy (SepaTransaction.creditorStreet x)
                && nullable_truthy (SepaTransaction.creditorCity x)
                && nullable_truthy (SepaTransaction.creditorCountry x));
      destruct (SepaTransaction.purposeCode x) as [[| c code] |];
      cbn [of_nullable truthy jsstring_eqb negb strict_eqb];
      first [ reflexivity | flatten; pick ].
Qed.

End Trees.

(** ** Rendering: success and failure *)

Section FailFast.
Context {R : Runtime}.

Lemma succeeds_toISOString (dt : option Date) :
  succeeds (toISOString dt) = valid_date dt.
Proof. now destruct dt as [[[t |]] |]. Qed.

Lemma succeeds_bind {A B} (m : result A) (k : A -> result B) :
  succeeds (bind m k)
  = match m with Ok a => succeeds (k a) | Throw _ => false end.
Proof. now destruct m. Qed.

Lemma transaction_renders (g : Globals) (x : SepaTransaction.t) :
  succeeds (SepaTransaction.toXML g x)
  = (negb (VALIDATIONS_ENABLED g) || succeeds (SepaTransaction.validate x))
    && (SepaTransaction.is_transfer x
        || valid_date (SepaTransaction.mandateSignatureDate x)).
Proof.
  unfold SepaTransaction.toXML. rewrite succeeds_bind.
  set (v := if VALIDATIONS_ENABLED g then SepaTransaction.validate x
            else Ok tt).
  assert (Hv : succeeds v
               = negb (VALIDATIONS_ENABLED g)
                 || succeeds (SepaTransaction.validate x))
    by (subst v; destruct (VALIDATIONS_ENABLED g); reflexivity).
  rewrite <- Hv. destruct v as [[] | e]; cbn [succeeds andb];
    [| reflexivity].
  rewrite succeeds_bind.
  destruct (SepaTransaction.is_transfer x); cbn [negb orb];
    [reflexivity |].
  rewrite <- succeeds_toISOString.
  destruct (toISOString (SepaTransaction.mandateSignatureDate x));
    reflexivity.
Qed.

Lemma append_transactions_succeeds (g : Globals)
  (payments : list SepaTransaction.t) (pmtInf : Element) :
  succeeds (SepaPaymentInfo.append_transactions g pmtInf payments)
  = forallb (fun pmt => succeeds (SepaTransaction.toXML g pmt)) payments.
Proof.
  revert pmtInf. induction payments as [| pmt rest IH]; intros pmtInf;
    cbn [SepaPaymentInfo.append_transactions forallb]; [reflexivity |].
  rewrite succeeds_bind.
  destruct (SepaTransaction.toXML g pmt); cbn [succeeds andb];
    [apply IH | reflexivity].
Qed.

Lemma payment_info_renders (g : Globals) (x : SepaPaymentInfo.t) :
  succeeds (SepaPaymentInfo.toXML g x)
  = (negb (VALIDATIONS_ENABLED g) || succeeds (SepaPaymentInfo.validate x))
    && valid_date (if SepaPaymentInfo.is_direct_debit x
                   then SepaPaymentInfo.collectionDate x
                   else SepaPaymentInfo.requestedExecutionDate x)
    && forallb (fun pmt => succeeds (SepaTransaction.toXML g pmt))
               (SepaPaymentInfo._payments x).
Proof.
  unfold SepaPaymentInfo.toXML. rewrite succeeds_bind.
  set (v := if VALIDATIONS_ENABLED g then SepaPaymentInfo.validate x
            else Ok tt).
  assert (Hv : succeeds v
               = negb (VALIDATIONS_ENABLED g)
                 || succeeds (SepaPaymentInfo.validate x))
    by (subst v; destruct (VALIDATIONS_ENABLED g); reflexivity).
  rewrite <- Hv. destruct v as [[] | e]; cbn [succeeds andb];
    [| reflexivity].
  rewrite succeeds_bind.
  destruct (SepaPaymentInfo.is_direct_debit x);
    rewrite <- succeeds_toISOString;
    destruct (toISOString _); cbn [bind succeeds andb];
    first [apply append_transactions_succeeds | reflexivity].
Qed.

Lemma append_payment_infos_succeeds (g : Globals)
  (blocks : list SepaPaymentInfo.t) (rootElement : Element) :
  succeeds (SepaDocument.append_payment_infos g rootElement blocks)
  = forallb (fun pi => succeeds (SepaPaymentInfo.toXML g pi)) blocks.
Proof.
  revert rootElement. induction blocks as [| pi rest IH]; intros rootElement;
    cbn [SepaDocument.append_payment_infos forallb]; [reflexivity |].
  rewrite succeeds_bind.
  destruct (SepaPaymentInfo.toXML g pi); cbn [succeeds andb];
    [apply IH | reflexivity].
Qed.

(** X18. Rendering an entity is all or nothing, and fails exactly on these
    grounds. A transaction renders unless validation is on and rejects it,
    or it is a direct debit without a valid mandate signature date. A block
    renders unless validation is on and rejects it, or its date is
    invalid, or one of its transactions does not render. *)
Theorem rendering_succeeds (g : Globals) (pmt : SepaTransaction.t)
  (pi : SepaPaymentInfo.t) :
  succeeds (SepaTransaction.toXML g pmt)
  = (negb (VALIDATIONS_ENABLED g) || succeeds (SepaTransaction.validate pmt))
    && (SepaTransaction.is_transfer pmt
        || valid_date (SepaTransaction.mandateSignatureDate pmt))
  /\ succeeds (SepaPaymentInfo.toXML g pi)
     = (negb (VALIDATIONS_ENABLED g)
        || succeeds (SepaPaymentInfo.validate pi))
       && valid_date (if SepaPaymentInfo.is_direct_debit pi
                      then SepaPaymentInfo.collectionDate pi
                      else SepaPaymentInfo.requestedExecutionDate pi)
       && forallb (fun t => succeeds (SepaTransaction.toXML g t))
                  (SepaPaymentInfo._payments pi).
Proof.
  split; [apply transaction_renders | apply payment_info_renders].
Qed.

Lemma append_transactions_tagName (g : Globals)
  (payments : list SepaTransaction.t) (pmtInf node : Element) :
  SepaPaymentInfo.append_transactions g pmtInf payments = Ok node ->
  tagName node = tagName pmtInf.
Proof.
  revert pmtInf. induction payments as [| pmt rest IH]; intros pmtInf;
    cbn [SepaPaymentInfo.append_transactions].
  - intros H. now injection H as <-.
  - destruct (SepaTransaction.toXML g pmt); cbn [bind]; [| discriminate].
    intros H. now rewrite (IH _ H).
Qed.

Lemma payment_info_tagName (g : Globals) (x : SepaPaymentInfo.t)
  (node : Element) :
  SepaPaymentInfo.toXML g x = Ok node -> tagName node = str "PmtInf".
Proof.
  unfold SepaPaymentInfo.toXML.
  destruct (if VALIDATIONS_ENABLED g then SepaPaymentInfo.validate x
            else Ok tt) as [[] | e]; cbn [bind]; [| discriminate].
  destruct (num_is (getPainXMLVersion (SepaPaymentInfo._painFormat x)) 3);
    destruct (SepaPaymentInfo.is_direct_debit x);
    destruct (nonempty (SepaPaymentInfo.pullBIC x));
    (destruct (toISOString _) as [dt |]; cbn [bind]; [| discriminate]);
    intros H; rewrite (append_transactions_tagName _ _ _ _ H);
    unfold r_, n_; rewrite !tagName_helper; reflexivity.
Qed.

Lemma group_header_tagName (x : SepaGroupHeader.t) (node : Element) :
  SepaGroupHeader.toXML x = Ok node -> tagName node = str "GrpHdr".
Proof.
  unfold SepaGroupHeader.toXML.
  destruct (toISOString (SepaGroupHeader.created x)); cbn [bind];
    [| discriminate].
  destruct (num_is (getPainXMLVersion (SepaGroupHeader._painFormat x)) 2);
    intros H; injection H as <-;
    unfold r_, n_; rewrite !tagName_helper; reflexivity.
Qed.

Lemma append_payment_infos_tagName (g : Globals)
  (blocks : list SepaPaymentInfo.t) (rootElement node : Element) :
  SepaDocument.append_payment_infos g rootElement blocks = Ok node ->
  tagName node = tagName rootElement.
Proof.
  revert rootElement. induction blocks as [| b rest IH]; intros rootElement;
    cbn [SepaDocument.append_payment_infos].
  - intros H. now injection H as <-.
  - destruct (SepaPaymentInfo.toXML g b); cbn [bind]; [| discriminate].
    intros H. now rewrite (IH _ H).
Qed.

(** X19. The rendering of a document whose format is in the table of
    formats. It succeeds exactly when the creation date of the header is
    valid and every block renders. The result is in the namespace of the
    format, with the XML version and encoding of the document; its
    [Document] element carries the two schema attributes and holds one
    element, named by the table, whose children are one [GrpHdr] followed
    by one [PmtInf] for each block. *)
Theorem document_rendering (g : Globals) (x : SepaDocument.t)
  (type_ : jsstring) :
  SepaDocument._type x = Some type_ ->
  succeeds (snd (SepaDocument.toXML g x))
  = valid_date (SepaGroupHeader.created (SepaDocument.grpHdr x))
    && forallb (fun b => succeeds (SepaPaymentInfo.toXML g b))
               (SepaDocument._paymentInfo x)
  /\ forall xml,
       snd (SepaDocument.toXML g x) = Ok xml ->
       namespaceURI xml = XSI_NS ++ SepaDocument._painFormat x
       /\ xmlVersion xml = SepaDocument._xmlVersion x
       /\ xmlEncoding xml = SepaDocument._xmlEncoding x
       /\ tagName (documentElement xml) = str "Document"
       /\ attributes (documentElement xml)
          = [(str "xmlns:xsi", XSI_NAMESPACE);
             (str "xsi:schemaLocation",
              XSI_NS ++ SepaDocument._painFormat x ++ str " "
              ++ SepaDocument._painFormat x ++ str ".xsd")]
       /\ exists rootElement,
            childNodes (documentElement xml) = [rootElement]
            /\ tagName rootElement = type_
            /\ child_tags rootElement
               = str "GrpHdr"
                 :: repeat (str "PmtInf")
                           (length (SepaDocument._paymentInfo x)).
Proof.
  intros Hty. split.
  - unfold SepaDocument.toXML. cbn [snd].
    rewrite document_normalize_unfold.
    cbn [SepaDocument._type SepaDocument.update SepaDocument.grpHdr
         SepaDocument._paymentInfo].
    rewrite Hty, succeeds_bind.
    unfold SepaGroupHeader.toXML at 1.
    cbn [SepaGroupHeader.created SepaGroupHeader.set_totals].
    rewrite <- succeeds_toISOString.
    destruct (toISOString (SepaGroupHeader.created (SepaDocument.grpHdr x)))
      as [iso |]; cbn [bind succeeds andb]; [| reflexivity].
    rewrite succeeds_bind.
    match goal with
    | |- match ?m with Ok _ => _ | Throw _ => _ end = _ =>
        assert (E : succeeds m
                    = forallb (fun b => succeeds (SepaPaymentInfo.toXML g b))
                              (SepaDocument._paymentInfo x));
          [| destruct m; exact E]
    end.
    rewrite append_payment_infos_succeeds.
    induction (SepaDocument._paymentInfo x) as [| b l IH];
      cbn [map forallb]; [reflexivity |].
    rewrite IH, !payment_info_renders. reflexivity.
  - intros xml Hxml.
    unfold SepaDocument.toXML in Hxml. cbn [snd] in Hxml.
    assert (Hty' : SepaDocument._type (SepaDocument.normalize x)
                   = Some type_)
      by (rewrite document_normalize_unfold; exact Hty).
    rewrite Hty' in Hxml.
    destruct (SepaGroupHeader.toXML _) as [gh' |] eqn:Eg; cbn [bind] in Hxml;
      [| discriminate].
    destruct (SepaDocument.append_payment_infos _ _ _) as [root |] eqn:E;
      cbn [bind] in Hxml; [| discriminate].
    injection Hxml as <-.
    cbn [namespaceURI xmlVersion xmlEncoding documentElement].
    assert (Hfmt : SepaDocument._painFormat (SepaDocument.normalize x)
                   = SepaDocument._painFormat x)
      by (now rewrite document_normalize_unfold).
    assert (Hver : SepaDocument._xmlVersion (SepaDocument.normalize x)
                   = SepaDocument._xmlVersion x)
      by (now rewrite document_normalize_unfold).
    assert (Henc : SepaDocument._xmlEncoding (SepaDocument.normalize x)
                   = SepaDocument._xmlEncoding x)
      by (now rewrite document_normalize_unfold).
    rewrite Hfmt, Hver, Henc.
    repeat (split; [reflexivity |]).
    exists root. split; [reflexivity |].
    destruct (append_payment_infos_children _ _ _ _ E) as [nodes [Hc Hn]].
    assert (Htag : tagName root = type_)
      by (now rewrite (append_payment_infos_tagName _ _ _ _ E)).
    split; [exact Htag |].
    unfold child_tags. rewrite Hc. cbn [appendChild createElement childNodes
                                        app map].
    rewrite (group_header_tagName _ _ Eg). f_equal.
    rewrite document_normalize_unfold in Hn.
    cbn [SepaDocument._paymentInfo SepaDocument.update] in Hn.
    clear - Hn. revert nodes Hn.
    induction (SepaDocument._paymentInfo x) as [| b l IH]; intros nodes Hn;
      cbn [map] in Hn; inversion Hn as [| ? node ? rest Hb Hrest]; subst.
    + reflexivity.
    + cbn [map length repeat]. rewrite (payment_info_tagName _ _ _ Hb).
      f_equal. now apply IH.
Qed.

End FailFast.

Section Blocks.
Context {R : Runtime}.

Ltac flatten :=
  cbv [occurs_in leaf o_ r_ n_ createXMLHelper build_chain appendChild
       setTextContent setAttribute createElement childNodes tagName
       attributes textContent descendants flat_map app orb andb In].

Ltac pick := repeat first [ left; reflexivity | right ].

Lemma append_transactions_keeps (g : Globals)
  (payments : list SepaTransaction.t) (pmtInf node : Element) :
  SepaPaymentInfo.append_transactions g pmtInf payments = Ok node ->
  (forall e, occurs_in e pmtInf -> occurs_in e node)
  /\ (forall e, In e (childNodes pmtInf) -> In e (childNodes node)).
Proof.
  revert pmtInf. induction payments as [| pmt rest IH]; intros pmtInf;
    cbn [SepaPaymentInfo.append_transactions].
  - intros H. injection H as <-. auto.
  - destruct (SepaTransaction.toXML g pmt) as [txInf |]; cbn [bind];
      [| discriminate].
    intros H. destruct (IH _ H) as [Ho Hc]. split; intros e He.
    + apply Ho. unfold occurs_in in *.
      cbn [appendChild childNodes]. rewrite flat_map_app.
      apply in_or_app. now left.
    + apply Hc. cbn [appendChild childNodes]. apply in_or_app. now left.
Qed.

(** X20. The party and the agent of a rendered block. The party element
    holds the name and, only when street, city and country are all
    non-empty, one postal address with the three of them; the agent
    element is always there and holds the bank identifier (with the
    clearing member id when given) or else the text NOTPROVIDED under
    [Othr]/[Id]. A direct debit also carries the creditor id under its
    scheme element. *)
Theorem payment_info_party_and_agent (g : Globals) (x : SepaPaymentInfo.t)
  (node : Element) :
  SepaPaymentInfo.toXML g x = Ok node ->
  In (party_node x) (childNodes node)
  /\ In (agent_node x) (childNodes node)
  /\ tagName node = str "PmtInf"
  /\ (SepaPaymentInfo.is_direct_debit x = true ->
      occurs_in (leaf (str "Id") [] (VStr (SepaPaymentInfo.creditorId x)))
                node).
Proof.
  intros H.
  assert (T := payment_info_tagName g x node H).
  revert H. unfold SepaPaymentInfo.toXML, party_node, agent_node.
  destruct (if VALIDATIONS_ENABLED g then SepaPaymentInfo.validate x
            else Ok tt) as [[] | e]; cbn [bind]; [| discriminate].
  destruct (SepaPaymentInfo.is_direct_debit x) eqn:Hdd;
    (destruct (toISOString _) as [dt |]; cbn [bind]; [| discriminate]);
    destruct (num_is (getPainXMLVersion (SepaPaymentInfo._painFormat x)) 3);
    destruct (nonempty (SepaPaymentInfo.categoryPurpose x));
    destruct (nullable_truthy (SepaPaymentInfo.pullStreet x)
              && nullable_truthy (SepaPaymentInfo.pullCity x)
              && nullable_truthy (SepaPaymentInfo.pullCountry x));
    destruct (nonempty (SepaPaymentInfo.pullBIC x));
    destruct (nonempty (SepaPaymentInfo.pullMemberId x));
    intros H;
    destruct (append_transactions_keeps g _ _ _ H) as [Ho Hc];
    (split; [apply Hc; flatten; pick |]);
    (split; [apply Hc; flatten; pick |]);
    (split; [exact T |]);
    intros Hd; try discriminate Hd;
    apply Ho; flatten; pick.
Qed.

End Blocks.

(** ** Construction *)

Section Construction.
Context {R : Runtime}.

(** X21. The format is handed down: a new document has a uniform format,
    a block made by [createPaymentInfo] and a transaction made by
    [createTransaction] carry the format of their maker, with a transfer
    block making transfer transactions and a direct-debit block making
    direct-debit ones; attaching a block of the document's format, with
    whatever transactions, and normalizing keep the format uniform. *)
Theorem format_handed_down (g : Globals) (x : SepaDocument.t)
  (pi : SepaPaymentInfo.t) (pmts : list SepaTransaction.t)
  (painFormat : option jsstring) :
  uniform_format x ->
  SepaPaymentInfo._painFormat pi = SepaDocument._painFormat x ->
  uniform_format (SepaDocument.new painFormat)
  /\ SepaPaymentInfo._painFormat (SepaDocument.createPaymentInfo x)
     = SepaDocument._painFormat x
  /\ SepaTransaction._painFormat
       (SepaPaymentInfo.createTransaction (SepaDocument.createPaymentInfo x))
     = SepaDocument._painFormat x
  /\ SepaTransaction.is_transfer
       (SepaPaymentInfo.createTransaction (SepaDocument.createPaymentInfo x))
     = negb (SepaPaymentInfo.is_direct_debit
               (SepaDocument.createPaymentInfo x))
  /\ uniform_format
       (SepaDocument.addPaymentInfo g x
          (fold_left (SepaPaymentInfo.addTransaction g) pmts pi))
  /\ uniform_format (SepaDocument.normalize x).
Proof.
  intros [Hgh Hpi] Hfmt.
  split; [split; [reflexivity | constructor] |].
  split; [reflexivity |]. split; [reflexivity |].
  split.
  { unfold SepaTransaction.is_transfer, SepaPaymentInfo.is_direct_debit,
      SepaPaymentInfo.createTransaction, SepaDocument.createPaymentInfo,
      SepaTransaction.new, SepaPaymentInfo.new.
    cbn [SepaTransaction._type SepaPaymentInfo.method
         SepaPaymentInfo._painFormat].
    now destruct (indexOf (SepaDocument._painFormat x) (str "pain.001")
                  =? 0). }
  split.
  - split; [exact Hgh |].
    unfold SepaDocument.addPaymentInfo.
    cbn [SepaDocument._paymentInfo SepaDocument.update
         SepaDocument._painFormat].
    apply Forall_app. split; [exact Hpi |]. constructor; [| constructor].
    cbn [SepaPaymentInfo._painFormat SepaPaymentInfo.update].
    rewrite <- Hfmt. clear. revert pi.
    induction pmts as [| pmt rest IH]; intros pi; cbn [fold_left];
      [reflexivity |].
    now rewrite IH.
  - rewrite document_normalize_unfold. split; [exact Hgh |].
    cbn [SepaDocument._paymentInfo SepaDocument.update
         SepaDocument._painFormat].
    apply Forall_map.
    eapply Forall_impl; [| exact Hpi]. intros b Hb. exact Hb.
Qed.

End Construction.

Lemma format_handed_down_witness :
  uniform_format
    (SepaDocument.addPaymentInfo initial_globals
       (Sample.document DEFAULT_PAIN_FORMAT (str "MSG1"))
       (fold_left (SepaPaymentInfo.addTransaction initial_globals)
                  [Sample.debit 1000] (Sample.block DEFAULT_PAIN_FORMAT))).
Proof.
  refine (proj1 (proj2 (proj2 (proj2 (proj2
            (format_handed_down initial_globals
               (Sample.document DEFAULT_PAIN_FORMAT (str "MSG1"))
               (Sample.block DEFAULT_PAIN_FORMAT) [Sample.debit 1000]
               None _ _)))))).
  - split; [reflexivity | constructor].
  - reflexivity.
Defined.

(** ** Helpers on strings *)

(** X22. [extractABICodeFromIBAN] returns the characters at indices 5 to
    9, as many of them as the string has: at most five characters, five of
    them when the string has ten or more, none when it has five or
    fewer. *)
Theorem extractABICodeFromIBAN_window (iban : jsstring) :
  extractABICodeFromIBAN iban = firstn 5 (skipn 5 iban)
  /\ length (extractABICodeFromIBAN iban)
     = Nat.min 5 (length iban - 5)
  /\ forall i : nat,
       nth_error (extractABICodeFromIBAN iban) i
       = if Nat.ltb i 5 then nth_error iban (5 + i) else None.
Proof.
  assert (E : extractABICodeFromIBAN iban = firstn 5 (skipn 5 iban)).
  { unfold extractABICodeFromIBAN, substring.
    rewrite (Z.max_l 5 0), (Z.max_l 10 0) by lia.
    destruct (Nat.le_gt_cases 10 (length iban)) as [H10 | H10].
    - rewrite (Z.min_l 5), (Z.min_l 10) by lia.
      rewrite Z.min_l, Z.max_r by lia. reflexivity.
    - destruct (Nat.le_gt_cases 5 (length iban)) as [H5 | H5].
      + rewrite (Z.min_l 5) by lia. rewrite (Z.min_r 10) by lia.
        rewrite Z.min_l, Z.max_r by lia.
        change (Z.to_nat 5) with 5%nat.
        rewrite !firstn_all2; try reflexivity; rewrite length_skipn; lia.
      + rewrite (Z.min_r 5), (Z.min_r 10) by lia.
        rewrite Z.min_id, Z.max_id, Z.sub_diag.
        rewrite (skipn_all2 iban (n := 5)) by lia. reflexivity. }
  rewrite E. split; [reflexivity |]. split.
  - rewrite length_firstn, length_skipn. reflexivity.
  - intros i. destruct (Nat.ltb_spec i 5) as [Hi | Hi].
    + rewrite nth_error_firstn.
      replace (i <? 5)%nat with true by (symmetry; apply Nat.ltb_lt; lia).
      apply nth_error_skipn.
    + apply nth_error_None. rewrite length_firstn. lia.
Qed.

Lemma indexOf_from_range (needle s : jsstring) (i : Z) :
  indexOf_from needle s i = -1 \/ i <= indexOf_from needle s i.
Proof.
  revert i. induction s as [| c s IH]; intros i; cbn [indexOf_from].
  - destruct (is_prefix needle []); [right | left]; lia.
  - destruct (is_prefix needle (c :: s)); [right; lia |].
    destruct (IH (i + 1)) as [H | H]; [now left | right; lia].
Qed.

Lemma indexOf_zero (s needle : jsstring) :
  (indexOf s needle =? 0) = is_prefix needle s.
Proof.
  unfold indexOf. destruct s as [| c s]; cbn [indexOf_from].
  - now destruct (is_prefix needle []).
  - destruct (is_prefix needle (c :: s)); [reflexivity |].
    apply Z.eqb_neq. destruct (indexOf_from_range needle s (0 + 1)); lia.
Qed.

Lemma parseInt_two_digits (d1 d2 : Z) :
  is_digit d1 = true -> is_digit d2 = true ->
  parseInt [d1; d2] = Some (decimal_value [d1; d2]).
Proof.
  intros H1 H2.
  assert (E : forallb (fun a =>
                forallb (fun b =>
                  match parseInt [a; b] with
                  | Some v => v =? decimal_value [a; b]
                  | None => false
                  end) (map Z.of_nat (seq 48 10)))
                (map Z.of_nat (seq 48 10)) = true)
    by (vm_compute; reflexivity).
  rewrite forallb_forall in E.
  apply is_digit_range in H1, H2.
  specialize (E d1 (in_range_enum 48 10 d1 ltac:(lia))).
  rewrite forallb_forall in E.
  specialize (E d2 (in_range_enum 48 10 d2 ltac:(lia))).
  destruct (parseInt [d1; d2]); [| discriminate].
  apply Z.eqb_eq in E. now subst.
Qed.

Lemma substr_last_two (pre : jsstring) (d1 d2 : Z) :
  substr (pre ++ [d1; d2]) (-2) None = [d1; d2].
Proof.
  unfold substr. rewrite length_app. cbn [length].
  change (-2 <? 0) with true. cbv iota.
  rewrite Z.max_l by lia.
  rewrite Z.min_r by lia.
  replace (Z.of_nat (length pre + 2) - (Z.of_nat (length pre + 2) + -2))
    with 2 by lia.
  replace (Z.to_nat (Z.of_nat (length pre + 2) + -2)) with (length pre)
    by lia.
  rewrite skipn_app, skipn_all, Nat.sub_diag. reflexivity.
Qed.

(** X23. The schema version of a format that ends in two decimal digits is
    the number they write, plus one when the format begins with
    [pain.008]; the eight formats of the table resolve to 2 or 3. *)
Theorem getPainXMLVersion_of_suffix (pre : jsstring) (d1 d2 : Z) :
  is_digit d1 = true -> is_digit d2 = true ->
  getPainXMLVersion (pre ++ [d1; d2])
  = Some (decimal_value [d1; d2]
          + if is_prefix (str "pain.008") (pre ++ [d1; d2]) then 1 else 0)
  /\ map getPainXMLVersion (map fst SEPATypes)
     = [Some 2; Some 2; Some 3; Some 3; Some 2; Some 2; Some 3; Some 3].
Proof.
  intros H1 H2. split; [| vm_compute; reflexivity].
  unfold getPainXMLVersion.
  rewrite substr_last_two, parseInt_two_digits, indexOf_zero by assumption.
  reflexivity.
Qed.

Lemma getPainXMLVersion_of_suffix_witness :
  getPainXMLVersion (str "pain.008.001.02") = Some 3.
Proof.
  exact (proj1 (getPainXMLVersion_of_suffix (str "pain.008.001.") 48 50
                  eq_refl eq_refl)).
Defined.

(** ** The properties at work on the sample entities *)

Lemma transaction_shape_witness :
  exists node,
    SepaTransaction.toXML initial_globals (Sample.debit 1000) = Ok node
    /\ child_tags node
       = [str "PmtId"; str "InstdAmt"; str "DrctDbtTx"; str "DbtrAgt";
          str "Dbtr"; str "DbtrAcct"; str "RmtInf"].
Proof.
  destruct (SepaTransaction.toXML initial_globals (Sample.debit 1000))
    as [node | e] eqn:E; [| vm_compute in E; discriminate].
  exists node. split; [reflexivity |].
  exact (proj1 (transaction_shape initial_globals (Sample.debit 1000) node E)).
Defined.

Lemma transaction_postal_address_witness :
  exists node,
    SepaTransaction.toXML initial_globals Transfers.addressed_transfer = Ok node
    /\ occurs_in
         (mkElement (str "PstlAdr") [] None
            [leaf (str "Ctry") [] VNull; leaf (str "AdrLine") [] VNull;
             leaf (str "AdrLine") [] VNull]) node.
Proof.
  destruct (SepaTransaction.toXML initial_globals Transfers.addressed_transfer)
    as [node | e] eqn:E; [| vm_compute in E; discriminate].
  exists node. split; [reflexivity |].
  exact (transaction_postal_address initial_globals Transfers.addressed_transfer node E).
Defined.

Lemma document_rendering_witness :
  exists rootElement,
    childNodes (documentElement filled_document_xml) = [rootElement]
    /\ tagName rootElement = str "CstmrDrctDbtInitn"
    /\ child_tags rootElement = [str "GrpHdr"; str "PmtInf"].
Proof.
  destruct (document_rendering initial_globals
              (filled_document DEFAULT_PAIN_FORMAT)
              (str "CstmrDrctDbtInitn") eq_refl) as [_ H].
  destruct (H filled_document_xml) as [_ [_ [_ [_ [_ K]]]]].
  - vm_compute. reflexivity.
  - exact K.
Defined.

Lemma payment_info_party_and_agent_witness :
  exists node,
    SepaPaymentInfo.toXML initial_globals (Sample.block DEFAULT_PAIN_FORMAT)
    = Ok node
    /\ In (mkElement (str "CdtrAgt") [] None
             [mkElement (str "FinInstnId") [] None
                [leaf (str "BIC") [] (VStr (str "ABCDDEFFXXX"))]])
          (childNodes node).
Proof.
  destruct (SepaPaymentInfo.toXML initial_globals
              (Sample.block DEFAULT_PAIN_FORMAT))
    as [node | e] eqn:E; [| vm_compute in E; discriminate].
  exists node. split; [reflexivity |].
  exact (proj1 (proj2 (payment_info_party_and_agent initial_globals
                         (Sample.block DEFAULT_PAIN_FORMAT) node E))).
Defined.
